(** * MTH9815 trading system: order book, algo execution, booking, price codec

    A shallow embedding of the parts of the C++ sources that the specification
    talks about, followed by the properties proved about them.

    Modelling conventions.
    - [double] is modelled by exact rationals ([Qc], canonical fractions, so
      that [=] is the C++ [==]).  Rounding, infinities and NaN are outside the
      model; every price the system reads comes from [Frac2Price] and is a
      multiple of 1/256, for which binary64 arithmetic is exact.
    - [long] and [int] are modelled by [Z]; additions on [long] are written
      with their two's complement wrap-around ([wrap64]), conversions from
      [double] check the target range, and the conversion of a [long] to
      [double] rounds to the nearest binary64 value: it is exact up to 2^53
      in magnitude and not beyond.
    - [std::map<string, V>] is a [gmap string V]; [std::unordered_map<double,
      long>] is a [gmap Qc Z], whose [map_to_list] plays the role of the
      container's unspecified iteration order.
    - A call that can throw returns an [outcome]; [Undefined] marks undefined
      behaviour of the C++ abstract machine (element access past the end of a
      vector, dereferencing [end()], a [double] to [int] conversion out of
      range).  Member functions that mutate a service are state transformers
      [M S A]; the state reached when an exception leaves the call is kept.
    - All services are instantiated at [T = Bond], as [main.cpp] does.
    - Listeners are opaque to the service that notifies them: every call of
      [ProcessAdd] is recorded, in order, in the [notified] log of the service
      state. *)

From Stdlib Require Import ZArith QArith Qcanon Qround Ascii String.
From stdpp Require Import base numbers option list strings pretty gmap fin_maps.

Local Open Scope Z_scope.

(** ** The C++ runtime the sources rely on *)

Module Cxx.

Inductive exception : Type :=
| runtime_error (what : string)
| invalid_argument (what : string)
| out_of_range (what : string).

Inductive outcome (A : Type) : Type :=
| Ok (a : A)
| Throw (e : exception)
| Undefined.
Global Arguments Ok {A} a.
Global Arguments Throw {A} e.
Global Arguments Undefined {A}.

Global Instance outcome_ret : MRet outcome := @Ok.
Global Instance outcome_bind : MBind outcome := λ A B f x,
  match x with
  | Ok a => f a
  | Throw e => Throw e
  | Undefined => Undefined
  end.

(** Stateful member functions: the receiver object is threaded through, and
    survives an exception. *)
Definition M (S A : Type) : Type := S → S * outcome A.

Definition ret {S A} (a : A) : M S A := λ s, (s, Ok a).
Definition bind {S A B} (m : M S A) (f : A → M S B) : M S B := λ s,
  match m s with
  | (s', Ok a) => f a s'
  | (s', Throw e) => (s', Throw e)
  | (s', Undefined) => (s', Undefined)
  end.
Definition lift {S A} (x : outcome A) : M S A := λ s, (s, x).
Definition gets {S A} (f : S → A) : M S A := λ s, (s, Ok (f s)).
Definition modify {S} (f : S → S) : M S unit := λ s, (f s, Ok tt).

(** Range-based [for] over a vector, with a body that may throw. *)
Fixpoint for_each {S A} (body : A → M S unit) (l : list A) : M S unit :=
  match l with
  | [] => ret tt
  | x :: l' => bind (body x) (λ _, for_each body l')
  end.

(** *** Machine integers *)

Definition INT_MIN : Z := - 2 ^ 31.
Definition INT_MAX : Z := 2 ^ 31 - 1.
Definition LONG_MIN : Z := - 2 ^ 63.
Definition LONG_MAX : Z := 2 ^ 63 - 1.

Definition in_int (z : Z) : Prop := INT_MIN ≤ z ≤ INT_MAX.
Definition in_long (z : Z) : Prop := LONG_MIN ≤ z ≤ LONG_MAX.

(** Two's complement wrap-around of 64-bit signed arithmetic. *)
Definition wrap64 (z : Z) : Z := (z + 2 ^ 63) `mod` 2 ^ 64 - 2 ^ 63.

(** *** Doubles *)

Definition floor (x : Qc) : Z := Qfloor x.

(** Conversion of a [double] to an integer type truncates toward zero. *)
Definition trunc (x : Qc) : Z :=
  if bool_decide (0 ≤ x)%Qc then Qfloor x else Qceiling x.

(** [static_cast<int>(x)]: undefined when the truncated value does not fit. *)
Definition double_to_int (x : Qc) : outcome Z :=
  let z := trunc x in
  if bool_decide (in_int z) then Ok z else Undefined.

(** The binary64 value nearest to an integer, ties to the even significand:
    an integer of at most 53 bits is kept, of a longer one the 53 leading
    bits are kept and the rest is rounded. *)
Definition round_to_binary64 (z : Z) : Z :=
  let a := Z.abs z in
  if bool_decide (a < 2 ^ 53) then z
  else
    let e := Z.log2 a - 52 in
    let q := a `div` 2 ^ e in
    let r := a `mod` 2 ^ e in
    let half := 2 ^ (e - 1) in
    let q' :=
      if bool_decide (half < r) || (bool_decide (r = half) && Z.odd q) then q + 1 else q in
    Z.sgn z * (q' * 2 ^ e).

(** The integers that the conversion to [double] keeps whatever their bits. *)
Definition exact_as_double (z : Z) : Prop := Z.abs z ≤ 2 ^ 53.

(** Implicit [long] to [double] and [double] to [long] conversions, as in the
    constructor of [ExecutionOrder]: the first rounds to binary64, the second
    truncates (its argument is within the range of [long] at the call
    sites considered). *)
Definition long_to_double (z : Z) : Qc := Qc_of_Z (round_to_binary64 z).
Definition double_to_long (x : Qc) : Z := trunc x.

(** *** Containers *)

(** [v[i]] on a [std::vector]: no bounds check. *)
Definition at_index {A} (v : list A) (i : nat) : outcome A :=
  match v !! i with
  | Some x => Ok x
  | None => Undefined
  end.

(** [m.insert(pair(k, v))] on a [std::map]: no effect when the key is
    present. *)
Definition map_insert {V} (k : string) (v : V) (m : gmap string V) : gmap string V :=
  match m !! k with
  | Some _ => m
  | None => <[k := v]> m
  end.

(** [std::max_element(first, last, comp)] and [std::min_element]: the first
    greatest (smallest) element of the range; [None] is the iterator [last]
    that both return on an empty range. *)
Definition max_element {A} (comp : A → A → bool) (l : list A) : option A :=
  match l with
  | [] => None
  | x :: l' => Some (foldl (λ largest y, if comp largest y then y else largest) x l')
  end.

Definition min_element {A} (comp : A → A → bool) (l : list A) : option A :=
  match l with
  | [] => None
  | x :: l' => Some (foldl (λ smallest y, if comp y smallest then y else smallest) x l')
  end.

(** *** Strings *)

(** [s.find(c)]; [None] is [string::npos]. *)
Fixpoint find (c : ascii) (s : string) : option nat :=
  match s with
  | EmptyString => None
  | String a s' => if Ascii.eqb a c then Some 0%nat else S <$> find c s'
  end.

Fixpoint string_drop (n : nat) (s : string) : string :=
  match n, s with
  | O, _ => s
  | S n', EmptyString => EmptyString
  | S n', String _ s' => string_drop n' s'
  end.

Fixpoint string_take (n : nat) (s : string) : string :=
  match n, s with
  | O, _ => EmptyString
  | S n', EmptyString => EmptyString
  | S n', String a s' => String a (string_take n' s')
  end.

(** [s.substr(pos, n)] and [s.substr(pos)], for [pos <= s.size()], which
    holds at every call site. *)
Definition substr (s : string) (pos n : nat) : string :=
  string_take n (string_drop pos s).
Definition substr_from (s : string) (pos : nat) : string :=
  string_drop pos s.

(** [s[i] = c] for [i < s.size()]. *)
Fixpoint string_set (i : nat) (c : ascii) (s : string) : string :=
  match s with
  | EmptyString => EmptyString
  | String a s' =>
      match i with
      | O => String c s'
      | S i' => String a (string_set i' c s')
      end
  end.

(** [std::to_string] on an [int]. *)
Definition to_string (z : Z) : string := pretty z.

(** The tokens that [while (getline(stream, token, ','))] pushes: the pieces
    between the separators, without a final empty piece. *)
Fixpoint split_go (sep : ascii) (cur : string) (s : string) : list string :=
  match s with
  | EmptyString =>
      match cur with
      | EmptyString => []
      | _ => [String.rev cur]
      end
  | String a s' =>
      if Ascii.eqb a sep then String.rev cur :: split_go sep EmptyString s'
      else split_go sep (String a cur) s'
  end.
Definition split (sep : ascii) (s : string) : list string :=
  split_go sep EmptyString s.

(** *** Numeric parsing

    [stol] and [stod] skip leading white space, read an optional sign and the
    longest numeric prefix, and throw [invalid_argument] when no conversion
    can be made.  [stod] is modelled on decimal digits with an optional
    fractional part; exponents, hexadecimal floats, infinities and NaN are not
    modelled.  Its result is the exact decimal value, where [std::stod]
    rounds to binary64 and throws [out_of_range] beyond the range of
    [double]: the statements below either apply it to strings whose value
    binary64 holds exactly, or take the outcome of the conversion as a
    hypothesis. *)

Definition isspace (c : ascii) : bool :=
  let n := N_of_ascii c in
  ((n =? 32) || ((9 <=? n) && (n <=? 13)))%N.

Fixpoint skip_space (s : string) : string :=
  match s with
  | EmptyString => EmptyString
  | String a s' => if isspace a then skip_space s' else s
  end.

Definition read_sign (s : string) : bool * string :=
  match s with
  | String "-" s' => (true, s')
  | String "+" s' => (false, s')
  | _ => (false, s)
  end.

Definition digit_val (c : ascii) : option Z :=
  let n := N_of_ascii c in
  if ((48 <=? n) && (n <=? 57))%N then Some (Z.of_N n - 48) else None.

(** The character ['0' + d] of a decimal digit [d]. *)
Definition digit_char (d : Z) : ascii := ascii_of_N (Z.to_N (48 + d)).

Fixpoint all_digits (s : string) : bool :=
  match s with
  | EmptyString => true
  | String a s' => bool_decide (is_Some (digit_val a)) && all_digits s'
  end.

(** Longest prefix of decimal digits: its value on top of [acc], the number
    of digits read on top of [n], and the rest of the string. *)
Fixpoint read_digits (s : string) (acc : Z) (n : nat) : Z * nat * string :=
  match s with
  | EmptyString => (acc, n, s)
  | String a s' =>
      match digit_val a with
      | Some d => read_digits s' (10 * acc + d) (S n)
      | None => (acc, n, s)
      end
  end.

Definition stol (str : string) : outcome Z :=
  let '(neg, s1) := read_sign (skip_space str) in
  let '(v, n, _) := read_digits s1 0 0%nat in
  match n with
  | O => Throw (invalid_argument "stol")
  | S _ =>
      let v := if neg : bool then - v else v in
      if bool_decide (in_long v) then Ok v else Throw (out_of_range "stol")
  end.

Definition stod (str : string) : outcome Qc :=
  let '(neg, s1) := read_sign (skip_space str) in
  let '(ip, n1, s2) := read_digits s1 0 0%nat in
  let '(fp, n2) :=
    match s2 with
    | String "." s3 => let '(f, n, _) := read_digits s3 0 0%nat in (f, n)
    | _ => (0, 0%nat)
    end in
  match (n1 + n2)%nat with
  | O => Throw (invalid_argument "stod")
  | S _ =>
      let v := (Qc_of_Z ip + Q2Qc (fp # Z.to_pos (10 ^ Z.of_nat n2)))%Qc in
      Ok (if neg : bool then (- v)%Qc else v)
  end.

End Cxx.

Export Cxx.

Notation "'let*' x := m 'in' k" := (Cxx.bind m (λ x, k))
  (at level 10, x name, m at level 100, k at level 200).

(** ** products.hpp *)

Module Products.

Inductive ProductType : Type := IRSWAP | BOND.
Inductive BondIdType : Type := CUSIP | ISIN.

(** A bond.  [GetProductId] reads the identifier held by the [Product] base
    class; the maturity date is kept as year, month, day. *)
Record Bond : Type := mkBond {
  GetProductId : string;
  GetBondIdType : BondIdType;
  GetTicker : string;
  GetCoupon : Qc;
  GetMaturityDate : Z * Z * Z
}.

End Products.

Export Products.

(** ** utilities.hpp *)

Module Utilities.

(** The table [productConstructors<T>], in key order. *)
Definition productConstructors : list (string * Bond) :=
  [ ("9128283H1", mkBond "9128283H1" CUSIP "US2Y" (Q2Qc (175 # 10000)) (2019, 11, 30));
    ("9128283L2", mkBond "9128283L2" CUSIP "US3Y" (Q2Qc (1875 # 100000)) (2020, 12, 15));
    ("912828M80", mkBond "912828M80" CUSIP "US5Y" (Q2Qc (2 # 100)) (2022, 11, 30));
    ("9128283J7", mkBond "9128283J7" CUSIP "US7Y" (Q2Qc (2125 # 100000)) (2024, 11, 30));
    ("9128283F5", mkBond "9128283F5" CUSIP "US10Y" (Q2Qc (225 # 10000)) (2027, 12, 15));
    ("912810TW8", mkBond "912810TW8" CUSIP "US20Y" (Q2Qc (25 # 1000)) (2037, 12, 15));
    ("912810RZ3", mkBond "912810RZ3" CUSIP "US30Y" (Q2Qc (275 # 10000)) (2047, 12, 15)) ].

Definition QueryProduct (cusip : string) : outcome Bond :=
  match (list_to_map productConstructors : gmap string Bond) !! cusip with
  | None => Throw (invalid_argument ("Unknown CUSIP: " +:+ cusip))
  | Some ctor => Ok ctor
  end.

Definition Frac2Price (PriceFrac : string) : outcome Qc :=
  match find "-" PriceFrac with
  | None => Throw (invalid_argument "Invalid format: Dash '-' not found.")
  | Some posDash =>
      price1 ← stod (substr PriceFrac 0 posDash);
      let fractionalPart := substr_from PriceFrac (posDash + 1) in
      if negb (String.length fractionalPart =? 3)%nat then
        Throw (invalid_argument
                 "Invalid format: Fractional part should be 3 digits.")
      else
        (* Replace '+' with '4' if present in the z position *)
        let fractionalPart :=
          if bool_decide (String.get 2 fractionalPart = Some "+"%char)
          then string_set 2 "4" fractionalPart else fractionalPart in
        x32 ← stod (substr fractionalPart 0 2);
        let price32 := (x32 / Qc_of_Z 32)%Qc in
        x256 ← stod (substr fractionalPart 2 1);
        let price256 := (x256 / Qc_of_Z 256)%Qc in
        Ok (price1 + price32 + price256)%Qc
  end.

(** Convert prices from decimal notation to fractional notation. *)
Definition Price2Frac (price : Qc) : outcome string :=
  intpart ← double_to_int (Qc_of_Z (floor price));
  let fracpart := (price - Qc_of_Z intpart)%Qc in
  xy ← double_to_int (fracpart * Qc_of_Z 32)%Qc;
  z256 ← double_to_int (fracpart * Qc_of_Z 256)%Qc;
  let z := Z.rem z256 8 in
  let fractionalString := to_string intpart +:+ "-" in
  let fractionalString :=
    fractionalString +:+ ((if bool_decide (xy < 10) then "0" else "") +:+ to_string xy) in
  let fractionalString :=
    fractionalString +:+ (if bool_decide (z = 4) then "+" else to_string z) in
  Ok fractionalString.

(** One round of the loop of [GenerateRandomId], for the value [r] that
    [rand()] returned: the text appended to the id. *)
Definition random_char (r : Z) : string :=
  let random := Z.rem r 36 in
  if bool_decide (random < 10) then to_string random
  else String (ascii_of_N (Z.to_N (65 + random - 10))) "".

Fixpoint GenerateRandomId_loop (rand : nat → Z) (j n : nat) (id : string) : string :=
  match n with
  | O => id
  | S n' => GenerateRandomId_loop rand (S j) n' (id +:+ random_char (rand j))
  end.

(** Generate random ID with numbers and letters.  [rand j] is what the call
    of [rand()] in round [j] of the loop returns. *)
Definition GenerateRandomId (rand : nat → Z) (length : Z) : string :=
  GenerateRandomId_loop rand 0 (Z.to_nat length) "".

(** The record that the loop body of [genTrades] writes to the trade file,
    without the line end:
    [tFile << product << "," << tradeId << "," << Price2Frac(price) << ","
           << book << "," << quantity << "," << side << endl]. *)
Definition genTrades_line (product tradeId : string) (price : Qc) (book : string)
    (quantity : Z) (side : string) : outcome string :=
  frac ← Price2Frac price;
  Ok (product +:+ "," +:+ tradeId +:+ "," +:+ frac +:+ "," +:+ book +:+ ","
      +:+ to_string quantity +:+ "," +:+ side).

(** The record that the loop body of [genInquiries] writes to the inquiry
    file:
    [iFile << inquiryId << "," << product << "," << side << "," << quantity
           << "," << Price2Frac(price) << "," << status << endl]. *)
Definition genInquiries_line (inquiryId product side : string) (quantity : Z) (price : Qc)
    (status : string) : outcome string :=
  frac ← Price2Frac price;
  Ok (inquiryId +:+ "," +:+ product +:+ "," +:+ side +:+ "," +:+ to_string quantity +:+ ","
      +:+ frac +:+ "," +:+ status).

End Utilities.

Export Utilities.

(** A registered [ServiceListener], named by its position in the wiring of
    [main.cpp]. *)
Definition Listener : Type := nat.

(** ** marketdataservice.hpp *)

Module MarketData.

(** Side for market data *)
Inductive PricingSide : Type := BID | OFFER.

Global Instance PricingSide_eq_dec : EqDecision PricingSide.
Proof. solve_decision. Defined.

(** A market data order with price, quantity, and side. *)
Record Order : Type := mkOrder {
  GetPrice : Qc;
  GetQuantity : Z;
  GetSide : PricingSide
}.

Global Instance Order_eq_dec : EqDecision Order.
Proof.
  intros [p1 q1 s1] [p2 q2 s2].
  refine (cast_if_and3 (decide (p1 = p2)) (decide (q1 = q2)) (decide (s1 = s2)));
    abstract congruence.
Defined.

(** Class representing a bid and offer order *)
Record BidOffer : Type := mkBidOffer {
  GetBidOrder : Order;
  GetOfferOrder : Order
}.

(** Order book with a bid and offer stack. *)
Record OrderBook : Type := mkOrderBook {
  GetProduct : Bond;
  GetBidStack : list Order;
  GetOfferStack : list Order
}.

Definition price_less (a b : Order) : bool :=
  bool_decide (GetPrice a < GetPrice b)%Qc.

(** [OrderBook<T>::BestBidOffer]: the iterators returned by [max_element] and
    [min_element] are dereferenced without a test against [end()]. *)
Definition BestBidOffer (book : OrderBook) : outcome BidOffer :=
  let bestBid := max_element price_less (GetBidStack book) in
  let bestOffer := min_element price_less (GetOfferStack book) in
  match bestBid, bestOffer with
  | Some bid, Some offer => Ok (mkBidOffer bid offer)
  | _, _ => Undefined
  end.

(** Market Data Service which distributes market data, keyed on product
    identifier. *)
Record MarketDataService : Type := mkService {
  orderBookMap : gmap string OrderBook;
  listeners : list Listener;
  bookDepth : Z;
  notified : list (Listener * OrderBook)
}.

(** The constructor: [bookDepth(5)]. *)
Definition new : MarketDataService := mkService ∅ [] 5 [].

Definition set_orderBookMap (f : gmap string OrderBook → gmap string OrderBook)
    (s : MarketDataService) : MarketDataService :=
  mkService (f (orderBookMap s)) (listeners s) (bookDepth s) (notified s).

Definition AddListener (listener : Listener) (s : MarketDataService) : MarketDataService :=
  mkService (orderBookMap s) (listeners s ++ [listener]) (bookDepth s) (notified s).

(** [for (auto& listener : listeners) listener->ProcessAdd(data);] *)
Definition notify (data : OrderBook) (s : MarketDataService) : MarketDataService :=
  mkService (orderBookMap s) (listeners s) (bookDepth s)
    (notified s ++ ((λ l, (l, data)) <$> listeners s)).

Definition GetData (key : string) : M MarketDataService OrderBook := λ s,
  (* if the order book does not exist, create a new one *)
  match orderBookMap s !! key with
  | Some book => (s, Ok book)
  | None =>
      match QueryProduct key with
      | Ok prod =>
          let book := mkOrderBook prod [] [] in
          (set_orderBookMap (map_insert key book) s, Ok book)
      | Throw e => (s, Throw e)
      | Undefined => (s, Undefined)
      end
  end.

Definition OnMessage (data : OrderBook) : M MarketDataService unit := λ s,
  let key := GetProductId (GetProduct data) in
  let erased (m : gmap string OrderBook) :=
    if bool_decide (is_Some (m !! key)) then delete key m else m in
  (notify data (set_orderBookMap (λ m, map_insert key data (erased m)) s), Ok tt).

(** One of the two aggregation loops of [AggregateDepth]: the contents of
    the [unordered_map<double, long>] built from a stack. *)
Definition aggregate (stack : list Order) : gmap Qc Z :=
  foldl (λ (aggMap : gmap Qc Z) order,
           let price := GetPrice order in
           let quantity := GetQuantity order in
           match aggMap !! price with
           | Some q => <[price := wrap64 (q + quantity)]> aggMap
           | None => <[price := quantity]> aggMap
           end) ∅ stack.

(** ... and the vector filled from it, one order per entry. *)
Definition aggregate_stack (side : PricingSide) (stack : list Order) : list Order :=
  (λ item : Qc * Z, mkOrder item.1 item.2 side) <$> map_to_list (aggregate stack).

(** [MarketDataService<T>::AggregateDepth].  [orderBookMap[productId]] on an
    absent key default-constructs an [OrderBook<Bond>], and [Bond()] builds its
    identifier from a null pointer: undefined. *)
Definition AggregateDepth (productId : string) : M MarketDataService OrderBook := λ s,
  match orderBookMap s !! productId with
  | None => (s, Undefined)
  | Some orderBook =>
      let aggBid := aggregate_stack BID (GetBidStack orderBook) in
      let aggOffer := aggregate_stack OFFER (GetOfferStack orderBook) in
      (* update the order book *)
      let orderBook := mkOrderBook (GetProduct orderBook) aggBid aggOffer in
      (set_orderBookMap (insert productId orderBook) s, Ok orderBook)
  end.

(** [orderBook.GetBidStack().push_back(order)] through the reference that
    [GetData(productID)] returned, that is on the stored book. *)
Definition push_bid (productID : string) (order : Order) : M MarketDataService unit :=
  modify (set_orderBookMap (alter (λ book,
    mkOrderBook (GetProduct book) (GetBidStack book ++ [order]) (GetOfferStack book))
    productID)).

Definition push_offer (productID : string) (order : Order) : M MarketDataService unit :=
  modify (set_orderBookMap (alter (λ book,
    mkOrderBook (GetProduct book) (GetBidStack book) (GetOfferStack book ++ [order]))
    productID)).

(** Body of the [for (int i = 0; i < service->GetBookDepth(); i++)] loop. *)
Definition read_level (productID : string) (splitdata : list string) (i : nat)
    : M MarketDataService unit :=
  let* bidPrice := lift (at_index splitdata (4 * i + 2) ≫= Frac2Price) in
  let* bidQuantity := lift (at_index splitdata (4 * i + 3) ≫= stol) in
  let* askPrice := lift (at_index splitdata (4 * i + 4) ≫= Frac2Price) in
  let* askQuantity := lift (at_index splitdata (4 * i + 5) ≫= stol) in
  let bidOrder := mkOrder bidPrice bidQuantity BID in
  let askOrder := mkOrder askPrice askQuantity OFFER in
  let* _ := push_bid productID bidOrder in
  push_offer productID askOrder.

(** Body of the [while (getline(_data, line))] loop. *)
Definition read_record (line : string) : M MarketDataService unit :=
  let splitdata := split "," line in
  let* timestamp := lift (at_index splitdata 0) in
  let* productID := lift (at_index splitdata 1) in
  let* orderBook := GetData productID in
  let* depth := gets bookDepth in
  let* _ := for_each (read_level productID splitdata) (seq 0 (Z.to_nat depth)) in
  let* aggregatedOrderBook := AggregateDepth productID in
  OnMessage aggregatedOrderBook.

(** [MarketDataConnector<T>::Subscribe]; the file is the list of its lines,
    the first of which is read and dropped. *)
Definition Subscribe (_data : list string) : M MarketDataService unit :=
  for_each read_record (tail _data).

End MarketData.

(** ** algoexecutionservice.hpp *)

Module AlgoExecution.

Import MarketData.

Inductive OrderType : Type := FOK | IOC | MARKET | LIMIT | STOP.

Inductive Market : Type := BROKERTEC | ESPEED | CME.

(** An execution order that can be placed on an exchange. *)
Record ExecutionOrder : Type := mkExecutionOrder {
  GetProduct : Bond;
  GetSide : PricingSide;
  GetOrderId : string;
  GetOrderType : OrderType;
  GetPrice : Qc;
  GetVisibleQuantity : Z;
  GetHiddenQuantity : Z;
  GetParentOrderId : string;
  IsChildOrder : bool
}.

(** The constructor takes both quantities as [double] and stores them in
    [long] members. *)
Definition ExecutionOrder_ctor (_product : Bond) (_side : PricingSide)
    (_orderId : string) (_orderType : OrderType) (_price : Qc)
    (_visibleQuantity _hiddenQuantity : Qc) (_parentOrderId : string)
    (_isChildOrder : bool) : ExecutionOrder :=
  mkExecutionOrder _product _side _orderId _orderType _price
    (double_to_long _visibleQuantity) (double_to_long _hiddenQuantity)
    _parentOrderId _isChildOrder.


Record AlgoExecution : Type := mkAlgoExecution {
  GetExecutionOrder : ExecutionOrder;
  GetMarket : Market
}.

(** Algo Execution Service, keyed on product identifier.  The member
    [spread] is never read nor written and is left out. *)
Record AlgoExecutionService : Type := mkService {
  algoExecutionData : gmap string AlgoExecution;
  listeners : list Listener;
  count : Z;
  notified : list (Listener * AlgoExecution)
}.

(** The constructor: [count(0)]. *)
Definition new : AlgoExecutionService := mkService ∅ [] 0 [].

Definition AddListener (listener : Listener) (s : AlgoExecutionService)
    : AlgoExecutionService :=
  mkService (algoExecutionData s) (listeners s ++ [listener]) (count s) (notified s).

Definition GetData (key : string) : M AlgoExecutionService AlgoExecution := λ s,
  match algoExecutionData s !! key with
  | Some data => (s, Ok data)
  | None => (s, Throw (runtime_error "Key not found"))
  end.

(** [OnMessage] has an empty body. *)
Definition OnMessage (data : AlgoExecution) : M AlgoExecutionService unit := ret tt.

(** What the locals [side], [price] and [quantity] of [AlgoExecuteOrder]
    hold when no branch has assigned them. *)
Record Unassigned : Type := mkUnassigned {
  unassigned_side : PricingSide;
  unassigned_price : Qc;
  unassigned_quantity : Z
}.

(** The test [offerPrice - bidPrice <= 1.0 / 128.0]. *)
Definition tight (bidOffer : BidOffer) : Prop :=
  (MarketData.GetPrice (GetOfferOrder bidOffer) - MarketData.GetPrice (GetBidOrder bidOffer)
   ≤ Qc_of_Z 1 / Qc_of_Z 128)%Qc.

(** The locals [side], [price] and [quantity] of [AlgoExecuteOrder] after its
    [if] statement, for the counter value [cnt]. *)
Definition select_order (cnt : Z) (unassigned : Unassigned) (bidOffer : BidOffer)
    : PricingSide * Qc * Z :=
  let bid := GetBidOrder bidOffer in
  let offer := GetOfferOrder bidOffer in
  let bidPrice := MarketData.GetPrice bid in
  let offerPrice := MarketData.GetPrice offer in
  let bidQuantity := GetQuantity bid in
  let offerQuantity := GetQuantity offer in
  (* only agressing when the spread is at its tightest (1/128) *)
  if bool_decide (tight bidOffer) then
    (* alternating between bid and offer *)
    if bool_decide (Z.rem cnt 2 = 0) then
      (BID, offerPrice, bidQuantity)   (* BUY order takes best ask price *)
    else
      (OFFER, bidPrice, offerQuantity) (* SELL order takes best bid price *)
  else
    (unassigned_side unassigned, unassigned_price unassigned, unassigned_quantity unassigned).

(** The execution order and the algo execution that [AlgoExecuteOrder]
    creates from these locals. *)
Definition create_execution (product : Bond) (orderId parentOrderId : string)
    (selected : PricingSide * Qc * Z) : AlgoExecution :=
  let '(side, price, quantity) := selected in
  let visibleQuantity := quantity in
  let hiddenQuantity := 0 in
  let isChildOrder := false in
  let orderType := MARKET in (* market order *)
  let executionOrder :=
    ExecutionOrder_ctor product side orderId orderType price
      (long_to_double visibleQuantity) (long_to_double hiddenQuantity)
      parentOrderId isChildOrder in
  let market := BROKERTEC in
  mkAlgoExecution executionOrder market.

(** [AlgoExecutionService<T>::AlgoExecuteOrder].  [rnd11] and [rnd5] are the
    strings returned by [GenerateRandomId(11)] and [GenerateRandomId(5)]. *)
Definition AlgoExecuteOrder (rnd11 rnd5 : string) (unassigned : Unassigned)
    (_orderBook : OrderBook) : M AlgoExecutionService unit :=
  (* get the order book data *)
  let product := MarketData.GetProduct _orderBook in
  let key := GetProductId product in
  let orderId := "Algo" +:+ rnd11 in
  let parentOrderId := "AlgoParent" +:+ rnd5 in
  (* get the best bid and offer order *)
  let* bidOffer := lift (BestBidOffer _orderBook) in
  let* cnt := gets count in
  let selected := select_order cnt unassigned bidOffer in
  (* update the count *)
  let* _ := modify (λ s, mkService (algoExecutionData s) (listeners s)
                           (wrap64 (count s + 1)) (notified s)) in
  (* Create the execution order and the algo execution *)
  let algoExecution := create_execution product orderId parentOrderId selected in
  (* update the algo execution map *)
  let erased (m : gmap string AlgoExecution) :=
    if bool_decide (is_Some (m !! key)) then delete key m else m in
  let* _ := modify (λ s, mkService (map_insert key algoExecution (erased (algoExecutionData s)))
                           (listeners s) (count s) (notified s)) in
  (* flow the data to listeners *)
  modify (λ s, mkService (algoExecutionData s) (listeners s) (count s)
                 (notified s ++ ((λ l, (l, algoExecution)) <$> listeners s))).

(** [AlgoExecutionServiceListener<T>::ProcessAdd], the callback registered
    on the market data service. *)
Definition ProcessAdd (rnd11 rnd5 : string) (unassigned : Unassigned) (data : OrderBook)
    : M AlgoExecutionService unit :=
  AlgoExecuteOrder rnd11 rnd5 unassigned data.

End AlgoExecution.

(** ** pricingservice.hpp *)

Module Pricing.

(** A price object consisting of mid and bid/offer spread. *)
Record Price : Type := mkPrice {
  GetProduct : Bond;
  GetMid : Qc;
  GetBidOfferSpread : Qc
}.

Record PricingService : Type := mkService {
  priceData : gmap string Price;
  listeners : list Listener;
  notified : list (Listener * Price)
}.

Definition new : PricingService := mkService ∅ [] [].

Definition AddListener (listener : Listener) (s : PricingService) : PricingService :=
  mkService (priceData s) (listeners s ++ [listener]) (notified s).

Definition GetData (key : string) : M PricingService Price := λ s,
  match priceData s !! key with
  | Some data => (s, Ok data)
  | None => (s, Throw (runtime_error "Key not found"))
  end.

Definition OnMessage (data : Price) : M PricingService unit := λ s,
  (* flow data *)
  let key := GetProductId (GetProduct data) in
  (* update the price map *)
  let erased (m : gmap string Price) :=
    if bool_decide (is_Some (m !! key)) then delete key m else m in
  let priceData' := map_insert key data (erased (priceData s)) in
  (* flow the data to listeners *)
  (mkService priceData' (listeners s)
     (notified s ++ ((λ l, (l, data)) <$> listeners s)), Ok tt).

(** The part of the loop body of [PricingConnector<T>::Subscribe] that builds
    the [Price] from a line. *)
Definition read_record (line : string) : outcome Price :=
  let splitdata := split "," line in
  timestamp ← at_index splitdata 0;
  productID ← at_index splitdata 1;
  (* Convert the raw *)
  bid ← at_index splitdata 2 ≫= Frac2Price;
  ask ← at_index splitdata 3 ≫= Frac2Price;
  (* Calculate mid and spread *)
  let mid := ((bid + ask) / Qc_of_Z 2)%Qc in
  let spread := (ask - bid)%Qc in
  (* Get the product *)
  product ← QueryProduct productID;
  Ok (mkPrice product mid spread).

(** [PricingConnector<T>::Subscribe]: the header line is skipped. *)
Definition Subscribe (_data : list string) : M PricingService unit :=
  for_each (λ line, let* price := lift (read_record line) in OnMessage price)
           (tail _data).

End Pricing.

(** ** tradebookingservice.hpp *)

Module TradeBooking.

(** Trade sides *)
Inductive Side : Type := BUY | SELL.

Global Instance Side_eq_dec : EqDecision Side.
Proof. solve_decision. Defined.

(** Trade object with a price, side, and quantity on a particular book. *)
Record Trade : Type := mkTrade {
  GetProduct : Bond;
  GetTradeId : string;
  GetPrice : Qc;
  GetBook : string;
  GetQuantity : Z;
  GetSide : Side
}.

(** Trade Booking Service to book trades to a particular book, keyed on
    trade id. *)
Record TradeBookingService : Type := mkService {
  tradeData : gmap string Trade;
  listeners : list Listener;
  notified : list (Listener * Trade)
}.

Definition new : TradeBookingService := mkService ∅ [] [].

Definition AddListener (listener : Listener) (s : TradeBookingService)
    : TradeBookingService :=
  mkService (tradeData s) (listeners s ++ [listener]) (notified s).

Definition GetData (key : string) : M TradeBookingService Trade := λ s,
  match tradeData s !! key with
  | Some data => (s, Ok data)
  | None => (s, Throw (runtime_error "Key not found"))
  end.

Definition OnMessage (data : Trade) : M TradeBookingService unit := λ s,
  let key := GetTradeId data in
  let tradeData' :=
    if bool_decide (is_Some (tradeData s !! key))
    then <[key := data]> (tradeData s)
    else map_insert key data (tradeData s) in
  (mkService tradeData' (listeners s)
     (notified s ++ ((λ l, (l, data)) <$> listeners s)), Ok tt).

(** Book a trade and send the information to the listener *)
Definition BookTrade (trade : Trade) : M TradeBookingService unit := λ s,
  (mkService (tradeData s) (listeners s)
     (notified s ++ ((λ l, (l, trade)) <$> listeners s)), Ok tt).

(** The part of the loop body of [TradeBookingConnector<T>::Subscribe] that
    builds the [Trade] from a line. *)
Definition read_record (line : string) : outcome Trade :=
  let tokens := split "," line in
  productId ← at_index tokens 0;
  product ← QueryProduct productId;
  tradeId ← at_index tokens 1;
  price ← at_index tokens 2 ≫= Frac2Price;
  book ← at_index tokens 3;
  quantity ← at_index tokens 4 ≫= stol;
  token5 ← at_index tokens 5;
  let side := if bool_decide (token5 = "BUY") then BUY else SELL in
  Ok (mkTrade product tradeId price book quantity side).

(** [TradeBookingConnector<T>::Subscribe]: every line is a record. *)
Definition Subscribe (_data : list string) : M TradeBookingService unit :=
  for_each (λ line, let* trade := lift (read_record line) in OnMessage trade)
           _data.

(** Trade Booking Execution Listener subscribing from execution service; it
    holds a pointer to the booking service and its own counter. *)
Record TradeBookingServiceListener : Type := mkListener {
  service : TradeBookingService;
  count : Z
}.

Definition new_listener (_service : TradeBookingService) : TradeBookingServiceListener :=
  mkListener _service 0.

(** [TradeBookingServiceListener<T>::ProcessAdd]. *)
Definition ProcessAdd (order : AlgoExecution.ExecutionOrder)
    : M TradeBookingServiceListener unit := λ l,
  let product := AlgoExecution.GetProduct order in
  let orderId := AlgoExecution.GetOrderId order in
  let price := AlgoExecution.GetPrice order in
  let visibleQuantity := AlgoExecution.GetVisibleQuantity order in
  let hiddenQuantity := AlgoExecution.GetHiddenQuantity order in
  let totalQuantity := wrap64 (visibleQuantity + hiddenQuantity) in
  let tradeSide :=
    if bool_decide (AlgoExecution.GetSide order = MarketData.BID) then BUY else SELL in
  let selector := Z.rem (count l) 3 in
  let count' := wrap64 (count l + 1) in
  let book :=
    if bool_decide (selector = 0) then "TRSY1"
    else if bool_decide (selector = 1) then "TRSY2"
    else if bool_decide (selector = 2) then "TRSY3"
    else "" in
  let trade := mkTrade product orderId price book totalQuantity tradeSide in
  let '(service', r) := BookTrade trade (service l) in
  (mkListener service' count', r).

End TradeBooking.

(** ** inquiryservice.hpp and positionservice.hpp *)

Module Inquiry.

Inductive InquiryState : Type := RECEIVED | QUOTED | DONE | REJECTED | CUSTOMER_REJECTED.

Record Inquiry : Type := mkInquiry {
  GetInquiryId : string;
  GetProduct : Bond;
  GetSide : TradeBooking.Side;
  GetQuantity : Z;
  GetPrice : Qc;
  GetState : InquiryState
}.

Record InquiryService : Type := mkService {
  inquiryData : gmap string Inquiry;
  listeners : list Listener;
  notified : list (Listener * Inquiry)
}.

Definition GetData (key : string) : M InquiryService Inquiry := λ s,
  match inquiryData s !! key with
  | Some data => (s, Ok data)
  | None => (s, Throw (runtime_error "Key not found"))
  end.

Global Instance InquiryState_eq_dec : EqDecision InquiryState.
Proof. solve_decision. Defined.

Definition SetPrice (_price : Qc) (i : Inquiry) : Inquiry :=
  mkInquiry (GetInquiryId i) (GetProduct i) (GetSide i) (GetQuantity i) _price (GetState i).

Definition SetState (_state : InquiryState) (i : Inquiry) : Inquiry :=
  mkInquiry (GetInquiryId i) (GetProduct i) (GetSide i) (GetQuantity i) (GetPrice i) _state.

Definition new : InquiryService := mkService ∅ [] [].

Definition AddListener (listener : Listener) (s : InquiryService) : InquiryService :=
  mkService (inquiryData s) (listeners s ++ [listener]) (notified s).

Definition set_inquiryData (f : gmap string Inquiry → gmap string Inquiry)
    (s : InquiryService) : InquiryService :=
  mkService (f (inquiryData s)) (listeners s) (notified s).

(** [for (auto& listener : listeners) listener->ProcessAdd(data);] *)
Definition notify (data : Inquiry) (s : InquiryService) : InquiryService :=
  mkService (inquiryData s) (listeners s)
    (notified s ++ ((λ l, (l, data)) <$> listeners s)).

(** [OnMessage] takes the inquiry by reference and changes it: the model
    returns the inquiry as the call leaves it.  [OnMessage], [Publish] and
    [SubscribeUpdate] call each other; [None] is a call chain longer than the
    given number of nested calls of [OnMessage]. *)
Definition Call : Type := Inquiry → InquiryService → option (InquiryService * outcome Inquiry).

(** [InquiryConnector<T>::SubscribeUpdate]: send updated inquiry back to the
    service. *)
Definition SubscribeUpdate (service_OnMessage : Call) : Call := λ data s,
  service_OnMessage data s.

(** [InquiryConnector<T>::Publish]: transit the inquiry from RECEIVED to
    QUOTED and send it back to the service. *)
Definition Publish (service_OnMessage : Call) : Call := λ data s,
  if bool_decide (GetState data = RECEIVED) then
    let data := SetState QUOTED data in
    SubscribeUpdate service_OnMessage data s
  else Some (s, Ok data).

(** [InquiryService<T>::OnMessage].  [inquiryData[id] = data] on an absent
    [id] first default-constructs an [Inquiry<Bond>], hence a [Bond()], which
    builds its identifier from a null pointer: undefined. *)
Fixpoint OnMessage (depth : nat) : Call := λ data s,
  match depth with
  | O => None
  | S depth' =>
      let state := GetState data in
      let inquiryId := GetInquiryId data in
      let switched :=
        match state with
        | RECEIVED =>
            (* if inquiry is received, send back a quote to the connector *)
            Publish (OnMessage depth') data s
        | QUOTED =>
            (* finish the inquiry with DONE status *)
            let data := SetState DONE data in
            (* store the inquiry *)
            let erased (m : gmap string Inquiry) :=
              if bool_decide (is_Some (m !! inquiryId)) then delete inquiryId m else m in
            let s := set_inquiryData (λ m, map_insert inquiryId data (erased m)) s in
            (* notify listeners *)
            Some (notify data s, Ok data)
        | _ => Some (s, Ok data)
        end in
      match switched with
      | Some (s, Ok data) =>
          if bool_decide (GetState data = DONE) then
            (* if inquiry is done, remove it from the map *)
            let s := set_inquiryData (delete (GetInquiryId data)) s in
            Some (notify data s, Ok data)
          else
            (* otherwise, update the inquiry *)
            match inquiryData s !! GetInquiryId data with
            | Some _ =>
                let s := set_inquiryData (insert (GetInquiryId data) data) s in
                Some (notify data s, Ok data)
            | None => Some (s, Undefined)
            end
      | other => other
      end
  end.

(** [InquiryService<T>::SendQuote]: [inquiryData[inquiryId]] is a reference
    to the stored inquiry; on an absent identifier it default-constructs an
    [Inquiry<Bond>] first. *)
Definition SendQuote (inquiryId : string) (price : Qc) : M InquiryService unit := λ s,
  (* get the inquiry *)
  match inquiryData s !! inquiryId with
  | None => (s, Undefined)
  | Some inquiry =>
      (* update the inquiry *)
      let inquiry := SetPrice price inquiry in
      let s := set_inquiryData (insert inquiryId inquiry) s in
      (* notify listeners *)
      (notify inquiry s, Ok tt)
  end.

(** [InquiryService<T>::RejectInquiry]. *)
Definition RejectInquiry (inquiryId : string) : M InquiryService unit := λ s,
  match inquiryData s !! inquiryId with
  | None => (s, Undefined)
  | Some inquiry =>
      let inquiry := SetState REJECTED inquiry in
      (set_inquiryData (insert inquiryId inquiry) s, Ok tt)
  end.

(** The part of the loop body of [InquiryConnector<T>::Subscribe] that
    creates the inquiry from a line. *)
Definition read_record (line : string) : outcome Inquiry :=
  let tokens := split "," line in
  inquiryId ← at_index tokens 0;
  productId ← at_index tokens 1;
  product ← QueryProduct productId;
  token2 ← at_index tokens 2;
  let side := if bool_decide (token2 = "BUY") then TradeBooking.BUY else TradeBooking.SELL in
  quantity ← at_index tokens 3 ≫= stol;
  price ← at_index tokens 4 ≫= Frac2Price;
  token5 ← at_index tokens 5;
  let state :=
    if bool_decide (token5 = "RECEIVED") then RECEIVED
    else if bool_decide (token5 = "QUOTED") then QUOTED
    else if bool_decide (token5 = "DONE") then DONE
    else if bool_decide (token5 = "REJECTED") then REJECTED
    else CUSTOMER_REJECTED in
  Ok (mkInquiry inquiryId product side quantity price state).

(** [InquiryConnector<T>::Subscribe]: every line is a record, handed to
    [OnMessage] of the service. *)
Fixpoint Subscribe (depth : nat) (_datafile : list string) (s : InquiryService)
    : option (InquiryService * outcome unit) :=
  match _datafile with
  | [] => Some (s, Ok tt)
  | line :: _datafile' =>
      match read_record line with
      | Ok inquiry =>
          match OnMessage depth inquiry s with
          | Some (s', Ok _) => Subscribe depth _datafile' s'
          | Some (s', Throw e) => Some (s', Throw e)
          | Some (s', Undefined) => Some (s', Undefined)
          | None => None
          end
      | Throw e => Some (s, Throw e)
      | Undefined => Some (s, Undefined)
      end
  end.

End Inquiry.

Module Position.

Record Position : Type := mkPosition {
  GetProduct : Bond;
  bookPositionData : gmap string Z
}.

Record PositionService : Type := mkService {
  positionData : gmap string Position;
  listeners : list Listener;
  notified : list (Listener * Position)
}.

Definition GetData (key : string) : M PositionService Position := λ s,
  match positionData s !! key with
  | Some data => (s, Ok data)
  | None => (s, Throw (runtime_error "Key not found"))
  end.

Definition new : PositionService := mkService ∅ [] [].

Definition AddListener (listener : Listener) (s : PositionService) : PositionService :=
  mkService (positionData s) (listeners s ++ [listener]) (notified s).

(** [Position<T>::Position(const T&)]: no book yet. *)
Definition Position_ctor (product : Bond) : Position := mkPosition product ∅.

(** [Position<T>::GetPosition]: [bookPositionData[book]] creates the entry,
    with value 0, when the book is not there. *)
Definition GetPosition (book : string) (p : Position) : Position * Z :=
  match bookPositionData p !! book with
  | Some quantity => (p, quantity)
  | None => (mkPosition (GetProduct p) (<[book := 0]> (bookPositionData p)), 0)
  end.

(** [Position<T>::GetAggregatePosition]: the loop adds the quantities of the
    books to [sum], one book after the other. *)
Definition GetAggregatePosition (p : Position) : Z :=
  map_fold (λ (_ : string) quantity sum, wrap64 (sum + quantity)) 0 (bookPositionData p).

(** [Position<T>::AddPosition]. *)
Definition AddPosition (book : string) (position : Z) (p : Position) : Position :=
  match bookPositionData p !! book with
  | None => mkPosition (GetProduct p) (map_insert book position (bookPositionData p))
  | Some quantity =>
      mkPosition (GetProduct p) (<[book := wrap64 (quantity + position)]> (bookPositionData p))
  end.

(** [PositionService<T>::AddTrade].  The listeners are called with
    [positionData[productId]]. *)
Definition AddTrade (trade : TradeBooking.Trade) : M PositionService unit := λ s,
  let product := TradeBooking.GetProduct trade in
  let productId := GetProductId product in
  let book := TradeBooking.GetBook trade in
  let quantity :=
    if bool_decide (TradeBooking.GetSide trade = TradeBooking.BUY)
    then TradeBooking.GetQuantity trade
    else wrap64 (- TradeBooking.GetQuantity trade) in
  let positionData' :=
    match positionData s !! productId with
    | None =>
        let position := Position_ctor product in
        let position := AddPosition book quantity position in
        map_insert productId position (positionData s)
    | Some position =>
        <[productId := AddPosition book quantity position]> (positionData s)
    end in
  match listeners s, positionData' !! productId with
  | _ :: _, None => (mkService positionData' (listeners s) (notified s), Undefined)
  | _, Some position =>
      (mkService positionData' (listeners s)
         (notified s ++ ((λ l, (l, position)) <$> listeners s)), Ok tt)
  | [], None => (mkService positionData' (listeners s) (notified s), Ok tt)
  end.

(** [PositionServiceListener<T>::ProcessAdd], the callback registered on the
    trade booking service. *)
Definition ProcessAdd (data : TradeBooking.Trade) : M PositionService unit :=
  AddTrade data.

End Position.

(** ** The words of the specification on depth aggregation *)

Module Spec.

Import MarketData.

(** The sum of the quantities of the orders of a stack at a price. *)
Definition total_at (price : Qc) (stack : list Order) : Z :=
  foldr (λ order acc,
           (if bool_decide (GetPrice order = price) then GetQuantity order else 0) + acc)
        0 stack.

(** "One Order per distinct price whose quantity is the sum of the quantities
    at that price." *)
Definition is_aggregation_of (side : PricingSide) (stack aggregated : list Order) : Prop :=
  NoDup (GetPrice <$> aggregated) ∧
  ∀ order, order ∈ aggregated ↔
           GetPrice order ∈ GetPrice <$> stack ∧
           GetQuantity order = total_at (GetPrice order) stack ∧
           GetSide order = side.

(** The price/quantity pairs of a stack. *)
Definition price_quantity (stack : list Order) : list (Qc * Z) :=
  (λ order, (GetPrice order, GetQuantity order)) <$> stack.

(** The quantities are [long] values and so are their sums per price. *)
Definition sums_fit (stack : list Order) : Prop :=
  Forall (λ order, in_long (GetQuantity order)) stack ∧
  ∀ price, in_long (total_at price stack).

(** "Valid encoded string": an integer part in decimal digits, a dash, a
    two-digit 32nds part below 32 and a final character that is a digit from
    0 to 7 or '+'. *)
Definition valid_encoded (s : string) : Prop :=
  ∃ (ip : string) (d1 d2 c : ascii) (x1 x2 : Z),
    s = ip +:+ String "-" (String d1 (String d2 (String c ""))) ∧
    ip ≠ "" ∧ all_digits ip = true ∧
    digit_val d1 = Some x1 ∧ digit_val d2 = Some x2 ∧ 10 * x1 + x2 < 32 ∧
    (c = "+"%char ∨ ∃ z, digit_val c = Some z ∧ z ≤ 7).

(** The encoded strings that [Price2Frac] can produce: the integer part is
    what [to_string] prints for a non-negative [int], and four 256ths are
    written '+', never '4'. *)
Definition canonical_encoded (s : string) : Prop :=
  ∃ (I : Z) (d1 d2 c : ascii) (x1 x2 : Z),
    s = to_string I +:+ String "-" (String d1 (String d2 (String c ""))) ∧
    0 ≤ I ≤ INT_MAX ∧
    digit_val d1 = Some x1 ∧ digit_val d2 = Some x2 ∧ 10 * x1 + x2 < 32 ∧
    (c = "+"%char ∨ ∃ z, digit_val c = Some z ∧ z ≤ 7 ∧ z ≠ 4).

End Spec.

(** ** Positions, as sums over trades *)

Module Ledger.

(** The quantity of a trade, counted positive for a buy and negative for a
    sell. *)
Definition signed_quantity (trade : TradeBooking.Trade) : Z :=
  if bool_decide (TradeBooking.GetSide trade = TradeBooking.BUY)
  then TradeBooking.GetQuantity trade else - TradeBooking.GetQuantity trade.

(** The sum of the signed quantities of the trades of a product in a book,
    and in all books. *)
Definition net_book (productId book : string) (trades : list TradeBooking.Trade) : Z :=
  foldr (λ trade acc,
           (if bool_decide (GetProductId (TradeBooking.GetProduct trade) = productId
                            ∧ TradeBooking.GetBook trade = book)
            then signed_quantity trade else 0) + acc)
        0 trades.

Definition net_product (productId : string) (trades : list TradeBooking.Trade) : Z :=
  foldr (λ trade acc,
           (if bool_decide (GetProductId (TradeBooking.GetProduct trade) = productId)
            then signed_quantity trade else 0) + acc)
        0 trades.

(** What the position service holds for a product in a book; 0 when it holds
    nothing. *)
Definition book_position (s : Position.PositionService) (productId book : string) : Z :=
  match Position.positionData s !! productId with
  | Some p => default 0 (Position.bookPositionData p !! book)
  | None => 0
  end.

Definition aggregate_position (s : Position.PositionService) (productId : string) : Z :=
  match Position.positionData s !! productId with
  | Some p => Position.GetAggregatePosition p
  | None => 0
  end.

(** Every stored quantity is a [long] value. *)
Definition stored_long (s : Position.PositionService) : Prop :=
  ∀ productId p book quantity,
    Position.positionData s !! productId = Some p →
    Position.bookPositionData p !! book = Some quantity → in_long quantity.

(** The trades one after the other through [AddTrade]. *)
Definition add_trades (trades : list TradeBooking.Trade) (s : Position.PositionService)
    : Position.PositionService :=
  foldl (λ s trade, (Position.AddTrade trade s).1) s trades.

End Ledger.

(** ** Concrete inputs used in the examples below *)

Module Samples.

Import MarketData.

Definition US2Y : Bond :=
  mkBond "9128283H1" CUSIP "US2Y" (Q2Qc (175 # 10000)) (2019, 11, 30).

(** Best bid 99, best offer 99 + 1/128. *)
Definition tight_book : OrderBook :=
  mkOrderBook US2Y
    [ mkOrder (Q2Qc (99 # 1)) 1000000 BID; mkOrder (Q2Qc (25343 # 256)) 2000000 BID ]
    [ mkOrder (Q2Qc (25347 # 256)) 2000000 OFFER; mkOrder (Q2Qc (12673 # 128)) 3000000 OFFER ].

(** Best bid 99, best offer 100. *)
Definition wide_book : OrderBook :=
  mkOrderBook US2Y
    [ mkOrder (Q2Qc (99 # 1)) 1000000 BID ]
    [ mkOrder (Q2Qc (100 # 1)) 1000000 OFFER ].


Definition unassigned : AlgoExecution.Unassigned :=
  AlgoExecution.mkUnassigned OFFER (Q2Qc (0 # 1)) 0.

(** Two order book records for the same instrument, with no price in common
    on either side. *)
Definition book_header : string :=
  "Timestamp,CUSIP,Bid1,BidSize1,Ask1,AskSize1,Bid2,BidSize2,Ask2,AskSize2,Bid3,BidSize3,Ask3,AskSize3,Bid4,BidSize4,Ask4,AskSize4,Bid5,BidSize5,Ask5,AskSize5".
Definition book_record1 : string :=
  "2024-01-01-09:30:00.000,9128283H1,99-000,100,99-010,100,98-310,200,99-020,200,98-300,300,99-030,300,98-290,400,99-040,400,98-280,500,99-050,500".
Definition book_record2 : string :=
  "2024-01-01-09:30:00.010,9128283H1,100-000,100,100-010,100,99-310,200,100-020,200,99-300,300,100-030,300,99-290,400,100-040,400,99-280,500,100-050,500".

(** Trade records: well formed, with a seventh field, with a quantity that
    is not a number. *)
Definition trade_record1 : string := "9128283H1,T0000000001A,99-160,TRSY1,1000000,BUY".
Definition trade_record2 : string := "9128283L2,T0000000002B,100-08+,TRSY2,2000000,SELL".
Definition trade_record_extra : string :=
  "9128283H1,T0000000003C,99-160,TRSY1,1000000,BUY,unexpected".
Definition trade_record_bad : string := "912828M80,T0000000004D,99-160,TRSY3,many,BUY".

(** Price records, as written by [genOrderBook] with the spread as a fifth
    field, and one with a price that has no dash. *)
Definition price_header : string := "Timestamp,CUSIP,Bid,Ask".
Definition price_record1 : string :=
  "2024-01-01-09:30:00.000,9128283H1,99-160,99-200,0.0125".
Definition price_record2 : string :=
  "2024-01-01-09:30:00.010,9128283L2,99-16+,99-202,0.0117".
Definition price_record3 : string :=
  "2024-01-01-09:30:00.020,9128283H1,99-180,99-190,0.0039".
Definition price_record_bad : string :=
  "2024-01-01-09:30:00.020,9128283H1,99160,99-200".

(** The trades of the position example of the specification. *)
Definition position_trades : list TradeBooking.Trade :=
  [ TradeBooking.mkTrade US2Y "T1" (Q2Qc (99 # 1)) "A" 100 TradeBooking.BUY;
    TradeBooking.mkTrade US2Y "T2" (Q2Qc (99 # 1)) "B" 40 TradeBooking.SELL;
    TradeBooking.mkTrade US2Y "T3" (Q2Qc (99 # 1)) "A" 10 TradeBooking.BUY ].

(** Inquiry records, as [genInquiries] writes them. *)
Definition inquiry_record1 : string := "I0000000001A,9128283H1,BUY,1000000,99-160,RECEIVED".
Definition inquiry_record2 : string := "I0000000002B,9128283L2,SELL,2000000,100-08+,RECEIVED".

Definition sample_inquiry : Inquiry.Inquiry :=
  Inquiry.mkInquiry "I0000000001A" US2Y TradeBooking.BUY 1000000 (Q2Qc (199 # 2))
    Inquiry.RECEIVED.

Definition sample_order : AlgoExecution.ExecutionOrder :=
  AlgoExecution.mkExecutionOrder US2Y BID "AlgoABCDEFGHIJK" AlgoExecution.MARKET
    (Q2Qc (99 # 1)) 1000000 0 "AlgoParentABCDE" false.

End Samples.

(** * Properties *)

(** ** The runtime model *)

Lemma bind_ok {S A B} (m : M S A) (f : A → M S B) s s' a :
  m s = (s', Ok a) → Cxx.bind m f s = f a s'.
Proof. unfold Cxx.bind. by intros ->. Qed.

Lemma bind_throw {S A B} (m : M S A) (f : A → M S B) s s' e :
  m s = (s', Throw e) → Cxx.bind m f s = (s', Throw e).
Proof. unfold Cxx.bind. by intros ->. Qed.

Lemma bind_undefined {S A B} (m : M S A) (f : A → M S B) s s' :
  m s = (s', Undefined) → Cxx.bind m f s = (s', Undefined).
Proof. unfold Cxx.bind. by intros ->. Qed.

Section loops.

Context {S A : Type} (body : A → M S unit).

Lemma for_each_app l1 l2 s s1 :
  for_each body l1 s = (s1, Ok tt) →
  for_each body (l1 ++ l2) s = for_each body l2 s1.
Proof.
  revert s. induction l1 as [|x l1 IH]; intros s; simpl.
  - unfold Cxx.ret. by intros [= ->].
  - unfold Cxx.bind. destruct (body x s) as [s0 [[]| |]]; [|done..].
    apply IH.
Qed.

(** A loop stops at the first iteration that throws; the iterations after
    it are not run. *)
Lemma for_each_throw x l s s' e :
  body x s = (s', Throw e) → for_each body (x :: l) s = (s', Throw e).
Proof. intros Hx. simpl. by rewrite (bind_throw _ _ _ _ _ Hx). Qed.

End loops.

Lemma map_insert_erased {V} (key : string) (v : V) (m : gmap string V) :
  map_insert key v (if bool_decide (is_Some (m !! key)) then delete key m else m)
  = <[key := v]> m.
Proof.
  unfold map_insert. case_bool_decide as Hk.
  - rewrite lookup_delete_eq. by rewrite insert_delete_eq.
  - apply eq_None_not_Some in Hk. by rewrite Hk.
Qed.

Lemma trunc_of_Z (z : Z) : trunc (Qc_of_Z z) = z.
Proof.
  unfold trunc, Qc_of_Z. simpl.
  case_bool_decide; [apply Qfloor_Z | apply Qceiling_Z].
Qed.

Lemma round_to_binary64_exact (z : Z) : exact_as_double z → round_to_binary64 z = z.
Proof.
  unfold exact_as_double, round_to_binary64. intros Hz.
  case_bool_decide as Hsmall; [done|].
  assert (z = 2 ^ 53 ∨ z = - 2 ^ 53) as [-> | ->] by lia; reflexivity.
Qed.

Lemma double_long_roundtrip (z : Z) :
  exact_as_double z → double_to_long (long_to_double z) = z.
Proof.
  intros Hz. unfold double_to_long, long_to_double.
  by rewrite trunc_of_Z, round_to_binary64_exact.
Qed.

(** ** Best bid and offer *)

Section best_bid_offer.

Import MarketData.

Lemma foldl_largest (l : list Order) (x : Order) :
  let r := foldl (λ largest y, if price_less largest y then y else largest) x l in
  r ∈ x :: l ∧ (GetPrice x ≤ GetPrice r)%Qc ∧
  ∀ y, y ∈ l → (GetPrice y ≤ GetPrice r)%Qc.
Proof.
  revert x. induction l as [|a l IH]; intros x; simpl.
  - split; [left|]. split; [apply Qcle_refl|]. intros y Hy. by inversion Hy.
  - unfold price_less at 2 4 6. case_bool_decide as Hlt.
    + destruct (IH a) as (Hin & Hle & Hall).
      split; [by right|]. split.
      * eapply Qcle_trans; [by apply Qclt_le_weak|done].
      * intros y [->|Hy]%elem_of_cons; auto.
    + destruct (IH x) as (Hin & Hle & Hall).
      split; [|split; [done|]].
      * apply elem_of_cons in Hin as [->|Hin]; [left|by do 2 right].
      * intros y [->|Hy]%elem_of_cons; auto.
        eapply Qcle_trans; [|done]. by apply Qcnot_lt_le.
Qed.

Lemma foldl_smallest (l : list Order) (x : Order) :
  let r := foldl (λ smallest y, if price_less y smallest then y else smallest) x l in
  r ∈ x :: l ∧ (GetPrice r ≤ GetPrice x)%Qc ∧
  ∀ y, y ∈ l → (GetPrice r ≤ GetPrice y)%Qc.
Proof.
  revert x. induction l as [|a l IH]; intros x; simpl.
  - split; [left|]. split; [apply Qcle_refl|]. intros y Hy. by inversion Hy.
  - unfold price_less at 2 4 6. case_bool_decide as Hlt.
    + destruct (IH a) as (Hin & Hle & Hall).
      split; [by right|]. split.
      * eapply Qcle_trans; [done|by apply Qclt_le_weak].
      * intros y [->|Hy]%elem_of_cons; auto.
    + destruct (IH x) as (Hin & Hle & Hall).
      split; [|split; [done|]].
      * apply elem_of_cons in Hin as [->|Hin]; [left|by do 2 right].
      * intros y [->|Hy]%elem_of_cons; auto.
        eapply Qcle_trans; [done|]. by apply Qcnot_lt_le.
Qed.

Lemma max_element_spec (l : list Order) (x : Order) :
  max_element price_less l = Some x →
  x ∈ l ∧ ∀ y, y ∈ l → (GetPrice y ≤ GetPrice x)%Qc.
Proof.
  destruct l as [|a l]; [done|]. simpl. intros [= <-].
  destruct (foldl_largest l a) as (Hin & Hle & Hall).
  split; [done|]. intros y [->|Hy]%elem_of_cons; auto.
Qed.

Lemma min_element_spec (l : list Order) (x : Order) :
  min_element price_less l = Some x →
  x ∈ l ∧ ∀ y, y ∈ l → (GetPrice x ≤ GetPrice y)%Qc.
Proof.
  destruct l as [|a l]; [done|]. simpl. intros [= <-].
  destruct (foldl_smallest l a) as (Hin & Hle & Hall).
  split; [done|]. intros y [->|Hy]%elem_of_cons; auto.
Qed.

Lemma BestBidOffer_empty (book : OrderBook) :
  GetBidStack book = [] ∨ GetOfferStack book = [] →
  BestBidOffer book = Undefined.
Proof.
  unfold BestBidOffer. intros [-> | ->]; simpl; [done|].
  by destruct (max_element _ _).
Qed.


End best_bid_offer.

Section best_bid_offer_claims.

Import MarketData.

(** C7.  On an order book whose two stacks are not empty, [BestBidOffer]
    returns a bid order of the bid stack whose price is greater than or equal
    to the price of every order of that stack, and an offer order of the offer
    stack whose price is less than or equal to the price of every order of
    that stack. *)
Theorem C7_best_bid_offer_extremal (book : OrderBook) :
  GetBidStack book ≠ [] → GetOfferStack book ≠ [] →
  ∃ bidOffer, BestBidOffer book = Ok bidOffer ∧
    (GetBidOrder bidOffer ∈ GetBidStack book ∧
     ∀ o, o ∈ GetBidStack book → (GetPrice o ≤ GetPrice (GetBidOrder bidOffer))%Qc) ∧
    (GetOfferOrder bidOffer ∈ GetOfferStack book ∧
     ∀ o, o ∈ GetOfferStack book → (GetPrice (GetOfferOrder bidOffer) ≤ GetPrice o)%Qc).
Proof.
  intros Hbid Hoffer. unfold BestBidOffer.
  destruct (max_element price_less (GetBidStack book)) as [bid|] eqn:Hmax;
    [|by destruct (GetBidStack book)].
  destruct (min_element price_less (GetOfferStack book)) as [offer|] eqn:Hmin;
    [|by destruct (GetOfferStack book)].
  exists (mkBidOffer bid offer). split; [done|]. simpl.
  split; [by apply max_element_spec | by apply min_element_spec].
Qed.

Lemma C7_best_bid_offer_extremal_witness :
  GetBidStack Samples.tight_book ≠ [] ∧ GetOfferStack Samples.tight_book ≠ [] ∧
  ∃ bidOffer, BestBidOffer Samples.tight_book = Ok bidOffer ∧
    (GetBidOrder bidOffer ∈ GetBidStack Samples.tight_book ∧
     ∀ o, o ∈ GetBidStack Samples.tight_book →
          (GetPrice o ≤ GetPrice (GetBidOrder bidOffer))%Qc) ∧
    (GetOfferOrder bidOffer ∈ GetOfferStack Samples.tight_book ∧
     ∀ o, o ∈ GetOfferStack Samples.tight_book →
          (GetPrice (GetOfferOrder bidOffer) ≤ GetPrice o)%Qc).
Proof.
  split; [discriminate|]. split; [discriminate|].
  apply (C7_best_bid_offer_extremal Samples.tight_book); discriminate.
Defined.

(** C3 (the code at the failing input).  The book that [GetData] creates for
    an instrument seen for the first time has empty stacks; [BestBidOffer] on
    it dereferences [end()]: the behaviour is undefined, and no error of any
    kind is thrown. *)
Theorem C3_empty_book_is_undefined :
  ∃ s book,
    GetData "9128283H1" new = (s, Ok book) ∧
    GetBidStack book = [] ∧ GetOfferStack book = [] ∧
    BestBidOffer book = Undefined ∧
    ∀ e, BestBidOffer book ≠ Throw e.
Proof.
  eexists _, _. split; [vm_compute; reflexivity|].
  split; [done|]. split; [done|]. split; [done|]. by intros e.
Qed.

End best_bid_offer_claims.

(** ** The execution decision *)

Section algo_execution.

Import MarketData AlgoExecution.



(** What one call of [AlgoExecuteOrder] does to the service, whatever the
    spread: the counter advances, an algo execution is stored under the
    product identifier, and every listener is notified with it. *)
Lemma AlgoExecuteOrder_ok rnd11 rnd5 unassigned book bidOffer s :
  BestBidOffer book = Ok bidOffer →
  AlgoExecuteOrder rnd11 rnd5 unassigned book s =
    (let e := create_execution (MarketData.GetProduct book) ("Algo" +:+ rnd11)
                ("AlgoParent" +:+ rnd5) (select_order (count s) unassigned bidOffer) in
     mkService (<[GetProductId (MarketData.GetProduct book) := e]> (algoExecutionData s))
       (listeners s) (wrap64 (count s + 1))
       (notified s ++ ((λ l, (l, e)) <$> listeners s)),
     Ok tt).
Proof.
  intros Hbest. unfold AlgoExecuteOrder, Cxx.bind, lift, gets, modify.
  rewrite Hbest. simpl. by rewrite map_insert_erased.
Qed.


End algo_execution.

Section algo_execution_claims.

Import MarketData AlgoExecution.


Lemma select_order_wide cnt unassigned bidOffer :
  ¬ tight bidOffer →
  select_order cnt unassigned bidOffer =
    (unassigned_side unassigned, unassigned_price unassigned, unassigned_quantity unassigned).
Proof. intros Hwide. unfold select_order. by rewrite bool_decide_eq_false_2. Qed.

(** C1 (the code at the failing input).  On a book with best bid 99 and best
    offer 100 the spread is 1, wider than 1/128; [AlgoExecuteOrder] still
    returns normally, stores an algo execution under the product identifier
    and notifies the registered listener with it.  The side, price and
    quantity of that execution order are whatever the unassigned locals
    held, the quantity as the [double] parameter of the constructor of
    [ExecutionOrder] keeps it. *)
Theorem C1_wide_spread_still_emits rnd11 rnd5 unassigned :
  ∃ bidOffer s e,
    BestBidOffer Samples.wide_book = Ok bidOffer ∧ ¬ tight bidOffer ∧
    AlgoExecuteOrder rnd11 rnd5 unassigned Samples.wide_book (AddListener 7%nat new) = (s, Ok tt) ∧
    algoExecutionData s !! "9128283H1" = Some e ∧
    notified s = [(7%nat, e)] ∧
    AlgoExecution.GetSide (GetExecutionOrder e) = unassigned_side unassigned ∧
    AlgoExecution.GetPrice (GetExecutionOrder e) = unassigned_price unassigned ∧
    (exact_as_double (unassigned_quantity unassigned) →
     GetVisibleQuantity (GetExecutionOrder e) = unassigned_quantity unassigned).
Proof.
  destruct (BestBidOffer Samples.wide_book) as [bidOffer| |] eqn:Hbest; [|done..].
  assert (¬ tight bidOffer) as Hwide.
  { injection Hbest as <-. by apply (bool_decide_eq_false_1 (tight _)). }
  eexists bidOffer, _, _. split; [done|]. split; [done|].
  split; [by apply AlgoExecuteOrder_ok|]. simpl.
  split; [apply lookup_insert_eq|]. split; [done|].
  rewrite select_order_wide by done. simpl.
  split; [done|]. split; [done|]. apply double_long_roundtrip.
Qed.





(** The counter advances on every call, also on a call that does not pass
    the spread test: with such a call in between, two calls that pass it are
    on the same side. *)
Lemma alternation_counts_every_call :
  ∃ s1 s2 s3 e1 e3,
    AlgoExecuteOrder "0123456789A" "BCDEF" Samples.unassigned Samples.tight_book new
    = (s1, Ok tt) ∧
    AlgoExecuteOrder "123456789AB" "CDEFG" Samples.unassigned Samples.wide_book s1
    = (s2, Ok tt) ∧
    AlgoExecuteOrder "23456789ABC" "DEFGH" Samples.unassigned Samples.tight_book s2
    = (s3, Ok tt) ∧
    count s1 = 1 ∧ count s2 = 2 ∧ count s3 = 3 ∧
    algoExecutionData s1 !! "9128283H1" = Some e1 ∧
    algoExecutionData s3 !! "9128283H1" = Some e3 ∧
    AlgoExecution.GetSide (GetExecutionOrder e1) = BID ∧
    AlgoExecution.GetSide (GetExecutionOrder e3) = BID.
Proof.
  eexists _, _, _, _, _.
  split; [vm_compute; reflexivity|]. split; [vm_compute; reflexivity|].
  split; [vm_compute; reflexivity|]. repeat split; vm_compute; reflexivity.
Qed.

End algo_execution_claims.

(** ** Keyed lookup *)

Section keyed_lookup.

(** C5 (counterexample).  The market data service has no book for
    "9128283H1"; [GetData] does not fail: it returns a book with empty stacks
    and the store holds that book afterwards. *)
Lemma C5_counterexample :
  MarketData.orderBookMap MarketData.new !! "9128283H1" = None ∧
  ∃ s book,
    MarketData.GetData "9128283H1" MarketData.new = (s, Ok book) ∧
    book = MarketData.mkOrderBook Samples.US2Y [] [] ∧
    MarketData.orderBookMap s !! "9128283H1" = Some book.
Proof.
  split; [done|]. eexists _, _.
  split; [vm_compute; reflexivity|]. split; [reflexivity|].
  vm_compute. reflexivity.
Qed.

(** C5 (amended).  For a key absent from the store, [GetData] of the
    pricing, trade booking, algo execution, inquiry and position services
    throws [runtime_error("Key not found")] and leaves the service as it was.
    [GetData] of the market data service instead stores and returns a book
    with empty stacks when the key is a known product identifier, and lets
    the [invalid_argument] of [QueryProduct] through, without storing
    anything, when it is not. *)
Theorem C5_GetData_absent_key (key : string) :
  (∀ s, Pricing.priceData s !! key = None →
        Pricing.GetData key s = (s, Throw (runtime_error "Key not found"))) ∧
  (∀ s, TradeBooking.tradeData s !! key = None →
        TradeBooking.GetData key s = (s, Throw (runtime_error "Key not found"))) ∧
  (∀ s, AlgoExecution.algoExecutionData s !! key = None →
        AlgoExecution.GetData key s = (s, Throw (runtime_error "Key not found"))) ∧
  (∀ s, Inquiry.inquiryData s !! key = None →
        Inquiry.GetData key s = (s, Throw (runtime_error "Key not found"))) ∧
  (∀ s, Position.positionData s !! key = None →
        Position.GetData key s = (s, Throw (runtime_error "Key not found"))) ∧
  (∀ s, MarketData.orderBookMap s !! key = None →
        match QueryProduct key with
        | Ok product =>
            let book := MarketData.mkOrderBook product [] [] in
            MarketData.GetData key s
            = (MarketData.set_orderBookMap (insert key book) s, Ok book)
        | Throw e =>
            e = invalid_argument ("Unknown CUSIP: " +:+ key) ∧
            MarketData.GetData key s = (s, Throw e)
        | Undefined => False
        end).
Proof.
  repeat split.
  - intros s Hs. unfold Pricing.GetData. by rewrite Hs.
  - intros s Hs. unfold TradeBooking.GetData. by rewrite Hs.
  - intros s Hs. unfold AlgoExecution.GetData. by rewrite Hs.
  - intros s Hs. unfold Inquiry.GetData. by rewrite Hs.
  - intros s Hs. unfold Position.GetData. by rewrite Hs.
  - intros s Hs. unfold MarketData.GetData. rewrite Hs.
    unfold QueryProduct.
    destruct (list_to_map productConstructors !! key) as [product|]; [|done].
    unfold MarketData.set_orderBookMap, map_insert. by rewrite Hs.
Qed.

Lemma C5_GetData_absent_key_witness :
  Pricing.priceData Pricing.new !! "9128283H1" = None ∧
  Pricing.GetData "9128283H1" Pricing.new
  = (Pricing.new, Throw (runtime_error "Key not found")) ∧
  TradeBooking.tradeData TradeBooking.new !! "T0000000001A" = None ∧
  TradeBooking.GetData "T0000000001A" TradeBooking.new
  = (TradeBooking.new, Throw (runtime_error "Key not found")).
Proof.
  split; [reflexivity|]. split.
  - apply (C5_GetData_absent_key "9128283H1"). reflexivity.
  - split; [reflexivity|].
    apply (C5_GetData_absent_key "T0000000001A"). reflexivity.
Defined.

End keyed_lookup.

(** ** Trade booking *)

Section trade_booking.

Import TradeBooking.

Lemma BookTrade_spec (trade : Trade) (s : TradeBookingService) :
  BookTrade trade s
  = (mkService (tradeData s) (listeners s)
       (notified s ++ ((λ l, (l, trade)) <$> listeners s)), Ok tt).
Proof. reflexivity. Qed.

Lemma OnMessage_stores (trade : Trade) (s : TradeBookingService) :
  tradeData (OnMessage trade s).1 = <[GetTradeId trade := trade]> (tradeData s).
Proof.
  unfold OnMessage. simpl. case_bool_decide as Hk; [done|].
  apply eq_None_not_Some in Hk. unfold map_insert. by rewrite Hk.
Qed.

(** C10.  [BookTrade] calls [ProcessAdd] of every registered listener with
    the trade, in registration order, and does not touch the trade store; so
    after [ProcessAdd] of the execution listener the store is what it was
    before, and a trade identifier that was absent still makes [GetData]
    throw.  [OnMessage], in contrast, stores the trade under its identifier. *)
Theorem C10_BookTrade_leaves_store (trade : Trade) (s : TradeBookingService)
    (order : AlgoExecution.ExecutionOrder) (l : TradeBookingServiceListener) :
  (∃ s', BookTrade trade s = (s', Ok tt) ∧
         tradeData s' = tradeData s ∧ listeners s' = listeners s ∧
         notified s' = notified s ++ ((λ l, (l, trade)) <$> listeners s)) ∧
  (∃ l' booked, ProcessAdd order l = (l', Ok tt) ∧
         GetTradeId booked = AlgoExecution.GetOrderId order ∧
         tradeData (service l') = tradeData (service l) ∧
         notified (service l')
         = notified (service l) ++ ((λ x, (x, booked)) <$> listeners (service l)) ∧
         ∀ key, tradeData (service l) !! key = None →
                GetData key (service l')
                = (service l', Throw (runtime_error "Key not found"))) ∧
  tradeData (OnMessage trade s).1 !! GetTradeId trade = Some trade.
Proof.
  split; [|split].
  - eexists. by rewrite BookTrade_spec.
  - unfold ProcessAdd. rewrite BookTrade_spec.
    eexists _, _. split; [reflexivity|]. simpl.
    split; last first.
    { split; [reflexivity|]. split; [reflexivity|].
      intros key Hkey. unfold GetData. simpl. by rewrite Hkey. }
    reflexivity.
  - rewrite OnMessage_stores. apply lookup_insert_eq.
Qed.

Lemma C10_BookTrade_leaves_store_witness :
  tradeData (service (new_listener (AddListener 3%nat new))) !! "AlgoABCDEFGHIJK" = None ∧
  ∃ l', ProcessAdd Samples.sample_order (new_listener (AddListener 3%nat new)) = (l', Ok tt) ∧
        length (notified (service l')) = 1%nat ∧
        GetData "AlgoABCDEFGHIJK" (service l')
        = (service l', Throw (runtime_error "Key not found")).
Proof.
  split; [reflexivity|].
  destruct (C10_BookTrade_leaves_store
              (mkTrade Samples.US2Y "T" (Q2Qc (99 # 1)) "TRSY1" 1 BUY) new
              Samples.sample_order (new_listener (AddListener 3%nat new)))
    as (_ & (l' & booked & Hrun & _ & _ & Hnote & Habsent) & _).
  exists l'. split; [exact Hrun|]. split.
  - rewrite Hnote. reflexivity.
  - apply Habsent. reflexivity.
Defined.

End trade_booking.

(** ** Inbound connectors *)

Section subscribe_loop.

(** The loops of the pricing and trade booking connectors have the same
    shape: convert the line, then hand the record to [OnMessage], which does
    not fail. *)
Context {S R : Type} (read : string → outcome R) (on : R → S → S).

Let step (line : string) : M S unit :=
  let* record := lift (read line) in λ s, (on record s, Ok tt).

Lemma read_loop_ok (lines : list string) (records : list R) (s : S) :
  Forall2 (λ line record, read line = Ok record) lines records →
  for_each step lines s = (foldl (λ s record, on record s) s records, Ok tt).
Proof.
  intros Hall. revert s. induction Hall as [|line record lines records Hread _ IH];
    intros s; [done|].
  simpl. unfold step at 1, Cxx.bind at 1, lift. rewrite Hread. simpl.
  apply IH.
Qed.

Lemma read_loop_throw (pre post : list string) (bad : string) (records : list R)
    (e : exception) (s : S) :
  Forall2 (λ line record, read line = Ok record) pre records →
  read bad = Throw e →
  for_each step (pre ++ bad :: post) s
  = (foldl (λ s record, on record s) s records, Throw e).
Proof.
  intros Hpre Hbad.
  rewrite (for_each_app _ _ _ _ _ (read_loop_ok _ _ s Hpre)).
  apply for_each_throw. unfold step, Cxx.bind, lift. by rewrite Hbad.
Qed.

End subscribe_loop.

Lemma at_index_take {A} (n i : nat) (v : list A) :
  (i < n)%nat → at_index (take n v) i = at_index v i.
Proof. intros Hi. unfold at_index. by rewrite lookup_take_lt. Qed.

Section subscribe.

Lemma trade_fold_notified (trades : list TradeBooking.Trade) (s : TradeBooking.TradeBookingService) :
  let s' := foldl (λ s t, (TradeBooking.OnMessage t s).1) s trades in
  TradeBooking.listeners s' = TradeBooking.listeners s ∧
  TradeBooking.notified s'
  = TradeBooking.notified s
    ++ (trades ≫= λ t, (λ l, (l, t)) <$> TradeBooking.listeners s).
Proof.
  revert s. induction trades as [|t trades IH]; intros s; simpl.
  - by rewrite app_nil_r.
  - destruct (IH (TradeBooking.OnMessage t s).1) as [Hl Hn]. simpl in Hl, Hn.
    split; [done|]. rewrite Hn. simpl. by rewrite <- app_assoc.
Qed.

Lemma price_fold_notified (prices : list Pricing.Price) (s : Pricing.PricingService) :
  let s' := foldl (λ s p, (Pricing.OnMessage p s).1) s prices in
  Pricing.listeners s' = Pricing.listeners s ∧
  Pricing.notified s'
  = Pricing.notified s ++ (prices ≫= λ p, (λ l, (l, p)) <$> Pricing.listeners s).
Proof.
  revert s. induction prices as [|p prices IH]; intros s; simpl.
  - by rewrite app_nil_r.
  - destruct (IH (Pricing.OnMessage p s).1) as [Hl Hn]. simpl in Hl, Hn.
    split; [done|]. rewrite Hn. simpl. by rewrite <- app_assoc.
Qed.

Lemma trade_read_record_fields (line line' : string) :
  take 6 (split "," line) = take 6 (split "," line') →
  TradeBooking.read_record line = TradeBooking.read_record line'.
Proof.
  intros Heq. unfold TradeBooking.read_record.
  rewrite <- !(at_index_take 6 _ (split "," line)) by lia.
  rewrite <- !(at_index_take 6 _ (split "," line')) by lia.
  by rewrite Heq.
Qed.

Lemma price_read_record_fields (line line' : string) :
  take 4 (split "," line) = take 4 (split "," line') →
  Pricing.read_record line = Pricing.read_record line'.
Proof.
  intros Heq. unfold Pricing.read_record.
  rewrite <- !(at_index_take 4 _ (split "," line)) by lia.
  rewrite <- !(at_index_take 4 _ (split "," line')) by lia.
  by rewrite Heq.
Qed.

(** C9 (counterexample).  A trade record with seven fields is not rejected:
    [Subscribe] returns normally, and both that record and the record after
    it are in the store. *)
Lemma C9_counterexample :
  length (split "," Samples.trade_record_extra) = 7%nat ∧
  ∃ s, TradeBooking.Subscribe [Samples.trade_record_extra; Samples.trade_record2]
         TradeBooking.new = (s, Ok tt) ∧
       is_Some (TradeBooking.tradeData s !! "T0000000003C") ∧
       is_Some (TradeBooking.tradeData s !! "T0000000002B").
Proof.
  split; [reflexivity|]. eexists. split; [vm_compute; reflexivity|].
  split; apply (bool_decide_unpack _); vm_compute; exact I.
Qed.

(** C9 (amended).  When every record before [bad] converts and the
    conversion of [bad] throws [e] (a price without dash or whose fractional
    part has not three characters, a number without digits, an unknown
    product identifier), [Subscribe] of the trade booking connector and of
    the pricing connector throws [e], is left with the service exactly as
    [OnMessage] on the records before [bad], in order, made it -- store and
    notifications -- and does not depend on the records after [bad].  Only the
    first six (four) fields of a trade (price) record are read: further fields
    are not an error. *)
Theorem C9_subscribe_fail_stop (pre post : list string) (bad : string) (e : exception) :
  (∀ trades s,
     Forall2 (λ line t, TradeBooking.read_record line = Ok t) pre trades →
     TradeBooking.read_record bad = Throw e →
     let s1 := foldl (λ s t, (TradeBooking.OnMessage t s).1) s trades in
     TradeBooking.Subscribe pre s = (s1, Ok tt) ∧
     TradeBooking.Subscribe (pre ++ bad :: post) s = (s1, Throw e) ∧
     TradeBooking.notified s1
     = TradeBooking.notified s
       ++ (trades ≫= λ t, (λ l, (l, t)) <$> TradeBooking.listeners s)) ∧
  (∀ header prices s,
     Forall2 (λ line p, Pricing.read_record line = Ok p) pre prices →
     Pricing.read_record bad = Throw e →
     let s1 := foldl (λ s p, (Pricing.OnMessage p s).1) s prices in
     Pricing.Subscribe (header :: pre) s = (s1, Ok tt) ∧
     Pricing.Subscribe (header :: pre ++ bad :: post) s = (s1, Throw e) ∧
     Pricing.notified s1
     = Pricing.notified s ++ (prices ≫= λ p, (λ l, (l, p)) <$> Pricing.listeners s)) ∧
  (∀ line line',
     (take 6 (split "," line) = take 6 (split "," line') →
      TradeBooking.read_record line = TradeBooking.read_record line') ∧
     (take 4 (split "," line) = take 4 (split "," line') →
      Pricing.read_record line = Pricing.read_record line')).
Proof.
  split; [|split].
  - intros trades s Hpre Hbad. cbv zeta. unfold TradeBooking.Subscribe.
    split; [|split].
    + apply (read_loop_ok TradeBooking.read_record
               (λ t s, (TradeBooking.OnMessage t s).1)). done.
    + apply (read_loop_throw TradeBooking.read_record
               (λ t s, (TradeBooking.OnMessage t s).1)); done.
    + apply trade_fold_notified.
  - intros header prices s Hpre Hbad. cbv zeta. unfold Pricing.Subscribe. simpl tail.
    split; [|split].
    + apply (read_loop_ok Pricing.read_record (λ p s, (Pricing.OnMessage p s).1)). done.
    + apply (read_loop_throw Pricing.read_record
               (λ p s, (Pricing.OnMessage p s).1)); done.
    + apply price_fold_notified.
  - intros line line'.
    split; [apply trade_read_record_fields | apply price_read_record_fields].
Qed.

End subscribe.

Section subscribe_examples.

Import TradeBooking.

Lemma C9_subscribe_fail_stop_witness :
  read_record Samples.trade_record_bad = Throw (invalid_argument "stol") ∧
  ∃ t s1,
    read_record Samples.trade_record1 = Ok t ∧
    Subscribe [Samples.trade_record1; Samples.trade_record_bad; Samples.trade_record2]
      (AddListener 3%nat new) = (s1, Throw (invalid_argument "stol")) ∧
    is_Some (tradeData s1 !! "T0000000001A") ∧
    tradeData s1 !! "T0000000002B" = None ∧
    notified s1 = [(3%nat, t)].
Proof.
  assert (read_record Samples.trade_record_bad = Throw (invalid_argument "stol")) as Hbad.
  { vm_compute. reflexivity. }
  split; [exact Hbad|].
  destruct (read_record Samples.trade_record1) as [t| |] eqn:Ht;
    [|vm_compute in Ht; discriminate..].
  destruct (C9_subscribe_fail_stop [Samples.trade_record1] [Samples.trade_record2]
              Samples.trade_record_bad (invalid_argument "stol")) as (Htrades & _ & _).
  destruct (Htrades [t] (AddListener 3%nat new)) as (_ & Hrun & Hnote).
  { repeat constructor. exact Ht. }
  { exact Hbad. }
  exists t, (foldl (λ s t, (OnMessage t s).1) (AddListener 3%nat new) [t]).
  split; [reflexivity|]. split; [exact Hrun|].
  vm_compute in Ht. injection Ht as <-.
  split; [|split].
  - apply (bool_decide_unpack _). vm_compute. exact I.
  - vm_compute. reflexivity.
  - exact Hnote.
Defined.

End subscribe_examples.

(** ** Order book updates *)

Section order_book_update.

Import MarketData.

(** C2 (the code at the failing input).  Two records for the same instrument
    with no bid price and no offer price in common are processed.  Afterwards
    the stored book has ten bids and ten offers, not the five of the second
    record: the bid at 99 for 100 and the offer at 99 1/32 for 100 of the
    first record are still there.  When the same record is processed twice,
    the stored sizes are twice the sizes of the record. *)
Theorem C2_update_accumulates :
  (∃ s book,
     Subscribe [Samples.book_header; Samples.book_record1; Samples.book_record2]
       (AddListener 7%nat new) = (s, Ok tt) ∧
     orderBookMap s !! "9128283H1" = Some book ∧
     length (GetBidStack book) = 10%nat ∧ length (GetOfferStack book) = 10%nat ∧
     mkOrder (Q2Qc (99 # 1)) 100 BID ∈ GetBidStack book ∧
     mkOrder (Q2Qc (3169 # 32)) 100 OFFER ∈ GetOfferStack book) ∧
  (∃ s book,
     Subscribe [Samples.book_header; Samples.book_record1; Samples.book_record1]
       (AddListener 7%nat new) = (s, Ok tt) ∧
     orderBookMap s !! "9128283H1" = Some book ∧
     length (GetBidStack book) = 5%nat ∧
     mkOrder (Q2Qc (99 # 1)) 200 BID ∈ GetBidStack book).
Proof.
  split.
  - eexists _, _. split; [vm_compute; reflexivity|].
    split; [vm_compute; reflexivity|].
    split; [reflexivity|]. split; [reflexivity|].
    split; apply (bool_decide_unpack _); vm_compute; exact I.
  - eexists _, _. split; [vm_compute; reflexivity|].
    split; [vm_compute; reflexivity|].
    split; [reflexivity|].
    apply (bool_decide_unpack _); vm_compute; exact I.
Qed.

End order_book_update.

(** ** Depth aggregation *)

Section aggregation.

Import MarketData Spec.

Lemma wrap64_in_long (z : Z) : in_long z → wrap64 z = z.
Proof.
  unfold in_long, LONG_MIN, LONG_MAX, wrap64. intros Hz.
  rewrite Z.mod_small by lia. lia.
Qed.

Lemma wrap64_add_l (a b : Z) : wrap64 (wrap64 a + b) = wrap64 (a + b).
Proof.
  unfold wrap64. f_equal.
  replace ((a + 2 ^ 63) `mod` 2 ^ 64 - 2 ^ 63 + b + 2 ^ 63)
    with ((a + 2 ^ 63) `mod` 2 ^ 64 + b) by lia.
  rewrite Zplus_mod_idemp_l. f_equal. lia.
Qed.

Lemma aggregate_snoc (stack : list Order) (order : Order) :
  aggregate (stack ++ [order])
  = match aggregate stack !! GetPrice order with
    | Some q => <[GetPrice order := wrap64 (q + GetQuantity order)]> (aggregate stack)
    | None => <[GetPrice order := GetQuantity order]> (aggregate stack)
    end.
Proof. unfold aggregate. by rewrite foldl_app. Qed.

Lemma total_at_snoc (price : Qc) (stack : list Order) (order : Order) :
  total_at price (stack ++ [order])
  = total_at price stack
    + (if bool_decide (GetPrice order = price) then GetQuantity order else 0).
Proof.
  unfold total_at. induction stack as [|o stack IH]; simpl; [lia|].
  rewrite IH. lia.
Qed.

Lemma total_at_absent (price : Qc) (stack : list Order) :
  price ∉ GetPrice <$> stack → total_at price stack = 0.
Proof.
  induction stack as [|o stack IH]; [done|].
  rewrite fmap_cons, not_elem_of_cons. intros [Hne Hnot]. simpl.
  rewrite bool_decide_eq_false_2 by done. rewrite IH by done. lia.
Qed.

Lemma aggregate_lookup (stack : list Order) (price : Qc) :
  Forall (λ order, in_long (GetQuantity order)) stack →
  aggregate stack !! price
  = if bool_decide (price ∈ GetPrice <$> stack)
    then Some (wrap64 (total_at price stack)) else None.
Proof.
  induction stack as [|order stack IH] using rev_ind; intros Hlong.
  { by rewrite bool_decide_eq_false_2 by apply not_elem_of_nil. }
  apply Forall_app in Hlong as [Hstack [Horder _]%Forall_cons].
  specialize (IH Hstack).
  rewrite aggregate_snoc, total_at_snoc, fmap_app.
  destruct (decide (GetPrice order = price)) as [<-|Hne].
  - rewrite (bool_decide_eq_true_2 (GetPrice order = GetPrice order)) by done.
    rewrite (bool_decide_eq_true_2 (GetPrice order ∈ _ ++ _))
      by (apply elem_of_app; right; simpl; left).
    rewrite IH. case_bool_decide as Hin.
    + by rewrite lookup_insert_eq, wrap64_add_l.
    + rewrite lookup_insert_eq, total_at_absent by done.
      by rewrite wrap64_in_long.
  - rewrite (bool_decide_eq_false_2 (GetPrice order = price)) by done.
    rewrite Z.add_0_r.
    assert (bool_decide (price ∈ (GetPrice <$> stack) ++ (GetPrice <$> [order]))
            = bool_decide (price ∈ GetPrice <$> stack)) as ->.
    { apply bool_decide_ext. rewrite elem_of_app. simpl.
      rewrite list_elem_of_singleton. split; [|by left].
      by intros [Hin|Heq]; [|destruct Hne]. }
    destruct (aggregate stack !! GetPrice order); by rewrite lookup_insert_ne.
Qed.

Lemma aggregate_dom (stack : list Order) (price : Qc) :
  is_Some (aggregate stack !! price) ↔ price ∈ GetPrice <$> stack.
Proof.
  induction stack as [|order stack IH] using rev_ind.
  { split; [by intros [? ?]|]. by intros ?%elem_of_nil. }
  rewrite aggregate_snoc, fmap_app, elem_of_app. simpl.
  rewrite list_elem_of_singleton, <- IH.
  destruct (decide (GetPrice order = price)) as [<-|Hne].
  - split; [by right|]. intros _.
    destruct (aggregate stack !! GetPrice order); rewrite lookup_insert_eq; eauto.
  - destruct (aggregate stack !! GetPrice order); rewrite lookup_insert_ne by done;
      (split; [by left|]; by intros [Hin|Heq]; [|destruct Hne]).
Qed.

Lemma aggregate_stack_prices (side : PricingSide) (stack : list Order) :
  GetPrice <$> aggregate_stack side stack = (map_to_list (aggregate stack)).*1.
Proof. unfold aggregate_stack. rewrite <- list_fmap_compose. by apply list_fmap_ext. Qed.

Lemma aggregate_stack_pairs (side : PricingSide) (stack : list Order) :
  price_quantity (aggregate_stack side stack) = map_to_list (aggregate stack).
Proof.
  unfold price_quantity, aggregate_stack. rewrite <- list_fmap_compose.
  rewrite <- (list_fmap_id (map_to_list (aggregate stack))) at 2.
  apply list_fmap_ext. by intros i [p q] _.
Qed.

Lemma elem_of_aggregate_stack (side : PricingSide) (stack : list Order) (order : Order) :
  order ∈ aggregate_stack side stack ↔
  aggregate stack !! GetPrice order = Some (GetQuantity order) ∧ GetSide order = side.
Proof.
  unfold aggregate_stack. rewrite list_elem_of_fmap. split.
  - intros ([p q] & -> & Hin). simpl. by apply elem_of_map_to_list in Hin.
  - intros [Hlook Hside]. exists (GetPrice order, GetQuantity order).
    split; [destruct order; simpl in *; by subst|].
    by apply elem_of_map_to_list.
Qed.

(** What the loop computes, when the sums do not leave the range of [long]. *)
Lemma aggregate_stack_sums (side : PricingSide) (stack : list Order) :
  sums_fit stack → is_aggregation_of side stack (aggregate_stack side stack).
Proof.
  intros [Hlong Htotal]. split.
  - rewrite aggregate_stack_prices. apply NoDup_fst_map_to_list.
  - intros order. rewrite elem_of_aggregate_stack, aggregate_lookup by done.
    case_bool_decide as Hin.
    + rewrite wrap64_in_long by done. split.
      * by intros [[= <-] Hside].
      * by intros (_ & -> & Hside).
    + split; [by intros [? ?]|]. by intros (? & _).
Qed.

(** On a stack whose prices are pairwise distinct the loop only inserts. *)
Lemma aggregate_distinct (stack : list Order) :
  NoDup (GetPrice <$> stack) → aggregate stack = list_to_map (price_quantity stack).
Proof.
  induction stack as [|order stack IH] using rev_ind; intros Hdup; [done|].
  rewrite fmap_app in Hdup. apply NoDup_app in Hdup as (Hstack & Hnot & _).
  rewrite aggregate_snoc.
  assert (aggregate stack !! GetPrice order = None) as ->.
  { apply eq_None_not_Some. rewrite aggregate_dom. intros Hin.
    apply (Hnot _ Hin). simpl. left. }
  unfold price_quantity. rewrite fmap_app. simpl.
  rewrite list_to_map_snoc.
  - by rewrite IH.
  - rewrite <- list_fmap_compose. intros Hin. apply (Hnot (GetPrice order)); [done|].
    simpl. left.
Qed.

Lemma aggregate_stack_distinct (side : PricingSide) (stack : list Order) :
  NoDup (GetPrice <$> stack) →
  price_quantity (aggregate_stack side stack) ≡ₚ price_quantity stack.
Proof.
  intros Hdup. rewrite aggregate_stack_pairs, aggregate_distinct by done.
  apply map_to_list_to_map. unfold price_quantity.
  by rewrite <- list_fmap_compose.
Qed.

Lemma aggregate_stack_idempotent (side : PricingSide) (stack : list Order) :
  aggregate_stack side (aggregate_stack side stack) ≡ₚ aggregate_stack side stack.
Proof.
  assert (NoDup (GetPrice <$> aggregate_stack side stack)) as Hdup.
  { rewrite aggregate_stack_prices. apply NoDup_fst_map_to_list. }
  pose proof (aggregate_stack_distinct side _ Hdup) as Hperm.
  rewrite !aggregate_stack_pairs in Hperm.
  unfold aggregate_stack at 1 3. by apply fmap_Permutation.
Qed.

End aggregation.

Section aggregation_claim.

Import MarketData Spec.

(** C8.  [AggregateDepth] replaces each stack of the stored book by one order
    per distinct price, whose quantity is the sum of the quantities at that
    price (the sums being taken in [long]).  A stack whose prices are already
    pairwise distinct keeps its price/quantity pairs, up to their order, and
    a second [AggregateDepth] returns the stacks of the first, up to their
    order. *)
Theorem C8_aggregate_depth (s : MarketDataService) (productId : string)
    (orderBook : OrderBook) :
  orderBookMap s !! productId = Some orderBook →
  ∃ s1 aggregated,
    AggregateDepth productId s = (s1, Ok aggregated) ∧
    orderBookMap s1 !! productId = Some aggregated ∧
    (sums_fit (GetBidStack orderBook) →
     is_aggregation_of BID (GetBidStack orderBook) (GetBidStack aggregated)) ∧
    (sums_fit (GetOfferStack orderBook) →
     is_aggregation_of OFFER (GetOfferStack orderBook) (GetOfferStack aggregated)) ∧
    (NoDup (GetPrice <$> GetBidStack orderBook) →
     price_quantity (GetBidStack aggregated) ≡ₚ price_quantity (GetBidStack orderBook)) ∧
    (NoDup (GetPrice <$> GetOfferStack orderBook) →
     price_quantity (GetOfferStack aggregated) ≡ₚ price_quantity (GetOfferStack orderBook)) ∧
    ∃ s2 again,
      AggregateDepth productId s1 = (s2, Ok again) ∧
      GetBidStack again ≡ₚ GetBidStack aggregated ∧
      GetOfferStack again ≡ₚ GetOfferStack aggregated.
Proof.
  intros Hbook. unfold AggregateDepth at 1. rewrite Hbook.
  eexists _, _. split; [reflexivity|].
  split; [apply lookup_insert_eq|]. simpl.
  split; [apply aggregate_stack_sums|].
  split; [apply aggregate_stack_sums|].
  split; [apply aggregate_stack_distinct|].
  split; [apply aggregate_stack_distinct|].
  unfold AggregateDepth. simpl. rewrite lookup_insert_eq.
  eexists _, _. split; [reflexivity|]. simpl.
  split; apply aggregate_stack_idempotent.
Qed.

Lemma C8_aggregate_depth_witness :
  let book := mkOrderBook Samples.US2Y
                [ mkOrder (Q2Qc (99 # 1)) 100 BID; mkOrder (Q2Qc (395 # 4)) 200 BID;
                  mkOrder (Q2Qc (99 # 1)) 300 BID ]
                [ mkOrder (Q2Qc (100 # 1)) 500 OFFER ] in
  let s := set_orderBookMap (insert "9128283H1" book) new in
  orderBookMap s !! "9128283H1" = Some book ∧
  sums_fit (GetBidStack book) ∧
  ∃ s1 aggregated,
    AggregateDepth "9128283H1" s = (s1, Ok aggregated) ∧
    length (GetBidStack aggregated) = 2%nat ∧
    mkOrder (Q2Qc (99 # 1)) 400 BID ∈ GetBidStack aggregated.
Proof.
  intros book s.
  assert (orderBookMap s !! "9128283H1" = Some book) as Hbook.
  { apply lookup_insert_eq. }
  assert (sums_fit (GetBidStack book)) as Hfit.
  { split.
    - repeat constructor; vm_compute; intuition discriminate.
    - intros price. simpl. unfold in_long, LONG_MIN, LONG_MAX.
      repeat case_bool_decide; lia. }
  split; [exact Hbook|]. split; [exact Hfit|].
  destruct (C8_aggregate_depth s "9128283H1" book Hbook)
    as (s1 & aggregated & Hrun & _ & Hbid & _).
  exists s1, aggregated. split; [exact Hrun|].
  destruct (Hbid Hfit) as [Hdup Hiff].
  assert (mkOrder (Q2Qc (99 # 1)) 400 BID ∈ GetBidStack aggregated) as Hin.
  { apply Hiff. split; [|split].
    - apply (bool_decide_unpack _). vm_compute. exact I.
    - vm_compute. reflexivity.
    - reflexivity. }
  split; [|exact Hin].
  unfold AggregateDepth in Hrun. rewrite Hbook in Hrun.
  injection Hrun as _ <-. vm_compute. reflexivity.
Defined.

End aggregation_claim.

(** ** The price notation codec *)

Section strings.

Lemma string_take_app (a b : string) : string_take (String.length a) (a +:+ b) = a.
Proof. induction a as [|c a IH]; simpl; [by destruct b|]. by rewrite IH. Qed.

Lemma string_drop_app (a b : string) : string_drop (String.length a) (a +:+ b) = b.
Proof. induction a as [|c a IH]; simpl; done. Qed.

Lemma digit_val_range (c : ascii) (d : Z) : digit_val c = Some d → 0 ≤ d ≤ 9.
Proof.
  unfold digit_val. destruct (_ && _) eqn:Hc; [|done]. intros [= <-].
  apply andb_true_iff in Hc as [H1%N.leb_le H2%N.leb_le]. lia.
Qed.

Lemma digit_val_char (c : ascii) (d : Z) : digit_val c = Some d → c = digit_char d.
Proof.
  intros Hc. pose proof (digit_val_range _ _ Hc) as Hd. revert Hc.
  unfold digit_val, digit_char. destruct (_ && _) eqn:Hb; [|done]. intros [= <-].
  apply andb_true_iff in Hb as [H1%N.leb_le H2%N.leb_le].
  replace (Z.to_N (48 + (Z.of_N (N_of_ascii c) - 48))) with (N_of_ascii c) by lia.
  by rewrite ascii_N_embedding.
Qed.

Lemma digit_char_val (d : Z) : 0 ≤ d ≤ 9 → digit_val (digit_char d) = Some d.
Proof.
  intros Hd.
  assert (d = 0 ∨ d = 1 ∨ d = 2 ∨ d = 3 ∨ d = 4 ∨ d = 5 ∨ d = 6 ∨ d = 7 ∨ d = 8 ∨ d = 9)
    as Hcases by lia.
  repeat destruct Hcases as [->|Hcases]; try reflexivity. by subst.
Qed.

Lemma digit_not_dash (c : ascii) (d : Z) : digit_val c = Some d → Ascii.eqb c "-" = false.
Proof. intros Hc. destruct (Ascii.eqb_spec c "-") as [->|]; [done|done]. Qed.

Lemma digit_not_space (c : ascii) (d : Z) : digit_val c = Some d → isspace c = false.
Proof.
  unfold digit_val, isspace. destruct (_ && _) eqn:Hb; [|done]. intros _.
  apply andb_true_iff in Hb as [H1%N.leb_le H2%N.leb_le].
  apply orb_false_iff. split; [apply N.eqb_neq; lia|].
  apply andb_false_iff. right. apply N.leb_gt. lia.
Qed.

Lemma find_dash_after_digits (a t : string) :
  all_digits a = true → find "-" (a +:+ String "-" t) = Some (String.length a).
Proof.
  induction a as [|c a IH]; simpl; [done|].
  intros [Hc Ha]%andb_true_iff. apply bool_decide_eq_true in Hc as [d Hc].
  rewrite (digit_not_dash _ _ Hc), IH by done. done.
Qed.

Lemma read_digits_all (s : string) (acc : Z) (n : nat) :
  all_digits s = true →
  ∃ v, read_digits s acc n = (v, (n + String.length s)%nat, "").
Proof.
  revert acc n. induction s as [|c s IH]; intros acc n; simpl.
  - intros _. exists acc. by rewrite Nat.add_0_r.
  - intros [Hc Hs]%andb_true_iff. apply bool_decide_eq_true in Hc as [d Hc].
    rewrite Hc. destruct (IH (10 * acc + d) (S n) Hs) as [v Hv].
    exists v. rewrite Hv. do 2 f_equal. lia.
Qed.

(** [stod] on a non-empty string of digits is the number they denote. *)
Lemma stod_all_digits (s : string) :
  s ≠ "" → all_digits s = true →
  stod s = Ok (Qc_of_Z (read_digits s 0 0%nat).1.1).
Proof.
  intros Hne Hs. destruct (read_digits_all s 0 0%nat Hs) as [v Hv].
  destruct s as [|c s]; [done|].
  simpl in Hs. apply andb_true_iff in Hs as [Hc Hs].
  apply bool_decide_eq_true in Hc as [d Hc].
  unfold stod. simpl skip_space. rewrite (digit_not_space _ _ Hc).
  assert (read_sign (String c s) = (false, String c s)) as ->.
  { unfold read_sign. destruct (decide (c = "-"%char)) as [->|]; [done|].
    destruct (decide (c = "+"%char)) as [->|]; [done|].
    repeat (destruct c as [[] [] [] [] [] [] [] []]; try done). }
  rewrite Hv. simpl.
  f_equal. apply Qc_is_canon. unfold Qc_of_Z, Qcplus, Q2Qc. simpl.
  rewrite !Qred_correct. unfold Qeq, Qplus, inject_Z. simpl. lia.
Qed.

End strings.

Section to_string.

Lemma digit_val_pretty_N_char (d : N) :
  (d < 10)%N → digit_val (pretty_N_char d) = Some (Z.of_N d).
Proof.
  intros Hd.
  assert (d = 0 ∨ d = 1 ∨ d = 2 ∨ d = 3 ∨ d = 4 ∨ d = 5 ∨ d = 6 ∨ d = 7 ∨ d = 8 ∨ d = 9)%N
    as Hcases by lia.
  repeat destruct Hcases as [->|Hcases]; try reflexivity. by subst.
Qed.

Lemma all_digits_pretty_N_go (x : N) (s : string) :
  all_digits s = true → all_digits (pretty_N_go x s) = true.
Proof.
  revert s. induction (N.lt_wf_0 x) as [x _ IH]; intros s Hs.
  destruct (decide (x = 0)%N) as [->|Hx]; [done|].
  rewrite pretty_N_go_step by lia. apply IH.
  - apply N.div_lt; lia.
  - simpl. rewrite digit_val_pretty_N_char by (apply N.mod_lt; lia).
    by rewrite bool_decide_eq_true_2 by eauto.
Qed.

Lemma read_digits_pretty_N_go (x : N) (s : string) :
  ∃ k : nat, ((0 < x)%N → (0 < k)%nat) ∧
    ∀ acc n, read_digits (pretty_N_go x s) acc n
             = read_digits s (acc * 10 ^ Z.of_nat k + Z.of_N x) (n + k)%nat.
Proof.
  revert s. induction (N.lt_wf_0 x) as [x _ IH]; intros s.
  destruct (decide (x = 0)%N) as [->|Hx].
  { exists 0%nat. split; [lia|]. intros acc n. rewrite pretty_N_go_0.
    f_equal; [simpl; lia | lia]. }
  rewrite pretty_N_go_step by lia.
  destruct (IH (x `div` 10)%N (N.div_lt x 10 ltac:(lia) ltac:(lia))
              (String (pretty_N_char (x `mod` 10)) s)) as (k & _ & Hk).
  exists (S k). split; [lia|]. intros acc n. rewrite Hk. simpl.
  rewrite digit_val_pretty_N_char by (apply N.mod_lt; lia).
  f_equal; [|lia].
  rewrite Nat2Z.inj_succ, Z.pow_succ_r by lia.
  pose proof (N.div_mod x 10 ltac:(lia)). lia.
Qed.

Lemma to_string_nonneg (I : Z) :
  0 ≤ I → to_string I = if decide (I = 0) then "0" else pretty_N_go (Z.to_N I) "".
Proof.
  intros HI. unfold to_string, pretty, pretty_Z. destruct I as [|p|p]; [done| |lia].
  unfold pretty, pretty_positive, pretty, pretty_N.
  destruct (decide (N.pos p = 0%N)); done.
Qed.

Lemma to_string_digits (I : Z) :
  0 ≤ I →
  to_string I ≠ "" ∧ all_digits (to_string I) = true ∧
  (read_digits (to_string I) 0 0%nat).1.1 = I.
Proof.
  intros HI. rewrite to_string_nonneg by done.
  destruct (decide (I = 0)) as [->|Hne]; [done|].
  destruct (read_digits_pretty_N_go (Z.to_N I) "") as (k & Hpos & Hk).
  split; [|split].
  - intros Hempty. specialize (Hk 0 0%nat). rewrite Hempty in Hk. simpl in Hk.
    injection Hk as _ Hk0. lia.
  - by apply all_digits_pretty_N_go.
  - rewrite Hk. simpl. lia.
Qed.

Lemma stod_to_string (I : Z) : 0 ≤ I → stod (to_string I) = Ok (Qc_of_Z I).
Proof.
  intros HI. destruct (to_string_digits I HI) as (Hne & Hall & Hval).
  by rewrite stod_all_digits, Hval.
Qed.

(** The two characters that [Price2Frac] writes for the 32nds. *)
Lemma render_32nds (xy : Z) :
  0 ≤ xy < 32 →
  (if bool_decide (xy < 10) then "0" else "") +:+ to_string xy
  = String (digit_char (xy `div` 10)) (String (digit_char (xy `mod` 10)) "").
Proof.
  intros Hxy.
  assert (∃ n : nat, xy = Z.of_nat n ∧ (n < 32)%nat) as (n & -> & Hn).
  { exists (Z.to_nat xy). lia. }
  do 32 (destruct n as [|n]; [vm_compute; reflexivity|]). lia.
Qed.

(** The character that [Price2Frac] writes for the 256ths. *)
Lemma render_256ths (z : Z) :
  0 ≤ z < 8 →
  (if bool_decide (z = 4) then "+" else to_string z)
  = String (if bool_decide (z = 4) then "+"%char else digit_char z) "".
Proof.
  intros Hz.
  assert (z = 0 ∨ z = 1 ∨ z = 2 ∨ z = 3 ∨ z = 4 ∨ z = 5 ∨ z = 6 ∨ z = 7) as Hcases by lia.
  repeat destruct Hcases as [->|Hcases]; try reflexivity. by subst.
Qed.

End to_string.

Section codec.

Import Spec.

Lemma string_app_assoc (a b c : string) : (a +:+ b) +:+ c = a +:+ (b +:+ c).
Proof.
  induction a as [|x a IH]; [done|].
  change (String x ((a +:+ b) +:+ c) = String x (a +:+ (b +:+ c))). by rewrite IH.
Qed.

Lemma string_drop_0 (s : string) : string_drop 0 s = s.
Proof. by destruct s. Qed.

Lemma string_drop_after (a : string) (c : ascii) (t : string) :
  string_drop (String.length a + 1) (a +:+ String c t) = t.
Proof. induction a as [|x a IH]; simpl; done. Qed.

Lemma Qfloor_Q2Qc (n : Z) (d : positive) : Qfloor (Q2Qc (n # d)) = n `div` Zpos d.
Proof. simpl. by rewrite (Qfloor_comp _ _ (Qred_correct (n # d))). Qed.

Lemma trunc_Q2Qc (n : Z) (d : positive) : 0 ≤ n → trunc (Q2Qc (n # d)) = n `div` Zpos d.
Proof.
  intros Hn. unfold trunc. rewrite bool_decide_eq_true_2; [apply Qfloor_Q2Qc|].
  unfold Qcle. change (0 <= Qred (n # d))%Q.
  rewrite (Qred_correct (n # d)). unfold Qle. simpl. lia.
Qed.

Lemma Qc_sub_ticks (k : Z) :
  (Q2Qc (k # 256) - Qc_of_Z (k `div` 256))%Qc = Q2Qc ((k `mod` 256) # 256).
Proof.
  apply Qc_is_canon. unfold Qc_of_Z, Qcminus, Qcplus, Qcopp, Q2Qc. simpl.
  rewrite !Qred_correct. unfold Qeq, Qplus, Qopp, inject_Z. simpl.
  pose proof (Z.div_mod k 256). lia.
Qed.

Lemma Qc_mul_ticks (r m : Z) : (Q2Qc (r # 256) * Qc_of_Z m)%Qc = Q2Qc ((r * m) # 256).
Proof.
  apply Qc_is_canon. unfold Qc_of_Z, Qcmult, Q2Qc. simpl.
  rewrite !Qred_correct. unfold Qeq, Qmult, inject_Z. simpl. lia.
Qed.

Lemma Qc_sum_ticks (I xy z : Z) :
  (Qc_of_Z I + Qc_of_Z xy / Qc_of_Z 32 + Qc_of_Z z / Qc_of_Z 256)%Qc
  = Q2Qc ((256 * I + 8 * xy + z) # 256).
Proof.
  apply Qc_is_canon. unfold Qc_of_Z, Qcdiv, Qcmult, Qcinv, Qcplus, Q2Qc. simpl.
  rewrite !Qred_correct. unfold Qeq, Qmult, Qplus, Qinv, inject_Z. simpl. lia.
Qed.

Local Opaque stod.

Lemma outcome_bind_ok {A B} (a : A) (f : A → outcome B) : Ok a ≫= f = f a.
Proof. reflexivity. Qed.

Lemma double_to_int_of_Z (z : Z) : in_int z → double_to_int (Qc_of_Z z) = Ok z.
Proof. intros Hz. unfold double_to_int. by rewrite trunc_of_Z, bool_decide_eq_true_2. Qed.

Lemma double_to_int_ticks (n : Z) :
  0 ≤ n → n `div` 256 ≤ INT_MAX → double_to_int (Q2Qc (n # 256)) = Ok (n `div` 256).
Proof.
  intros Hn Hmax. unfold double_to_int. rewrite trunc_Q2Qc by done.
  rewrite bool_decide_eq_true_2; [done|].
  pose proof (Z.div_pos n 256 Hn ltac:(lia)). unfold in_int, INT_MIN. lia.
Qed.

(** Decoding: integer part [ip], two digits and a final digit or '+'. *)
Lemma Frac2Price_encoded (ip : string) (d1 d2 c : ascii) (x1 x2 z : Z) :
  ip ≠ "" → all_digits ip = true →
  digit_val d1 = Some x1 → digit_val d2 = Some x2 →
  (c = "+"%char ∧ z = 4) ∨ digit_val c = Some z →
  Frac2Price (ip +:+ String "-" (String d1 (String d2 (String c ""))))
  = Ok (Q2Qc ((256 * (read_digits ip 0 0%nat).1.1 + 8 * (10 * x1 + x2) + z) # 256)).
Proof.
  intros Hne Hip Hd1 Hd2 Hc. unfold Frac2Price.
  rewrite find_dash_after_digits by done.
  unfold substr, substr_from. rewrite !string_drop_0.
  rewrite string_take_app, (stod_all_digits ip) by done.
  rewrite string_drop_after. simpl.
  assert (stod (String d1 (String d2 "")) = Ok (Qc_of_Z (10 * x1 + x2))) as Hxy.
  { rewrite stod_all_digits; [|done|].
    - simpl. rewrite Hd1, Hd2. simpl. do 2 f_equal; lia.
    - simpl. rewrite Hd1, Hd2. by rewrite !bool_decide_eq_true_2 by eauto. }
  destruct Hc as [[-> ->]|Hc].
  - rewrite bool_decide_eq_true_2 by done. simpl.
    rewrite Hxy. simpl.
    assert (stod "4" = Ok (Qc_of_Z 4)) as ->.
    { by rewrite stod_all_digits. }
    simpl. f_equal. apply (Qc_sum_ticks _ (10 * x1 + x2) 4).
  - rewrite bool_decide_eq_false_2; last first.
    { intros [= ->]. done. }
    rewrite Hxy. simpl.
    assert (stod (String c "") = Ok (Qc_of_Z z)) as ->.
    { rewrite stod_all_digits; [|done|].
      - simpl. rewrite Hc. simpl. do 2 f_equal; lia.
      - simpl. rewrite Hc. by rewrite bool_decide_eq_true_2 by eauto. }
    simpl. f_equal. apply Qc_sum_ticks.
Qed.

Local Transparent stod.

(** Encoding a non-negative multiple of 1/256 whose integer part fits [int]. *)
Lemma Price2Frac_ticks (k : Z) :
  0 ≤ k → k `div` 256 ≤ INT_MAX →
  Price2Frac (Q2Qc (k # 256))
  = Ok (to_string (k `div` 256)
        +:+ String "-"
              (String (digit_char (((k `mod` 256) `div` 8) `div` 10))
                 (String (digit_char (((k `mod` 256) `div` 8) `mod` 10))
                    (String (if bool_decide (k `mod` 8 = 4) then "+"%char
                             else digit_char (k `mod` 8)) "")))).
Proof.
  intros Hk Hint. unfold Price2Frac, floor.
  pose proof (Z.div_pos k 256 Hk ltac:(lia)) as Hdiv.
  pose proof (Z.mod_pos_bound k 256 ltac:(lia)) as Hr.
  pose proof (Z.mod_pos_bound k 8 ltac:(lia)) as Hz.
  assert (0 ≤ (k `mod` 256) `div` 8 < 32) as Hxy.
  { split; [apply Z.div_pos; lia|]. apply Z.div_lt_upper_bound; lia. }
  rewrite Qfloor_Q2Qc, (double_to_int_of_Z (k `div` 256))
    by (unfold in_int, INT_MIN, INT_MAX in *; lia).
  rewrite outcome_bind_ok. cbv beta.
  rewrite Qc_sub_ticks, !Qc_mul_ticks.
  rewrite (double_to_int_ticks ((k `mod` 256) * 32))
    by (unfold INT_MAX; try apply Z.div_le_upper_bound; lia).
  rewrite outcome_bind_ok. cbv beta.
  rewrite (double_to_int_ticks ((k `mod` 256) * 256))
    by (unfold INT_MAX; try apply Z.div_le_upper_bound; lia).
  rewrite outcome_bind_ok. cbv beta zeta.
  replace (((k `mod` 256) * 32) `div` 256) with ((k `mod` 256) `div` 8)
    by (rewrite <- (Z.div_mul_cancel_r (k `mod` 256) 8 32) by lia; f_equal).
  rewrite Z.div_mul by lia.
  rewrite Z.rem_mod_nonneg by lia.
  replace ((k `mod` 256) `mod` 8) with (k `mod` 8)
    by (symmetry; apply Z.mod_mod_divide; by exists 32).
  rewrite render_32nds, render_256ths by lia.
  rewrite !string_app_assoc. reflexivity.
Qed.

End codec.

Section codec_claim.

Import Spec.

(** C4 (counterexample).  "99-164" and "099-160" are valid encoded strings,
    but decoding and encoding again gives "99-16+" and "99-160"; and the
    price 2^31, a multiple of 1/256, cannot be encoded: its integer part does
    not fit the [int] that [Price2Frac] converts it to. *)
Lemma C4_counterexample :
  (valid_encoded "99-164" ∧ Frac2Price "99-164" ≫= Price2Frac = Ok "99-16+") ∧
  (valid_encoded "099-160" ∧ Frac2Price "099-160" ≫= Price2Frac = Ok "99-160") ∧
  Price2Frac (Q2Qc (2 ^ 31 * 256 # 256)) = Undefined.
Proof.
  split; [|split].
  - split; [|vm_compute; reflexivity].
    exists "99", "1"%char, "6"%char, "4"%char, 1, 6.
    repeat split; try done. right. exists 4. by split.
  - split; [|vm_compute; reflexivity].
    exists "099", "1"%char, "6"%char, "0"%char, 1, 6.
    repeat split; try done. right. exists 0. by split.
  - vm_compute. reflexivity.
Qed.

(** C4 (amended).  Encoding the decoded value gives back every encoded
    string whose integer part is the decimal rendering of a non-negative
    [int], whose 32nds part is two digits below 32 and whose final character
    is one of 0, 1, 2, 3, 5, 6, 7 and '+'.  Every non-negative multiple of
    1/256 below 2^31 is encoded to such a string, and decoding that string
    gives the price back. *)
Theorem C4_codec_round_trip :
  (∀ s, canonical_encoded s → Frac2Price s ≫= Price2Frac = Ok s) ∧
  (∀ k, 0 ≤ k → k `div` 256 ≤ INT_MAX →
        ∃ s, Price2Frac (Q2Qc (k # 256)) = Ok s ∧ canonical_encoded s ∧
             Frac2Price s = Ok (Q2Qc (k # 256))).
Proof.
  split.
  - intros s (I & d1 & d2 & c & x1 & x2 & -> & HI & Hd1 & Hd2 & Hlt & Hc).
    destruct (to_string_digits I (proj1 HI)) as (Hne & Hall & Hval).
    pose proof (digit_val_range _ _ Hd1) as Hx1.
    pose proof (digit_val_range _ _ Hd2) as Hx2.
    assert (∃ z, 0 ≤ z < 8 ∧ ((c = "+"%char ∧ z = 4) ∨ digit_val c = Some z) ∧
                 c = if bool_decide (z = 4) then "+"%char else digit_char z)
      as (z & Hz & Hcz & Hchar).
    { destruct Hc as [->|(z & Hc & Hz7 & Hz4)].
      - exists 4. split; [lia|]. split; [by left | done].
      - pose proof (digit_val_range _ _ Hc). exists z.
        split; [lia|]. split; [by right|].
        rewrite bool_decide_eq_false_2 by done. by apply digit_val_char. }
    rewrite (Frac2Price_encoded _ _ _ _ x1 x2 z) by done.
    rewrite Hval, outcome_bind_ok.
    set (k := 256 * I + 8 * (10 * x1 + x2) + z).
    assert (k `div` 256 = I) as Hdiv.
    { symmetry. apply (Z.div_unique k 256 I (8 * (10 * x1 + x2) + z)); lia. }
    assert (k `mod` 256 = 8 * (10 * x1 + x2) + z) as Hmod.
    { symmetry. apply (Z.mod_unique k 256 I (8 * (10 * x1 + x2) + z)); lia. }
    assert (k `mod` 8 = z) as Hmod8.
    { symmetry. apply (Z.mod_unique k 8 (32 * I + (10 * x1 + x2)) z); lia. }
    rewrite Price2Frac_ticks by (unfold INT_MAX in *; lia).
    rewrite Hdiv, Hmod, Hmod8.
    assert ((8 * (10 * x1 + x2) + z) `div` 8 = 10 * x1 + x2) as ->.
    { symmetry. apply (Z.div_unique _ 8 _ z); lia. }
    assert ((10 * x1 + x2) `div` 10 = x1) as ->.
    { symmetry. apply (Z.div_unique _ 10 _ x2); lia. }
    assert ((10 * x1 + x2) `mod` 10 = x2) as ->.
    { symmetry. apply (Z.mod_unique _ 10 x1 x2); lia. }
    by rewrite <- (digit_val_char _ _ Hd1), <- (digit_val_char _ _ Hd2), <- Hchar.
  - intros k Hk Hmax. eexists. split; [by apply Price2Frac_ticks|].
    pose proof (Z.div_pos k 256 Hk ltac:(lia)) as Hdiv.
    pose proof (Z.mod_pos_bound k 256 ltac:(lia)) as Hr.
    pose proof (Z.mod_pos_bound k 8 ltac:(lia)) as Hz.
    set (xy := (k `mod` 256) `div` 8).
    assert (0 ≤ xy < 32) as Hxy.
    { split; [apply Z.div_pos; lia|]. apply Z.div_lt_upper_bound; lia. }
    pose proof (Z.div_pos xy 10 ltac:(lia) ltac:(lia)) as Hx1.
    assert (xy `div` 10 ≤ 9) as Hx1'.
    { apply Z.lt_succ_r, Z.div_lt_upper_bound; lia. }
    pose proof (Z.mod_pos_bound xy 10 ltac:(lia)) as Hx2.
    pose proof (Z.div_mod xy 10 ltac:(lia)) as Hxy10.
    assert (digit_val (digit_char (xy `div` 10)) = Some (xy `div` 10)) as Hd1
      by (apply digit_char_val; lia).
    assert (digit_val (digit_char (xy `mod` 10)) = Some (xy `mod` 10)) as Hd2
      by (apply digit_char_val; lia).
    destruct (to_string_digits (k `div` 256) Hdiv) as (Hne & Hall & Hval).
    split.
    + exists (k `div` 256), (digit_char (xy `div` 10)), (digit_char (xy `mod` 10)),
        (if bool_decide (k `mod` 8 = 4) then "+"%char else digit_char (k `mod` 8)),
        (xy `div` 10), (xy `mod` 10).
      split; [done|]. split; [lia|]. split; [done|]. split; [done|].
      split; [lia|]. case_bool_decide as Hz4; [by left|right].
      exists (k `mod` 8). split; [apply digit_char_val; lia|]. lia.
    + rewrite (Frac2Price_encoded _ _ _ _ (xy `div` 10) (xy `mod` 10) (k `mod` 8));
        [|done|done|done|done|].
      * rewrite Hval. do 2 f_equal.
        assert (k `mod` 256 = 8 * xy + k `mod` 8) as Hsplit.
        { rewrite <- (Z.mod_mod_divide k 256 8) by (by exists 32).
          apply Z.div_mod. lia. }
        pose proof (Z.div_mod k 256 ltac:(lia)). f_equal. lia.
      * case_bool_decide as Hz4; [by left|right]. apply digit_char_val. lia.
Qed.

Lemma C4_codec_round_trip_witness :
  canonical_encoded "99-16+" ∧ Frac2Price "99-16+" ≫= Price2Frac = Ok "99-16+" ∧
  0 ≤ 25497 ∧ 25497 `div` 256 ≤ INT_MAX ∧
  ∃ s, Price2Frac (Q2Qc (25497 # 256)) = Ok s ∧ Frac2Price s = Ok (Q2Qc (25497 # 256)).
Proof.
  assert (canonical_encoded "99-16+") as Hcanon.
  { exists 99, "1"%char, "6"%char, "+"%char, 1, 6.
    split; [reflexivity|]. split; [split; discriminate|].
    split; [reflexivity|]. split; [reflexivity|]. split; [reflexivity|].
    left. reflexivity. }
  split; [exact Hcanon|]. split; [exact (proj1 C4_codec_round_trip _ Hcanon)|].
  assert (0 ≤ 25497) as Hk by discriminate.
  assert (25497 `div` 256 ≤ INT_MAX) as Hmax by discriminate.
  split; [exact Hk|]. split; [exact Hmax|].
  destruct (proj2 C4_codec_round_trip 25497 Hk Hmax) as (s & Hs & _ & Hback).
  exists s. split; [exact Hs | exact Hback].
Defined.

End codec_claim.

(** * Further properties of the sources *)

(** ** utilities.hpp: decoding *)

Section decoding.

Lemma find_split (c : ascii) (s : string) (n : nat) :
  find c s = Some n →
  s = string_take n s +:+ String c (string_drop (n + 1) s) ∧
  find c (string_take n s) = None ∧ String.length (string_take n s) = n.
Proof.
  revert n. induction s as [|a s IH]; intros n; simpl; [done|].
  destruct (Ascii.eqb_spec a c) as [->|Hne].
  - intros [= <-]. by destruct s.
  - destruct (find c s) as [m|] eqn:Hfind; [|done]. simpl. intros [= <-].
    destruct (IH m eq_refl) as (Hs & Hnone & Hlen). simpl.
    split; [|split].
    + change (String a s = String a (string_take m s +:+ String c (string_drop (m + 1) s))).
      by rewrite <- Hs.
    + destruct (Ascii.eqb_spec a c) as [->|_]; [done|]. by rewrite Hnone.
    + by rewrite Hlen.
Qed.

(** X1.  [Frac2Price] on an integer part below 2^44 written by
    [to_string], a dash, two digits and a final digit or '+' is the integer
    part plus the two digits as 32nds plus the final digit as 256ths, '+'
    counting as 4.  Neither the two digits nor the final digit are checked
    against 32 and 8.  Below 2^44 the result is a multiple of 1/256 of less
    than 53 bits, which binary64 holds exactly. *)
Theorem Frac2Price_value (I : Z) (d1 d2 c : ascii) (x1 x2 z : Z) :
  0 ≤ I < 2 ^ 44 → digit_val d1 = Some x1 → digit_val d2 = Some x2 →
  (c = "+"%char ∧ z = 4) ∨ digit_val c = Some z →
  Frac2Price (to_string I +:+ String "-" (String d1 (String d2 (String c ""))))
  = Ok (Qc_of_Z I + Qc_of_Z (10 * x1 + x2) / Qc_of_Z 32 + Qc_of_Z z / Qc_of_Z 256)%Qc ∧
  0 ≤ 256 * I + 8 * (10 * x1 + x2) + z < 2 ^ 53.
Proof.
  intros [HI Hmax] Hd1 Hd2 Hc.
  destruct (to_string_digits I HI) as (Hne & Hall & Hval).
  rewrite (Frac2Price_encoded _ _ _ _ x1 x2 z) by done.
  rewrite Hval, Qc_sum_ticks. split; [done|].
  pose proof (digit_val_range _ _ Hd1). pose proof (digit_val_range _ _ Hd2).
  assert (0 ≤ z ≤ 9) as Hz.
  { destruct Hc as [[_ ->]|Hc]; [lia|]. by apply (digit_val_range c). }
  lia.
Qed.

Lemma Frac2Price_value_witness :
  0 ≤ 101 < 2 ^ 44 ∧ digit_val "4" = Some 4 ∧ digit_val "0" = Some 0 ∧
  digit_val "9" = Some 9 ∧
  Frac2Price "101-409"
  = Ok (Qc_of_Z 101 + Qc_of_Z 40 / Qc_of_Z 32 + Qc_of_Z 9 / Qc_of_Z 256)%Qc.
Proof.
  assert (0 ≤ 101 < 2 ^ 44) as HI by (split; [discriminate|reflexivity]).
  split; [exact HI|]. split; [reflexivity|]. split; [reflexivity|].
  split; [reflexivity|].
  exact (proj1 (Frac2Price_value 101 "4" "0" "9" 4 0 9 HI eq_refl eq_refl
                  (or_intror eq_refl))).
Defined.

(** X2.  A string without dash is refused with the dash message; and a
    string that [Frac2Price] accepts has a dash, its first one followed by
    exactly three characters. *)
Theorem Frac2Price_accepts_only (s : string) :
  (find "-" s = None →
   Frac2Price s = Throw (invalid_argument "Invalid format: Dash '-' not found.")) ∧
  (∀ price, Frac2Price s = Ok price →
     ∃ ip frac, s = ip +:+ String "-" frac ∧ find "-" ip = None ∧
                String.length frac = 3%nat).
Proof.
  unfold Frac2Price. split.
  - by intros ->.
  - intros price. destruct (find "-" s) as [posDash|] eqn:Hfind; [|done].
    destruct (find_split _ _ _ Hfind) as (Hs & Hnone & _).
    destruct (stod (substr s 0 posDash)) as [price1| |]; [|done..].
    simpl. unfold substr_from.
    destruct (String.length (string_drop (posDash + 1) s) =? 3)%nat eqn:Hlen; [|done].
    intros _. apply Nat.eqb_eq in Hlen. eauto.
Qed.

Lemma Frac2Price_accepts_only_witness :
  find "-" "99160" = None ∧
  Frac2Price "99160" = Throw (invalid_argument "Invalid format: Dash '-' not found.") ∧
  ∃ ip frac, "99-16+" = ip +:+ String "-" frac ∧ find "-" ip = None ∧
             String.length frac = 3%nat.
Proof.
  split; [reflexivity|]. split.
  - apply (proj1 (Frac2Price_accepts_only "99160")). reflexivity.
  - destruct (Frac2Price "99-16+") as [price| |] eqn:Hprice;
      [|vm_compute in Hprice; discriminate..].
    exact (proj2 (Frac2Price_accepts_only "99-16+") price Hprice).
Defined.

End decoding.

(** ** utilities.hpp: encoding *)

Section encoding.

Import Spec.

Lemma Qc_as_fraction (p : Qc) : p = Q2Qc (Qnum p # Qden p).
Proof. apply Qc_is_canon. simpl. rewrite Qred_correct. by destruct p as [[n d] ?]. Qed.

Lemma Qc_sub_int (n : Z) (d : positive) (I : Z) :
  (Q2Qc (n # d) - Qc_of_Z I)%Qc = Q2Qc ((n - I * Zpos d) # d).
Proof.
  apply Qc_is_canon. unfold Qc_of_Z, Qcminus, Qcplus, Qcopp, Q2Qc. simpl.
  rewrite !Qred_correct. unfold Qeq, Qplus, Qopp, inject_Z. simpl. lia.
Qed.

Lemma Qc_mul_int (m : Z) (d : positive) (c : Z) :
  (Q2Qc (m # d) * Qc_of_Z c)%Qc = Q2Qc ((m * c) # d).
Proof.
  apply Qc_is_canon. unfold Qc_of_Z, Qcmult, Q2Qc. simpl.
  rewrite !Qred_correct. unfold Qeq, Qmult, inject_Z. simpl. lia.
Qed.

Lemma double_to_int_fraction (a : Z) (d : positive) :
  0 ≤ a → a `div` Zpos d ≤ INT_MAX →
  double_to_int (Q2Qc (a # d)) = Ok (a `div` Zpos d).
Proof.
  intros Ha Hmax. unfold double_to_int. rewrite trunc_Q2Qc by done.
  rewrite bool_decide_eq_true_2; [done|].
  pose proof (Z.div_pos a (Zpos d) Ha ltac:(lia)). unfold in_int, INT_MIN. lia.
Qed.

(** What [Price2Frac] writes for the fraction [n/d], of either sign. *)
Lemma Price2Frac_fraction (n : Z) (d : positive) :
  in_int (n `div` Zpos d) →
  let m := n `mod` Zpos d in
  let xy := (m * 32) `div` Zpos d in
  let z := ((m * 256) `div` Zpos d) `mod` 8 in
  0 ≤ xy < 32 ∧ 0 ≤ z < 8 ∧
  Price2Frac (Q2Qc (n # d))
  = Ok (to_string (n `div` Zpos d)
        +:+ String "-"
              (String (digit_char (xy `div` 10))
                 (String (digit_char (xy `mod` 10))
                    (String (if bool_decide (z = 4) then "+"%char else digit_char z) "")))).
Proof.
  intros Hint m xy z.
  pose proof (Z.mod_pos_bound n (Zpos d) ltac:(lia)) as Hm. fold m in Hm.
  assert (0 ≤ xy < 32) as Hxy.
  { subst xy. split; [apply Z.div_pos; lia|]. apply Z.div_lt_upper_bound; lia. }
  assert (0 ≤ (m * 256) `div` Zpos d < 256) as Hw.
  { split; [apply Z.div_pos; lia|]. apply Z.div_lt_upper_bound; lia. }
  pose proof (Z.mod_pos_bound ((m * 256) `div` Zpos d) 8 ltac:(lia)) as Hz. fold z in Hz.
  split; [done|]. split; [done|].
  unfold Price2Frac, floor. rewrite Qfloor_Q2Qc.
  rewrite (double_to_int_of_Z (n `div` Zpos d)) by done.
  rewrite outcome_bind_ok. cbv beta.
  rewrite Qc_sub_int.
  replace (n - n `div` Zpos d * Zpos d) with m
    by (subst m; rewrite Z.mod_eq by lia; lia).
  rewrite !Qc_mul_int.
  rewrite (double_to_int_fraction (m * 32)) by (fold xy; unfold INT_MAX; lia).
  rewrite outcome_bind_ok. cbv beta.
  rewrite (double_to_int_fraction (m * 256)) by (unfold INT_MAX; lia).
  rewrite outcome_bind_ok. cbv beta zeta.
  rewrite Z.rem_mod_nonneg by lia. fold xy z.
  rewrite render_32nds, render_256ths by lia.
  rewrite !string_app_assoc. reflexivity.
Qed.

Lemma ticks_of_fraction (n : Z) (d : positive) :
  let k := (n * 256) `div` Zpos d in
  let m := n `mod` Zpos d in
  k `div` 256 = n `div` Zpos d ∧
  (k `mod` 256) `div` 8 = (m * 32) `div` Zpos d ∧
  k `mod` 8 = ((m * 256) `div` Zpos d) `mod` 8.
Proof.
  intros k m.
  pose proof (Z.mod_pos_bound n (Zpos d) ltac:(lia)) as Hm. fold m in Hm.
  pose proof (Z.div_mod n (Zpos d) ltac:(lia)) as Hn. fold m in Hn.
  set (w := (m * 256) `div` Zpos d).
  assert (0 ≤ w < 256) as Hw.
  { subst w. split; [apply Z.div_pos; lia|]. apply Z.div_lt_upper_bound; lia. }
  assert (k = 256 * (n `div` Zpos d) + w) as Hk.
  { subst k w.
    replace (n * 256) with (256 * (n `div` Zpos d) * Zpos d + m * 256) by lia.
    by rewrite Z.div_add_l by lia. }
  assert (k `div` 256 = n `div` Zpos d) as Hdiv.
  { symmetry. apply (Z.div_unique k 256 _ w); lia. }
  assert (k `mod` 256 = w) as Hmod.
  { symmetry. apply (Z.mod_unique k 256 (n `div` Zpos d) w); lia. }
  split; [done|]. split.
  - rewrite Hmod. subst w.
    rewrite Z.div_div by lia.
    replace (m * 256) with (m * 32 * 8) by lia.
    by rewrite Z.div_mul_cancel_r by lia.
  - rewrite <- (Z.mod_mod_divide k 256 8) by (by exists 32). by rewrite Hmod.
Qed.

Lemma floor_fraction (p : Qc) : floor p = Qnum p `div` Zpos (Qden p).
Proof. by destruct p as [[n d] ?]. Qed.

Lemma floor_mul_int (p : Qc) (c : Z) :
  floor (p * Qc_of_Z c) = (Qnum p * c) `div` Zpos (Qden p).
Proof.
  rewrite (Qc_as_fraction p) at 1. by rewrite Qc_mul_int; unfold floor; rewrite Qfloor_Q2Qc.
Qed.

(** The string written for [k/256] is canonical and decodes to [k/256]. *)
Lemma ticks_decode (k : Z) :
  0 ≤ k → k `div` 256 ≤ INT_MAX →
  ∃ s, Price2Frac (Q2Qc (k # 256)) = Ok s ∧ canonical_encoded s ∧
       Frac2Price s = Ok (Q2Qc (k # 256)).
Proof.
  intros Hk Hmax. eexists. split; [by apply Price2Frac_ticks|].
  pose proof (Z.div_pos k 256 Hk ltac:(lia)) as Hdiv.
  pose proof (Z.mod_pos_bound k 256 ltac:(lia)) as Hr.
  pose proof (Z.mod_pos_bound k 8 ltac:(lia)) as Hz.
  set (xy := (k `mod` 256) `div` 8).
  assert (0 ≤ xy < 32) as Hxy.
  { split; [apply Z.div_pos; lia|]. apply Z.div_lt_upper_bound; lia. }
  pose proof (Z.div_pos xy 10 ltac:(lia) ltac:(lia)) as Hx1.
  assert (xy `div` 10 ≤ 9) as Hx1'.
  { apply Z.lt_succ_r, Z.div_lt_upper_bound; lia. }
  pose proof (Z.mod_pos_bound xy 10 ltac:(lia)) as Hx2.
  pose proof (Z.div_mod xy 10 ltac:(lia)) as Hxy10.
  assert (digit_val (digit_char (xy `div` 10)) = Some (xy `div` 10)) as Hd1
    by (apply digit_char_val; lia).
  assert (digit_val (digit_char (xy `mod` 10)) = Some (xy `mod` 10)) as Hd2
    by (apply digit_char_val; lia).
  destruct (to_string_digits (k `div` 256) Hdiv) as (Hne & Hall & Hval).
  split.
  - exists (k `div` 256), (digit_char (xy `div` 10)), (digit_char (xy `mod` 10)),
      (if bool_decide (k `mod` 8 = 4) then "+"%char else digit_char (k `mod` 8)),
      (xy `div` 10), (xy `mod` 10).
    split; [done|]. split; [lia|]. split; [done|]. split; [done|].
    split; [lia|]. case_bool_decide as Hz4; [by left|right].
    exists (k `mod` 8). split; [apply digit_char_val; lia|]. lia.
  - rewrite (Frac2Price_encoded _ _ _ _ (xy `div` 10) (xy `mod` 10) (k `mod` 8));
      [|done|done|done|done|].
    + rewrite Hval. do 2 f_equal.
      assert (k `mod` 256 = 8 * xy + k `mod` 8) as Hsplit.
      { rewrite <- (Z.mod_mod_divide k 256 8) by (by exists 32).
        apply Z.div_mod. lia. }
      pose proof (Z.div_mod k 256 ltac:(lia)). f_equal. lia.
    + case_bool_decide as Hz4; [by left|right]. apply digit_char_val. lia.
Qed.

Lemma Price2Frac_floor_ticks (p : Qc) :
  (0 ≤ p)%Qc → floor p ≤ INT_MAX →
  ∃ s, Price2Frac p = Ok s ∧ canonical_encoded s ∧
       Frac2Price s = Ok (Q2Qc (floor (p * Qc_of_Z 256) # 256)).
Proof.
  intros Hp Hmax. rewrite floor_mul_int. rewrite floor_fraction in Hmax.
  set (n := Qnum p) in *. set (d := Qden p) in *.
  set (k := (n * 256) `div` Zpos d).
  assert (0 ≤ n) as Hn.
  { unfold Qcle, Qle in Hp. simpl in Hp. fold n in Hp. lia. }
  destruct (ticks_of_fraction n d) as (Hdiv & Hxy & Hz). fold k in Hdiv, Hxy, Hz.
  assert (0 ≤ k) as Hk0 by (apply Z.div_pos; lia).
  destruct (ticks_decode k Hk0 ltac:(lia)) as (s & Hs & Hcanon & Hback).
  exists s. split; [|done].
  rewrite (Qc_as_fraction p). fold n d.
  destruct (Price2Frac_fraction n d) as (_ & _ & ->).
  { pose proof (Z.div_pos n (Zpos d) Hn ltac:(lia)).
    unfold in_int, INT_MIN. lia. }
  rewrite <- Hs, Price2Frac_ticks by lia.
  by rewrite Hdiv, Hxy, Hz.
Qed.

(** X3.  For every price [p] with [0 <= p] whose integer part fits [int],
    [Price2Frac] returns a canonical encoded string, and decoding it gives
    [p] rounded down to a multiple of 1/256: the largest such multiple that
    is not above [p]. *)
Theorem Price2Frac_rounds_down (p : Qc) :
  (0 ≤ p)%Qc → floor p ≤ INT_MAX →
  let k := floor (p * Qc_of_Z 256) in
  ∃ s, Price2Frac p = Ok s ∧ canonical_encoded s ∧
       Frac2Price s = Ok (Q2Qc (k # 256)) ∧
       (Q2Qc (k # 256) ≤ p)%Qc ∧ (p < Q2Qc ((k + 1) # 256))%Qc.
Proof.
  intros Hp Hmax k.
  destruct (Price2Frac_floor_ticks p Hp Hmax) as (s & Hs & Hcanon & Hback).
  exists s. split; [done|]. split; [done|]. split; [done|].
  subst k. rewrite floor_mul_int.
  set (n := Qnum p). set (d := Qden p). set (k := (n * 256) `div` Zpos d).
  pose proof (Z.mul_div_le (n * 256) (Zpos d) ltac:(lia)) as Hle.
  pose proof (Z.mod_pos_bound (n * 256) (Zpos d) ltac:(lia)) as Hmod.
  pose proof (Z.div_mod (n * 256) (Zpos d) ltac:(lia)) as Hdm.
  fold k in Hle, Hdm.
  rewrite (Qc_as_fraction p). fold n d.
  split.
  - unfold Qcle. change (Qred (k # 256) <= Qred (n # d))%Q.
    rewrite (Qred_correct (k # 256)), (Qred_correct (n # d)).
    unfold Qle. simpl. lia.
  - unfold Qclt. change (Qred (n # d) < Qred ((k + 1) # 256))%Q.
    rewrite (Qred_correct (k + 1 # 256)), (Qred_correct (n # d)).
    unfold Qlt. simpl. lia.
Qed.

Lemma Price2Frac_rounds_down_witness :
  (0 ≤ Q2Qc (50689 # 512))%Qc ∧ floor (Q2Qc (50689 # 512)) ≤ INT_MAX ∧
  floor (Q2Qc (50689 # 512) * Qc_of_Z 256) = 25344 ∧
  ∃ s, Price2Frac (Q2Qc (50689 # 512)) = Ok s ∧ Frac2Price s = Ok (Q2Qc (25344 # 256)).
Proof.
  assert (0 ≤ Q2Qc (50689 # 512))%Qc as Hp by discriminate.
  assert (floor (Q2Qc (50689 # 512)) ≤ INT_MAX) as Hmax by discriminate.
  split; [exact Hp|]. split; [exact Hmax|]. split; [reflexivity|].
  destruct (Price2Frac_rounds_down (Q2Qc (50689 # 512)) Hp Hmax) as (s & Hs & _ & Hback & _).
  exists s. split; [exact Hs | exact Hback].
Defined.

(** X4.  A negative price whose integer part fits [int] is encoded, but to a
    string that starts with the minus sign of its integer part: [Frac2Price]
    takes that sign for the separating dash, finds no number before it and
    throws. *)
Theorem Price2Frac_negative_not_decodable (p : Qc) :
  (p < 0)%Qc → INT_MIN ≤ floor p →
  ∃ s, Price2Frac p = Ok s ∧ Frac2Price s = Throw (invalid_argument "stod").
Proof.
  intros Hp Hmin. rewrite floor_fraction in Hmin. rewrite (Qc_as_fraction p).
  set (n := Qnum p) in *. set (d := Qden p) in *.
  assert (n < 0) as Hn.
  { unfold Qclt, Qlt in Hp. simpl in Hp. fold n in Hp. lia. }
  assert (n `div` Zpos d < 0) as Hneg.
  { apply Z.div_lt_upper_bound; lia. }
  destruct (Price2Frac_fraction n d) as (_ & _ & Hs).
  { unfold in_int, INT_MAX. lia. }
  eexists. split; [exact Hs|].
  destruct (n `div` Zpos d) as [|I|I] eqn:HI; [lia|lia|].
  reflexivity.
Qed.

Lemma Price2Frac_negative_not_decodable_witness :
  (Q2Qc (-1 # 256) < 0)%Qc ∧ INT_MIN ≤ floor (Q2Qc (-1 # 256)) ∧
  Price2Frac (Q2Qc (-1 # 256)) = Ok "-1-317" ∧
  ∃ s, Price2Frac (Q2Qc (-1 # 256)) = Ok s ∧
       Frac2Price s = Throw (invalid_argument "stod").
Proof.
  assert (Q2Qc (-1 # 256) < 0)%Qc as Hp by reflexivity.
  assert (INT_MIN ≤ floor (Q2Qc (-1 # 256))) as Hmin by discriminate.
  split; [exact Hp|]. split; [exact Hmin|]. split; [reflexivity|].
  exact (Price2Frac_negative_not_decodable (Q2Qc (-1 # 256)) Hp Hmin).
Defined.

End encoding.

(** ** utilities.hpp: identifiers *)

Section identifiers.

Lemma string_length_app (a b : string) :
  String.length (a +:+ b) = (String.length a + String.length b)%nat.
Proof.
  induction a as [|x a IH]; [done|].
  change (S (String.length (a +:+ b)) = S (String.length a + String.length b)).
  by rewrite IH.
Qed.

Lemma list_ascii_app (a b : string) :
  list_ascii_of_string (a +:+ b) = list_ascii_of_string a ++ list_ascii_of_string b.
Proof.
  induction a as [|x a IH]; [done|].
  change (x :: list_ascii_of_string (a +:+ b)
          = x :: (list_ascii_of_string a ++ list_ascii_of_string b)).
  by rewrite IH.
Qed.

Lemma random_char_alphanumeric (r : Z) :
  0 ≤ r →
  ∃ c, random_char r = String c "" ∧
       (is_Some (digit_val c) ∨ (65 ≤ N_of_ascii c ≤ 90)%N).
Proof.
  intros Hr. unfold random_char. rewrite Z.rem_mod_nonneg by lia.
  pose proof (Z.mod_pos_bound r 36 ltac:(lia)) as Hrandom.
  set (random := r `mod` 36) in *.
  case_bool_decide as Hdigit.
  - exists (digit_char random). split.
    + assert (random = 0 ∨ random = 1 ∨ random = 2 ∨ random = 3 ∨ random = 4 ∨
              random = 5 ∨ random = 6 ∨ random = 7 ∨ random = 8 ∨ random = 9)
        as Hcases by lia.
      repeat destruct Hcases as [->|Hcases]; try reflexivity. by rewrite Hcases.
    + left. rewrite digit_char_val by lia. eauto.
  - eexists. split; [reflexivity|]. right.
    rewrite N_ascii_embedding by lia. lia.
Qed.

Lemma GenerateRandomId_loop_spec (rand : nat → Z) (n j : nat) (id : string) :
  (∀ j, 0 ≤ rand j) →
  ∃ t, GenerateRandomId_loop rand j n id = id +:+ t ∧ String.length t = n ∧
       Forall (λ c, is_Some (digit_val c) ∨ (65 ≤ N_of_ascii c ≤ 90)%N)
              (list_ascii_of_string t).
Proof.
  intros Hrand. revert j id. induction n as [|n IH]; intros j id; simpl.
  - exists "". split; [|done].
    clear. induction id as [|x id IH]; [done|].
    change (String x id = String x (id +:+ "")). by rewrite <- IH.
  - destruct (random_char_alphanumeric (rand j) (Hrand j)) as (c & -> & Hc).
    destruct (IH (S j) (id +:+ String c "")) as (t & -> & Hlen & Hall).
    exists (String c t). split; [by rewrite string_app_assoc|].
    split; [simpl; by rewrite Hlen|]. by constructor.
Qed.

(** X5.  Whatever [rand()] returns, [GenerateRandomId(length)] is a string
    of [length] characters (none when [length] is negative), each of them a
    decimal digit or an upper-case letter.  The loop counter is an [int], so
    [length] is taken within its range. *)
Theorem GenerateRandomId_alphanumeric (rand : nat → Z) (length : Z) :
  (∀ j, 0 ≤ rand j) → length ≤ INT_MAX →
  String.length (GenerateRandomId rand length) = Z.to_nat length ∧
  Forall (λ c, is_Some (digit_val c) ∨ (65 ≤ N_of_ascii c ≤ 90)%N)
         (list_ascii_of_string (GenerateRandomId rand length)).
Proof.
  intros Hrand _. unfold GenerateRandomId.
  destruct (GenerateRandomId_loop_spec rand (Z.to_nat length) 0 "" Hrand)
    as (t & -> & Hlen & Hall).
  done.
Qed.

Lemma GenerateRandomId_alphanumeric_witness :
  (∀ j : nat, 0 ≤ Z.of_nat (7 * j + 30)) ∧ 5 ≤ INT_MAX ∧
  GenerateRandomId (λ j, Z.of_nat (7 * j + 30)) 5 = "U18FM" ∧
  String.length (GenerateRandomId (λ j, Z.of_nat (7 * j + 30)) 5) = 5%nat.
Proof.
  assert (∀ j : nat, 0 ≤ Z.of_nat (7 * j + 30)) as Hrand by (intros j; apply Nat2Z.is_nonneg).
  assert (5 ≤ INT_MAX) as Hlen by discriminate.
  split; [exact Hrand|]. split; [exact Hlen|]. split; [reflexivity|].
  exact (proj1 (GenerateRandomId_alphanumeric (λ j, Z.of_nat (7 * j + 30)) 5 Hrand Hlen)).
Defined.

End identifiers.

(** ** positionservice.hpp *)

Section positions.

Import Position Ledger.

Lemma wrap64_range (z : Z) : in_long (wrap64 z).
Proof.
  unfold in_long, LONG_MIN, LONG_MAX, wrap64.
  pose proof (Z.mod_pos_bound (z + 2 ^ 63) (2 ^ 64) ltac:(lia)). lia.
Qed.

Lemma wrap64_add_r (a b : Z) : wrap64 (a + wrap64 b) = wrap64 (a + b).
Proof. by rewrite Z.add_comm, wrap64_add_l, Z.add_comm. Qed.

Lemma wrap64_neg (q : Z) : LONG_MIN < q ≤ LONG_MAX → wrap64 (- q) = - q.
Proof. intros Hq. apply wrap64_in_long. unfold in_long, LONG_MIN, LONG_MAX in *. lia. Qed.

Lemma AddPosition_books (book : string) (position : Z) (p : Position) :
  GetProduct (AddPosition book position p) = GetProduct p ∧
  bookPositionData (AddPosition book position p)
  = <[book := match bookPositionData p !! book with
              | Some quantity => wrap64 (quantity + position)
              | None => position
              end]> (bookPositionData p).
Proof.
  unfold AddPosition, map_insert.
  by destruct (bookPositionData p !! book) eqn:Hbook; simpl; rewrite ?Hbook.
Qed.

Lemma aggregate_step (i : string) (x : Z) (m : gmap string Z) :
  m !! i = None →
  map_fold (λ (_ : string) quantity sum, wrap64 (sum + quantity)) 0 (<[i := x]> m)
  = wrap64 (map_fold (λ (_ : string) quantity sum, wrap64 (sum + quantity)) 0 m + x).
Proof.
  intros Hi. rewrite map_fold_insert_L; [done| |done].
  intros j1 j2 z1 z2 y _ _ _. rewrite !wrap64_add_l. f_equal. lia.
Qed.

Lemma GetAggregatePosition_long (p : Position) : in_long (GetAggregatePosition p).
Proof.
  unfold GetAggregatePosition.
  induction (bookPositionData p) as [|i x m Hi IH] using map_ind.
  - rewrite map_fold_empty. unfold in_long, LONG_MIN, LONG_MAX. lia.
  - rewrite aggregate_step by done. apply wrap64_range.
Qed.

Lemma GetAggregatePosition_AddPosition (book : string) (position : Z) (p : Position) :
  GetAggregatePosition (AddPosition book position p)
  = wrap64 (GetAggregatePosition p + position).
Proof.
  unfold GetAggregatePosition. rewrite (proj2 (AddPosition_books book position p)).
  destruct (bookPositionData p !! book) as [quantity|] eqn:Hbook.
  - rewrite <- (insert_delete_id (bookPositionData p) book quantity) at 2 by done.
    rewrite <- insert_delete_eq.
    rewrite !aggregate_step by apply lookup_delete_eq.
    rewrite wrap64_add_r, wrap64_add_l. f_equal. lia.
  - by apply aggregate_step.
Qed.

Lemma AddTrade_spec (trade : TradeBooking.Trade) (s : PositionService) :
  let productId := GetProductId (TradeBooking.GetProduct trade) in
  let quantity :=
    if bool_decide (TradeBooking.GetSide trade = TradeBooking.BUY)
    then TradeBooking.GetQuantity trade else wrap64 (- TradeBooking.GetQuantity trade) in
  let position :=
    AddPosition (TradeBooking.GetBook trade) quantity
      (default (Position_ctor (TradeBooking.GetProduct trade))
         (positionData s !! productId)) in
  AddTrade trade s
  = (mkService (<[productId := position]> (positionData s)) (listeners s)
       (notified s ++ ((λ l, (l, position)) <$> listeners s)), Ok tt).
Proof.
  intros productId quantity position. unfold AddTrade. fold productId quantity.
  subst position.
  destruct (positionData s !! productId) as [old|] eqn:Hold; simpl.
  - rewrite lookup_insert_eq. by destruct (listeners s).
  - unfold map_insert. rewrite Hold, lookup_insert_eq. by destruct (listeners s).
Qed.

End positions.

Section position_properties.

Import Position Ledger.

(** X6.  [AddTrade] always returns normally.  Afterwards [GetData] of the
    product identifier of the trade returns the position that every listener
    has just been called with, once each in registration order; the product
    of an existing position is kept, the positions of the other products and
    the other books of this position are what they were. *)
Theorem AddTrade_then_GetData (trade : TradeBooking.Trade) (s : PositionService) :
  let productId := GetProductId (TradeBooking.GetProduct trade) in
  let book := TradeBooking.GetBook trade in
  ∃ s' position,
    AddTrade trade s = (s', Ok tt) ∧
    GetData productId s' = (s', Ok position) ∧
    listeners s' = listeners s ∧
    notified s' = notified s ++ ((λ l, (l, position)) <$> listeners s) ∧
    (∀ other, other ≠ productId → positionData s' !! other = positionData s !! other) ∧
    (∀ old, positionData s !! productId = Some old →
            GetProduct position = GetProduct old ∧
            ∀ other, other ≠ book →
                     bookPositionData position !! other = bookPositionData old !! other) ∧
    (positionData s !! productId = None →
     GetProduct position = TradeBooking.GetProduct trade ∧
     ∀ other, other ≠ book → bookPositionData position !! other = None).
Proof.
  intros productId book. rewrite AddTrade_spec. fold productId book.
  eexists _, _. split; [reflexivity|].
  unfold GetData. cbn [positionData listeners notified]. rewrite lookup_insert_eq.
  split; [reflexivity|]. split; [reflexivity|]. split; [reflexivity|].
  split; [|split].
  - intros other Hother. by rewrite lookup_insert_ne.
  - intros old ->. simpl. destruct (AddPosition_books book
      (if bool_decide (TradeBooking.GetSide trade = TradeBooking.BUY)
       then TradeBooking.GetQuantity trade
       else wrap64 (- TradeBooking.GetQuantity trade)) old) as [-> ->].
    split; [done|]. intros other Hother. by rewrite lookup_insert_ne.
  - intros ->. simpl. destruct (AddPosition_books book
      (if bool_decide (TradeBooking.GetSide trade = TradeBooking.BUY)
       then TradeBooking.GetQuantity trade
       else wrap64 (- TradeBooking.GetQuantity trade))
      (Position_ctor (TradeBooking.GetProduct trade))) as [-> ->].
    split; [done|]. intros other Hother. by rewrite lookup_insert_ne.
Qed.

Lemma AddTrade_then_GetData_witness :
  let trade := TradeBooking.mkTrade Samples.US2Y "T1" (Q2Qc (99 # 1)) "TRSY1" 100
                 TradeBooking.SELL in
  let position := mkPosition Samples.US2Y {["TRSY1" := -100]} in
  ∃ s',
    AddTrade trade (AddListener 4%nat new) = (s', Ok tt) ∧
    GetData "9128283H1" s' = (s', Ok position) ∧
    notified s' = [(4%nat, position)].
Proof.
  intros trade position.
  destruct (AddTrade_then_GetData trade (AddListener 4%nat new))
    as (s' & position' & Hrun & Hget & _ & Hnote & _).
  assert (position' = position) as ->.
  { rewrite AddTrade_spec in Hrun. injection Hrun as <-.
    unfold GetData in Hget. simpl in Hget. by injection Hget as <-. }
  exists s'. split; [exact Hrun|]. split; [exact Hget|]. exact Hnote.
Defined.

Lemma AddTrade_step (trade : TradeBooking.Trade) (s : PositionService)
    (productId book : string) :
  stored_long s →
  LONG_MIN < TradeBooking.GetQuantity trade ≤ LONG_MAX →
  let s' := (AddTrade trade s).1 in
  stored_long s' ∧
  book_position s' productId book
  = wrap64 (book_position s productId book + net_book productId book [trade]) ∧
  aggregate_position s' productId
  = wrap64 (aggregate_position s productId + net_product productId [trade]).
Proof.
  intros Hlong Hq s'. subst s'. rewrite AddTrade_spec. cbn [fst].
  set (pid := GetProductId (TradeBooking.GetProduct trade)).
  set (bk := TradeBooking.GetBook trade).
  assert ((if bool_decide (TradeBooking.GetSide trade = TradeBooking.BUY)
           then TradeBooking.GetQuantity trade
           else wrap64 (- TradeBooking.GetQuantity trade)) = signed_quantity trade) as ->.
  { unfold signed_quantity. case_bool_decide; [done|]. by apply wrap64_neg. }
  assert (in_long (signed_quantity trade)) as Hsigned.
  { unfold signed_quantity, in_long, LONG_MIN, LONG_MAX in *. case_bool_decide; lia. }
  set (old := default (Position_ctor (TradeBooking.GetProduct trade)) (positionData s !! pid)).
  assert (∀ b v, bookPositionData old !! b = Some v → in_long v) as Hold.
  { intros b v. subst old. destruct (positionData s !! pid) as [p|] eqn:Hp; simpl.
    - by apply (Hlong pid p b v).
    - by rewrite lookup_empty. }
  assert (book_position s pid bk = default 0 (bookPositionData old !! bk)) as Hbp.
  { unfold book_position. subst old. by destruct (positionData s !! pid). }
  assert (aggregate_position s pid = GetAggregatePosition old) as Hagg.
  { unfold aggregate_position. subst old. by destruct (positionData s !! pid). }
  destruct (AddPosition_books bk (signed_quantity trade) old) as [_ Hbooks].
  split; [|split].
  - intros pid' p b v. cbn [positionData]. rewrite lookup_insert.
    case_decide as Hpid; [|by apply Hlong].
    intros [= <-]. rewrite Hbooks, lookup_insert. case_decide as Hb; [|by apply Hold].
    intros [= <-]. destruct (bookPositionData old !! bk); [apply wrap64_range|done].
  - unfold book_position at 1, net_book. cbn [positionData foldr].
    rewrite lookup_insert, Z.add_0_r. case_decide as Hpid.
    + subst productId. rewrite Hbooks, lookup_insert. case_decide as Hb.
      * subst book. rewrite bool_decide_eq_true_2 by done. rewrite Hbp. simpl.
        destruct (bookPositionData old !! bk) as [v|] eqn:Hv; simpl; [done|].
        by rewrite Z.add_0_l, wrap64_in_long.
      * rewrite bool_decide_eq_false_2 by (intros [_ ?]; done).
        rewrite Z.add_0_r.
        assert (book_position s pid book = default 0 (bookPositionData old !! book)) as ->.
        { unfold book_position. subst old. by destruct (positionData s !! pid). }
        symmetry. apply wrap64_in_long.
        destruct (bookPositionData old !! book) as [v|] eqn:Hv; simpl; [by eapply Hold|].
        unfold in_long, LONG_MIN, LONG_MAX. lia.
    + rewrite bool_decide_eq_false_2 by (intros [? _]; done).
      rewrite Z.add_0_r. fold (book_position s productId book).
      symmetry. apply wrap64_in_long. unfold book_position.
      destruct (positionData s !! productId) as [p|] eqn:Hp;
        [|unfold in_long, LONG_MIN, LONG_MAX; lia].
      destruct (bookPositionData p !! book) as [v|] eqn:Hv; simpl;
        [by apply (Hlong productId p book v)|].
      unfold in_long, LONG_MIN, LONG_MAX. lia.
  - unfold aggregate_position at 1, net_product. cbn [positionData foldr].
    rewrite lookup_insert, Z.add_0_r. case_decide as Hpid.
    + subst productId. rewrite bool_decide_eq_true_2 by done.
      by rewrite GetAggregatePosition_AddPosition, Hagg.
    + rewrite bool_decide_eq_false_2 by done. rewrite Z.add_0_r.
      fold (aggregate_position s productId). symmetry. apply wrap64_in_long.
      unfold aggregate_position.
      destruct (positionData s !! productId); [apply GetAggregatePosition_long|].
      unfold in_long, LONG_MIN, LONG_MAX. lia.
Qed.

(** X7.  Positions are the sums of the trades.  After a sequence of trades
    has gone through [AddTrade], the position of each product in each book is
    what it was plus the quantities bought minus the quantities sold for that
    product in that book, and the aggregate position of each product is what
    it was plus the same sum over all books, both in 64-bit arithmetic. *)
Theorem positions_are_net_trades (trades : list TradeBooking.Trade) (s : PositionService)
    (productId book : string) :
  stored_long s →
  Forall (λ trade, LONG_MIN < TradeBooking.GetQuantity trade ≤ LONG_MAX) trades →
  let s' := add_trades trades s in
  stored_long s' ∧
  book_position s' productId book
  = wrap64 (book_position s productId book + net_book productId book trades) ∧
  aggregate_position s' productId
  = wrap64 (aggregate_position s productId + net_product productId trades).
Proof.
  intros Hlong Hall. revert s Hlong.
  induction Hall as [|trade trades Hq _ IH]; intros s Hlong; cbn zeta.
  - split; [done|]. unfold add_trades, net_book, net_product. simpl.
    rewrite !Z.add_0_r. split; symmetry; apply wrap64_in_long.
    + unfold book_position.
      destruct (positionData s !! productId) as [p|] eqn:Hp;
        [|unfold in_long, LONG_MIN, LONG_MAX; lia].
      destruct (bookPositionData p !! book) as [v|] eqn:Hv; simpl;
        [by apply (Hlong productId p book v)|].
      unfold in_long, LONG_MIN, LONG_MAX. lia.
    + unfold aggregate_position.
      destruct (positionData s !! productId); [apply GetAggregatePosition_long|].
      unfold in_long, LONG_MIN, LONG_MAX. lia.
  - destruct (AddTrade_step trade s productId book Hlong Hq) as (Hlong1 & Hbook1 & Hagg1).
    destruct (IH _ Hlong1) as (Hlong2 & Hbook2 & Hagg2). cbn zeta in *.
    change (add_trades (trade :: trades) s) with (add_trades trades (AddTrade trade s).1).
    split; [done|]. rewrite Hbook2, Hagg2, Hbook1, Hagg1, !wrap64_add_l.
    unfold net_book, net_product. simpl. rewrite !Z.add_0_r.
    split; f_equal; lia.
Qed.

Lemma positions_are_net_trades_witness :
  stored_long new ∧
  Forall (λ trade, LONG_MIN < TradeBooking.GetQuantity trade ≤ LONG_MAX)
         Samples.position_trades ∧
  book_position (add_trades Samples.position_trades new) "9128283H1" "A" = 110 ∧
  book_position (add_trades Samples.position_trades new) "9128283H1" "B" = -40 ∧
  aggregate_position (add_trades Samples.position_trades new) "9128283H1" = 70.
Proof.
  assert (stored_long new) as Hnew.
  { intros productId p book quantity Hp. discriminate Hp. }
  assert (Forall (λ trade, LONG_MIN < TradeBooking.GetQuantity trade ≤ LONG_MAX)
            Samples.position_trades) as Hall.
  { repeat (constructor; [unfold LONG_MIN, LONG_MAX; simpl; lia|]). constructor. }
  split; [exact Hnew|]. split; [exact Hall|].
  destruct (positions_are_net_trades Samples.position_trades new "9128283H1" "A" Hnew Hall)
    as (_ & HA & Hagg).
  destruct (positions_are_net_trades Samples.position_trades new "9128283H1" "B" Hnew Hall)
    as (_ & HB & _).
  cbn zeta in *. rewrite HA, HB, Hagg. repeat split.
Defined.

(** X8.  Reading the position of a book that the position does not have yet
    returns 0 and leaves an entry with value 0 for that book behind; the
    aggregate position is not changed by it.  Reading a book that is there
    returns its quantity and changes nothing. *)
Theorem GetPosition_creates_zero (book : string) (p : Position) :
  (bookPositionData p !! book = None →
   (GetPosition book p).2 = 0 ∧
   bookPositionData (GetPosition book p).1 !! book = Some 0 ∧
   (∀ other, other ≠ book →
      bookPositionData (GetPosition book p).1 !! other = bookPositionData p !! other) ∧
   GetAggregatePosition (GetPosition book p).1 = GetAggregatePosition p) ∧
  (∀ quantity, bookPositionData p !! book = Some quantity →
               GetPosition book p = (p, quantity)).
Proof.
  unfold GetPosition. split.
  - intros Hbook. rewrite Hbook. simpl.
    split; [done|]. split; [apply lookup_insert_eq|]. split.
    + intros other Hother. by rewrite lookup_insert_ne.
    + unfold GetAggregatePosition at 1. simpl. rewrite aggregate_step by done.
      rewrite Z.add_0_r. apply wrap64_in_long, GetAggregatePosition_long.
  - by intros quantity ->.
Qed.

Lemma GetPosition_creates_zero_witness :
  bookPositionData (Position_ctor Samples.US2Y) !! "TRSY1" = None ∧
  GetPosition "TRSY1" (Position_ctor Samples.US2Y)
  = (mkPosition Samples.US2Y {["TRSY1" := 0]}, 0) ∧
  GetAggregatePosition (GetPosition "TRSY1" (Position_ctor Samples.US2Y)).1 = 0.
Proof.
  split; [reflexivity|]. split; [reflexivity|].
  destruct (proj1 (GetPosition_creates_zero "TRSY1" (Position_ctor Samples.US2Y)) eq_refl)
    as (_ & _ & _ & ->).
  reflexivity.
Defined.

End position_properties.

Section inquiries.

Import Inquiry.

Lemma OnMessage_quoted (depth : nat) (data : Inquiry) (s : InquiryService) :
  GetState data = QUOTED →
  let done := SetState DONE data in
  let calls := (λ l, (l, done)) <$> listeners s in
  OnMessage (S depth) data s
  = Some (mkService (delete (GetInquiryId data) (inquiryData s)) (listeners s)
            (notified s ++ calls ++ calls), Ok done).
Proof.
  intros Hstate. simpl. rewrite Hstate. simpl.
  unfold notify, set_inquiryData. simpl. rewrite <- app_assoc. do 3 f_equal.
  apply map_eq. intros k. destruct (decide (k = GetInquiryId data)) as [->|Hk].
  - by rewrite !lookup_delete_eq.
  - rewrite !lookup_delete_ne by done. unfold map_insert.
    case_bool_decide as Hin.
    + rewrite lookup_delete_eq. by rewrite lookup_insert_ne, lookup_delete_ne.
    + apply eq_None_not_Some in Hin. rewrite Hin. by rewrite lookup_insert_ne.
Qed.

Lemma OnMessage_received (depth : nat) (data : Inquiry) (s : InquiryService) :
  GetState data = RECEIVED →
  OnMessage (S depth) data s
  = match OnMessage depth (SetState QUOTED data) s with
    | Some (s, Ok data) =>
        if bool_decide (GetState data = DONE) then
          Some (notify data (set_inquiryData (delete (GetInquiryId data)) s), Ok data)
        else
          match inquiryData s !! GetInquiryId data with
          | Some _ =>
              Some (notify data (set_inquiryData (insert (GetInquiryId data) data) s),
                    Ok data)
          | None => Some (s, Undefined)
          end
    | other => other
    end.
Proof.
  intros Hstate. simpl. rewrite Hstate. unfold Publish, SubscribeUpdate.
  rewrite bool_decide_eq_true_2 by done.
  by destruct (OnMessage depth (SetState QUOTED data) s) as [[? [| |]]|].
Qed.

Lemma OnMessage_done (depth : nat) (data : Inquiry) (s : InquiryService) :
  GetState data = DONE →
  OnMessage (S depth) data s
  = Some (mkService (delete (GetInquiryId data) (inquiryData s)) (listeners s)
            (notified s ++ ((λ l, (l, data)) <$> listeners s)), Ok data).
Proof. intros Hstate. simpl. rewrite Hstate. simpl. by rewrite Hstate. Qed.

Lemma OnMessage_received_done (depth : nat) (data : Inquiry) (s : InquiryService) :
  GetState data = RECEIVED →
  let done := SetState DONE data in
  let calls := (λ l, (l, done)) <$> listeners s in
  OnMessage (S (S depth)) data s
  = Some (mkService (delete (GetInquiryId data) (inquiryData s)) (listeners s)
            (notified s ++ calls ++ calls ++ calls), Ok done).
Proof.
  intros Hstate. rewrite (OnMessage_received (S depth) data s Hstate).
  rewrite (OnMessage_quoted depth (SetState QUOTED data) s eq_refl).
  cbn zeta. simpl. unfold notify, set_inquiryData. simpl.
  rewrite <- !app_assoc. do 3 f_equal.
  apply map_eq. intros k. destruct (decide (k = GetInquiryId data)) as [->|Hk].
  - by rewrite !lookup_delete_eq.
  - by rewrite !lookup_delete_ne.
Qed.

Lemma OnMessage_rejected (depth : nat) (data : Inquiry) (s : InquiryService) :
  GetState data = REJECTED ∨ GetState data = CUSTOMER_REJECTED →
  OnMessage (S depth) data s
  = match inquiryData s !! GetInquiryId data with
    | Some _ =>
        Some (mkService (<[GetInquiryId data := data]> (inquiryData s)) (listeners s)
                (notified s ++ ((λ l, (l, data)) <$> listeners s)), Ok data)
    | None => Some (s, Undefined)
    end.
Proof. intros [Hstate|Hstate]; simpl; rewrite Hstate; simpl; by rewrite Hstate. Qed.

Lemma SetState_same (data : Inquiry) : SetState (GetState data) data = data.
Proof. by destruct data. Qed.

(** X9.  The life of an inquiry inside [OnMessage].  An inquiry that arrives
    RECEIVED is sent to the connector, comes back QUOTED and is completed: the
    call returns with the inquiry in state DONE, every listener has been
    called three times with the DONE inquiry, and the service holds no inquiry
    under its identifier.  An inquiry that arrives QUOTED is completed with
    two calls of every listener, one that arrives DONE is removed with one.
    Price, side, quantity and product are never changed. *)
Theorem OnMessage_completes_inquiry (depth : nat) (data : Inquiry) (s : InquiryService) :
  let done := SetState DONE data in
  let calls := (λ l, (l, done)) <$> listeners s in
  let store := delete (GetInquiryId data) (inquiryData s) in
  (GetState data = RECEIVED →
   OnMessage (S (S depth)) data s
   = Some (mkService store (listeners s) (notified s ++ calls ++ calls ++ calls), Ok done)) ∧
  (GetState data = QUOTED →
   OnMessage (S depth) data s
   = Some (mkService store (listeners s) (notified s ++ calls ++ calls), Ok done)) ∧
  (GetState data = DONE →
   OnMessage (S depth) data s
   = Some (mkService store (listeners s) (notified s ++ calls), Ok done)).
Proof.
  cbn zeta. split; [|split]; intros Hstate.
  - by rewrite (OnMessage_received_done depth data s Hstate).
  - by rewrite (OnMessage_quoted depth data s Hstate).
  - rewrite (OnMessage_done depth data s Hstate).
    by rewrite <- Hstate, SetState_same.
Qed.

Lemma OnMessage_completes_inquiry_witness :
  GetState Samples.sample_inquiry = RECEIVED ∧
  ∃ s, OnMessage 2 Samples.sample_inquiry (AddListener 9%nat new)
       = Some (s, Ok (SetState DONE Samples.sample_inquiry)) ∧
       inquiryData s !! "I0000000001A" = None ∧
       length (notified s) = 3%nat.
Proof.
  split; [reflexivity|].
  eexists. split.
  - apply (proj1 (OnMessage_completes_inquiry 0 Samples.sample_inquiry
                    (AddListener 9%nat new))). reflexivity.
  - split; reflexivity.
Defined.

Lemma OnMessage_keeps_absent (depth : nat) (data : Inquiry) (s s' : InquiryService)
    (r : outcome Inquiry) :
  OnMessage depth data s = Some (s', r) →
  listeners s' = listeners s ∧
  (∀ key, inquiryData s !! key = None → inquiryData s' !! key = None) ∧
  (∀ e, r ≠ Throw e) ∧
  (r = Undefined ↔
   (GetState data = REJECTED ∨ GetState data = CUSTOMER_REJECTED) ∧
   inquiryData s !! GetInquiryId data = None).
Proof.
  destruct depth as [|depth]; [done|].
  destruct (GetState data) eqn:Hstate.
  - destruct depth as [|depth].
    { rewrite (OnMessage_received 0 data s Hstate). done. }
    rewrite (OnMessage_received_done depth data s Hstate). cbn zeta.
    intros [= <- <-]. simpl. split; [done|]. split; [|split; [done|]].
    + intros key Hkey. destruct (decide (key = GetInquiryId data)) as [->|Hne].
      * apply lookup_delete_eq.
      * by rewrite lookup_delete_ne.
    + split; [done|]. intros [[?|?] _]; done.
  - rewrite (OnMessage_quoted depth data s Hstate). cbn zeta.
    intros [= <- <-]. simpl. split; [done|]. split; [|split; [done|]].
    + intros key Hkey. destruct (decide (key = GetInquiryId data)) as [->|Hne].
      * apply lookup_delete_eq.
      * by rewrite lookup_delete_ne.
    + split; [done|]. intros [[?|?] _]; done.
  - rewrite (OnMessage_done depth data s Hstate).
    intros [= <- <-]. simpl. split; [done|]. split; [|split; [done|]].
    + intros key Hkey. destruct (decide (key = GetInquiryId data)) as [->|Hne].
      * apply lookup_delete_eq.
      * by rewrite lookup_delete_ne.
    + split; [done|]. intros [[?|?] _]; done.
  - rewrite (OnMessage_rejected depth data s) by (rewrite Hstate; by left).
    destruct (inquiryData s !! GetInquiryId data) as [old|] eqn:Hold.
    + intros [= <- <-]. simpl. split; [done|]. split; [|split; [done|]].
      * intros key Hkey. rewrite lookup_insert_ne; [done|]. by intros <-; rewrite Hold in Hkey.
      * split; [done|]. intros [_ ?]; done.
    + intros [= <- <-]. split; [done|]. split; [done|]. split; [done|].
      split; [|done]. intros _. split; [by left|done].
  - rewrite (OnMessage_rejected depth data s) by (rewrite Hstate; by right).
    destruct (inquiryData s !! GetInquiryId data) as [old|] eqn:Hold.
    + intros [= <- <-]. simpl. split; [done|]. split; [|split; [done|]].
      * intros key Hkey. rewrite lookup_insert_ne; [done|]. by intros <-; rewrite Hold in Hkey.
      * split; [done|]. intros [_ ?]; done.
    + intros [= <- <-]. split; [done|]. split; [done|]. split; [done|].
      split; [|done]. intros _. split; [by right|done].
Qed.

Lemma Subscribe_received (depth : nat) (lines : list string)
    (inquiries : list Inquiry) (s : InquiryService) :
  Forall2 (λ line inquiry, read_record line = Ok inquiry ∧ GetState inquiry = RECEIVED)
          lines inquiries →
  Subscribe (S (S depth)) lines s
  = Some (mkService
            (foldl (λ m inquiry, delete (GetInquiryId inquiry) m) (inquiryData s) inquiries)
            (listeners s)
            (notified s ++
             (inquiries ≫= λ inquiry,
                let calls := (λ l, (l, SetState DONE inquiry)) <$> listeners s in
                calls ++ calls ++ calls)), Ok tt).
Proof.
  intros Hall. revert s.
  induction Hall as [|line inquiry lines inquiries [Hread Hstate] _ IH]; intros s.
  - simpl. rewrite app_nil_r. by destruct s.
  - change (Subscribe (S (S depth)) (line :: lines) s) with
      (match read_record line with
       | Ok inquiry =>
           match OnMessage (S (S depth)) inquiry s with
           | Some (s', Ok _) => Subscribe (S (S depth)) lines s'
           | Some (s', Throw e) => Some (s', Throw e)
           | Some (s', Undefined) => Some (s', Undefined)
           | None => None
           end
       | Throw e => Some (s, Throw e)
       | Undefined => Some (s, Undefined)
       end).
    rewrite Hread, (OnMessage_received_done depth inquiry s Hstate). cbn zeta.
    rewrite IH. simpl. by rewrite <- !app_assoc.
Qed.

Lemma foldl_delete_lookup (inquiries : list Inquiry) (m : gmap string Inquiry)
    (key : string) :
  foldl (λ m inquiry, delete (GetInquiryId inquiry) m) m inquiries !! key
  = if bool_decide (key ∈ GetInquiryId <$> inquiries) then None else m !! key.
Proof.
  revert m. induction inquiries as [|inquiry inquiries IH]; intros m.
  - by rewrite bool_decide_eq_false_2 by apply not_elem_of_nil.
  - cbn [foldl]. rewrite IH, fmap_cons.
    destruct (decide (key = GetInquiryId inquiry)) as [->|Hne].
    + rewrite lookup_delete_eq.
      rewrite (bool_decide_eq_true_2 (_ ∈ _ :: _)) by left.
      by case_bool_decide.
    + rewrite lookup_delete_ne by done.
      assert (bool_decide (key ∈ GetInquiryId <$> inquiries)
              = bool_decide (key ∈ GetInquiryId inquiry :: (GetInquiryId <$> inquiries)))
        as ->; [|done].
      apply bool_decide_ext. rewrite elem_of_cons. split; [by right|]. by intros [?|?].
Qed.

(** X10.  [Subscribe] on a file of inquiries that are all RECEIVED returns
    normally and has completed every one of them: each listener has been
    called three times per record, in file order, with the inquiry of the
    record in state DONE; afterwards [GetData] throws for every identifier of
    the file, and the inquiries stored under other identifiers are what they
    were. *)
Theorem Subscribe_completes_inquiries (depth : nat) (lines : list string)
    (inquiries : list Inquiry) (s : InquiryService) :
  Forall2 (λ line inquiry, read_record line = Ok inquiry ∧ GetState inquiry = RECEIVED)
          lines inquiries →
  ∃ s',
    Subscribe (S (S depth)) lines s = Some (s', Ok tt) ∧
    listeners s' = listeners s ∧
    notified s'
    = notified s ++
      (inquiries ≫= λ inquiry,
         let calls := (λ l, (l, SetState DONE inquiry)) <$> listeners s in
         calls ++ calls ++ calls) ∧
    (∀ inquiry, inquiry ∈ inquiries →
       GetData (GetInquiryId inquiry) s' = (s', Throw (runtime_error "Key not found"))) ∧
    (∀ key, key ∉ GetInquiryId <$> inquiries →
            inquiryData s' !! key = inquiryData s !! key).
Proof.
  intros Hall. eexists. split; [by apply Subscribe_received|].
  split; [done|]. split; [done|]. split.
  - intros inquiry Hin. unfold GetData. cbn [inquiryData].
    rewrite foldl_delete_lookup, bool_decide_eq_true_2; [done|].
    by apply list_elem_of_fmap_2.
  - intros key Hkey. cbn [inquiryData].
    by rewrite foldl_delete_lookup, bool_decide_eq_false_2.
Qed.

Lemma Subscribe_completes_inquiries_witness :
  ∃ i1 i2 s,
    Forall2 (λ line inquiry, read_record line = Ok inquiry ∧ GetState inquiry = RECEIVED)
            [Samples.inquiry_record1; Samples.inquiry_record2] [i1; i2] ∧
    Subscribe 2 [Samples.inquiry_record1; Samples.inquiry_record2] (AddListener 9%nat new)
    = Some (s, Ok tt) ∧
    GetData "I0000000001A" s = (s, Throw (runtime_error "Key not found")) ∧
    notified s = [(9%nat, SetState DONE i1); (9%nat, SetState DONE i1);
                  (9%nat, SetState DONE i1); (9%nat, SetState DONE i2);
                  (9%nat, SetState DONE i2); (9%nat, SetState DONE i2)].
Proof.
  destruct (read_record Samples.inquiry_record1) as [i1| |] eqn:H1;
    [|vm_compute in H1; discriminate..].
  destruct (read_record Samples.inquiry_record2) as [i2| |] eqn:H2;
    [|vm_compute in H2; discriminate..].
  assert (GetState i1 = RECEIVED) as Hs1.
  { vm_compute in H1. by injection H1 as <-. }
  assert (GetState i2 = RECEIVED) as Hs2.
  { vm_compute in H2. by injection H2 as <-. }
  assert (GetInquiryId i1 = "I0000000001A") as Hid.
  { vm_compute in H1. by injection H1 as <-. }
  assert (Forall2 (λ line inquiry, read_record line = Ok inquiry ∧ GetState inquiry = RECEIVED)
            [Samples.inquiry_record1; Samples.inquiry_record2] [i1; i2]) as Hall.
  { repeat constructor; done. }
  destruct (Subscribe_completes_inquiries 0 _ _ (AddListener 9%nat new) Hall)
    as (s & Hrun & _ & Hnote & Hget & _).
  exists i1, i2, s. split; [exact Hall|]. split; [exact Hrun|]. split.
  - rewrite <- Hid. apply Hget. left.
  - exact Hnote.
Defined.

Lemma Subscribe_keeps_absent (depth : nat) (lines : list string) (s s' : InquiryService)
    (r : outcome unit) (key : string) :
  Subscribe depth lines s = Some (s', r) →
  inquiryData s !! key = None → inquiryData s' !! key = None.
Proof.
  revert s. induction lines as [|line lines IH]; intros s Hrun Hkey.
  - simpl in Hrun. by injection Hrun as <- <-.
  - simpl in Hrun. destruct (read_record line) as [inquiry|e|].
    + destruct (OnMessage depth inquiry s) as [[s1 [d|e|]]|] eqn:Hon; [..|done].
      * apply (IH s1 Hrun).
        by apply (OnMessage_keeps_absent depth inquiry s s1 (Ok d) Hon).
      * injection Hrun as <- <-.
        by apply (OnMessage_keeps_absent depth inquiry s s1 _ Hon).
      * injection Hrun as <- <-.
        by apply (OnMessage_keeps_absent depth inquiry s s1 _ Hon).
    + by injection Hrun as <- <-.
    + by injection Hrun as <- <-.
Qed.

Lemma OnMessage_returns (depth : nat) (data : Inquiry) (s : InquiryService) :
  ∃ s' r, OnMessage (S (S depth)) data s = Some (s', r).
Proof.
  destruct (GetState data) eqn:Hstate.
  - rewrite (OnMessage_received_done depth data s Hstate). eauto.
  - rewrite (OnMessage_quoted (S depth) data s Hstate). eauto.
  - rewrite (OnMessage_done (S depth) data s Hstate). eauto.
  - rewrite (OnMessage_rejected (S depth) data s) by (rewrite Hstate; by left).
    destruct (inquiryData s !! GetInquiryId data); eauto.
  - rewrite (OnMessage_rejected (S depth) data s) by (rewrite Hstate; by right).
    destruct (inquiryData s !! GetInquiryId data); eauto.
Qed.

Lemma Subscribe_returns (depth : nat) (lines : list string) (s : InquiryService) :
  ∃ s' r, Subscribe (S (S depth)) lines s = Some (s', r).
Proof.
  revert s. induction lines as [|line lines IH]; intros s; [simpl; eauto|].
  change (Subscribe (S (S depth)) (line :: lines) s) with
    (match read_record line with
     | Ok inquiry =>
         match OnMessage (S (S depth)) inquiry s with
         | Some (s', Ok _) => Subscribe (S (S depth)) lines s'
         | Some (s', Throw e) => Some (s', Throw e)
         | Some (s', Undefined) => Some (s', Undefined)
         | None => None
         end
     | Throw e => Some (s, Throw e)
     | Undefined => Some (s, Undefined)
     end).
  destruct (read_record line) as [inquiry|e|]; [|eauto..].
  destruct (OnMessage_returns depth inquiry s) as (s1 & r1 & ->).
  destruct r1 as [d|e|]; [apply IH|eauto..].
Qed.

(** X11.  The inquiry service never gains an entry.  Every call of
    [OnMessage] and of [Subscribe] comes to an end, and an identifier that the
    store does not hold before the call is not held after it, so that
    [GetData] of it throws: on a service that starts empty [GetData] throws
    for every key at every time.  [OnMessage] returns normally, except for an
    inquiry that arrives REJECTED or CUSTOMER_REJECTED under an identifier
    that is not in the store: there [inquiryData[id] = data]
    default-constructs an [Inquiry<Bond>], whose [Bond()] builds a string from
    a null pointer, which is undefined behaviour, and the service is left as
    it was. *)
Theorem inquiry_store_never_grows (depth : nat) (key : string) :
  (∀ data s,
     inquiryData s !! key = None →
     let rejected_unknown :=
       (GetState data = REJECTED ∨ GetState data = CUSTOMER_REJECTED) ∧
       inquiryData s !! GetInquiryId data = None in
     ∃ s' r,
       OnMessage (S (S depth)) data s = Some (s', r) ∧
       inquiryData s' !! key = None ∧
       GetData key s' = (s', Throw (runtime_error "Key not found")) ∧
       (rejected_unknown → r = Undefined ∧ s' = s) ∧
       (¬ rejected_unknown → ∃ d, r = Ok d)) ∧
  (∀ lines s,
     inquiryData s !! key = None →
     ∃ s' r,
       Subscribe (S (S depth)) lines s = Some (s', r) ∧
       inquiryData s' !! key = None ∧
       GetData key s' = (s', Throw (runtime_error "Key not found"))).
Proof.
  assert (∀ s, inquiryData s !! key = None →
               GetData key s = (s, Throw (runtime_error "Key not found"))) as Hget.
  { intros s Hs. unfold GetData. by rewrite Hs. }
  split.
  - intros data s Hkey. cbn zeta.
    destruct (OnMessage_returns depth data s) as (s' & r & Hrun).
    destruct (OnMessage_keeps_absent _ data s s' r Hrun) as (_ & Habs & Hthrow & Hub).
    exists s', r. split; [done|]. split; [by apply Habs|].
    split; [by apply Hget, Habs|]. split.
    + intros [Hstate Hid]. split; [by apply Hub|].
      rewrite (OnMessage_rejected (S depth) data s Hstate), Hid in Hrun.
      by injection Hrun as <- _.
    + intros Hnot. destruct r as [d|e|]; [by exists d|by destruct (Hthrow e)|].
      destruct Hnot. by apply Hub.
  - intros lines s Hkey.
    destruct (Subscribe_returns depth lines s) as (s' & r & Hrun).
    pose proof (Subscribe_keeps_absent _ lines s s' r key Hrun Hkey) as Habs.
    exists s', r. split; [done|]. split; [done|by apply Hget].
Qed.

Lemma inquiry_store_never_grows_witness :
  let rejected := SetState REJECTED Samples.sample_inquiry in
  inquiryData (AddListener 9%nat new) !! "I0000000001A" = None ∧
  GetState rejected = REJECTED ∧
  OnMessage 2 rejected (AddListener 9%nat new) = Some (AddListener 9%nat new, Undefined) ∧
  ∃ s' d,
    OnMessage 2 Samples.sample_inquiry (AddListener 9%nat new) = Some (s', Ok d) ∧
    GetData "I0000000001A" s' = (s', Throw (runtime_error "Key not found")).
Proof.
  intros rejected.
  assert (inquiryData (AddListener 9%nat new) !! "I0000000001A" = None) as Hkey
    by reflexivity.
  split; [exact Hkey|]. split; [reflexivity|]. split.
  - destruct (proj1 (inquiry_store_never_grows 0 "I0000000001A") rejected
                (AddListener 9%nat new) Hkey) as (s' & r & Hrun & _ & _ & Hub & _).
    destruct Hub as [-> ->]; [|exact Hrun].
    split; [by left|reflexivity].
  - destruct (proj1 (inquiry_store_never_grows 0 "I0000000001A") Samples.sample_inquiry
                (AddListener 9%nat new) Hkey) as (s' & r & Hrun & _ & Hget & _ & Hok).
    destruct Hok as [d ->].
    { intros [[Hstate|Hstate] _]; discriminate Hstate. }
    exists s', d. split; [exact Hrun|exact Hget].
Defined.

(** X12.  [SendQuote] and [RejectInquiry] never find their inquiry.  After
    [Subscribe], whatever the file and the outcome, on a service that did not
    hold an identifier before, [SendQuote] and [RejectInquiry] for that
    identifier access [inquiryData[inquiryId]] on an absent key: undefined
    behaviour, with the service left as it was.  On a stored inquiry
    [SendQuote] changes its price alone and calls every listener once with
    it, and [RejectInquiry] sets its state to REJECTED and calls no
    listener. *)
Theorem quotes_need_a_stored_inquiry (inquiryId : string) (price : Qc) :
  (∀ depth lines s s' r,
     inquiryData s !! inquiryId = None →
     Subscribe depth lines s = Some (s', r) →
     SendQuote inquiryId price s' = (s', Undefined) ∧
     RejectInquiry inquiryId s' = (s', Undefined)) ∧
  (∀ s inquiry,
     inquiryData s !! inquiryId = Some inquiry →
     let quoted := SetPrice price inquiry in
     SendQuote inquiryId price s
     = (mkService (<[inquiryId := quoted]> (inquiryData s)) (listeners s)
          (notified s ++ ((λ l, (l, quoted)) <$> listeners s)), Ok tt) ∧
     GetState quoted = GetState inquiry ∧
     RejectInquiry inquiryId s
     = (mkService (<[inquiryId := SetState REJECTED inquiry]> (inquiryData s)) (listeners s)
          (notified s), Ok tt)).
Proof.
  split.
  - intros depth lines s s' r Hkey Hrun.
    pose proof (Subscribe_keeps_absent depth lines s s' r inquiryId Hrun Hkey) as Habs.
    unfold SendQuote, RejectInquiry. by rewrite Habs.
  - intros s inquiry Hstored. cbn zeta. unfold SendQuote, RejectInquiry.
    by rewrite Hstored.
Qed.

Lemma quotes_need_a_stored_inquiry_witness :
  inquiryData (AddListener 9%nat new) !! "I0000000001A" = None ∧
  ∃ s',
    Subscribe 2 [Samples.inquiry_record1; Samples.inquiry_record2] (AddListener 9%nat new)
    = Some (s', Ok tt) ∧
    SendQuote "I0000000001A" (Q2Qc (199 # 2)) s' = (s', Undefined) ∧
    RejectInquiry "I0000000001A" s' = (s', Undefined).
Proof.
  split; [reflexivity|].
  destruct (Subscribe 2 [Samples.inquiry_record1; Samples.inquiry_record2]
              (AddListener 9%nat new)) as [[s' r]|] eqn:Hrun;
    [|vm_compute in Hrun; discriminate].
  exists s'.
  assert (r = Ok tt) as ->.
  { vm_compute in Hrun. by injection Hrun as _ <-. }
  split; [reflexivity|].
  exact (proj1 (quotes_need_a_stored_inquiry "I0000000001A" (Q2Qc (199 # 2)))
           2%nat [Samples.inquiry_record1; Samples.inquiry_record2] (AddListener 9%nat new)
           s' (Ok tt) eq_refl Hrun).
Defined.

End inquiries.

Section booking_listener.

Import TradeBooking.

Lemma ProcessAdd_step (order : AlgoExecution.ExecutionOrder) (l : TradeBookingServiceListener) :
  0 ≤ count l < LONG_MAX →
  let book :=
    if bool_decide (count l `mod` 3 = 0) then "TRSY1"
    else if bool_decide (count l `mod` 3 = 1) then "TRSY2" else "TRSY3" in
  let trade :=
    mkTrade (AlgoExecution.GetProduct order) (AlgoExecution.GetOrderId order)
      (AlgoExecution.GetPrice order) book
      (wrap64 (AlgoExecution.GetVisibleQuantity order + AlgoExecution.GetHiddenQuantity order))
      (if bool_decide (AlgoExecution.GetSide order = MarketData.BID) then BUY else SELL) in
  ProcessAdd order l
  = (mkListener
       (mkService (tradeData (service l)) (listeners (service l))
          (notified (service l) ++ ((λ x, (x, trade)) <$> listeners (service l))))
       (count l + 1), Ok tt).
Proof.
  intros Hcount. cbn zeta. unfold ProcessAdd. rewrite BookTrade_spec.
  rewrite Z.rem_mod_nonneg by lia.
  rewrite (wrap64_in_long (count l + 1))
    by (unfold in_long, LONG_MIN, LONG_MAX in *; lia).
  assert (0 ≤ count l `mod` 3 < 3) as Hmod by (apply Z.mod_pos_bound; lia).
  do 3 f_equal. f_equal. f_equal.
  repeat case_bool_decide; try done; lia.
Qed.

(** X13.  The execution listener of the trade booking service books the
    executions it receives to the books TRSY1, TRSY2, TRSY3, TRSY1, ... in
    turn, starting from its counter: for every sequence of execution orders,
    every call returns normally, the listeners of the booking service are
    called once per order, in order, with a trade that carries the identifier
    and price of the order, the sum of its visible and hidden quantities, BUY
    for a bid and SELL for an offer, and the book selected by the number of
    the call modulo 3; the trade store is not written. *)
Theorem ProcessAdd_rotates_books (orders : list AlgoExecution.ExecutionOrder)
    (l : TradeBookingServiceListener) :
  0 ≤ count l →
  count l + Z.of_nat (length orders) ≤ LONG_MAX →
  let booked (k : nat) (order : AlgoExecution.ExecutionOrder) :=
    mkTrade (AlgoExecution.GetProduct order) (AlgoExecution.GetOrderId order)
      (AlgoExecution.GetPrice order)
      (if bool_decide ((count l + Z.of_nat k) `mod` 3 = 0) then "TRSY1"
       else if bool_decide ((count l + Z.of_nat k) `mod` 3 = 1) then "TRSY2" else "TRSY3")
      (wrap64 (AlgoExecution.GetVisibleQuantity order + AlgoExecution.GetHiddenQuantity order))
      (if bool_decide (AlgoExecution.GetSide order = MarketData.BID) then BUY else SELL) in
  let l' := foldl (λ l order, (ProcessAdd order l).1) l orders in
  Forall (λ order, ∀ l0, 0 ≤ count l0 < LONG_MAX → (ProcessAdd order l0).2 = Ok tt) orders ∧
  count l' = count l + Z.of_nat (length orders) ∧
  tradeData (service l') = tradeData (service l) ∧
  listeners (service l') = listeners (service l) ∧
  notified (service l')
  = notified (service l)
    ++ (imap booked orders ≫= λ trade, (λ x, (x, trade)) <$> listeners (service l)).
Proof.
  intros Hpos Hmax. cbn zeta. split.
  { apply Forall_forall. intros order _ l0 Hl0. by rewrite ProcessAdd_step. }
  revert l Hpos Hmax. induction orders as [|order orders IH]; intros l Hpos Hmax.
  - simpl. rewrite app_nil_r. split; [lia|done].
  - simpl in Hmax. cbn [foldl].
    rewrite (ProcessAdd_step order l) by lia. cbn [fst].
    match goal with |- context [foldl _ ?x orders] => set (l1 := x) end.
    destruct (IH l1) as (Hc & Hd & Hl & Hn); [simpl; lia..|].
    rewrite Hc, Hd, Hl, Hn. subst l1. cbn [count service tradeData listeners notified].
    split; [simpl; lia|]. split; [done|]. split; [done|].
    rewrite <- app_assoc. f_equal. cbn [imap mbind list_bind]. rewrite Z.add_0_r.
    f_equal. f_equal. apply imap_ext. intros k order' _. simpl.
    by replace (count l + 1 + Z.of_nat k) with (count l + Z.of_nat (S k)) by lia.
Qed.

Lemma ProcessAdd_rotates_books_witness :
  let l := new_listener (AddListener 3%nat new) in
  let orders := replicate 4 Samples.sample_order in
  0 ≤ count l ∧
  count l + Z.of_nat (length orders) ≤ LONG_MAX ∧
  (GetBook ∘ snd) <$> notified (service (foldl (λ l order, (ProcessAdd order l).1) l orders))
  = ["TRSY1"; "TRSY2"; "TRSY3"; "TRSY1"].
Proof.
  intros l orders.
  assert (0 ≤ count l) as Hpos by (simpl; lia).
  assert (count l + Z.of_nat (length orders) ≤ LONG_MAX) as Hmax
    by (unfold LONG_MAX; simpl; lia).
  split; [exact Hpos|]. split; [exact Hmax|].
  destruct (ProcessAdd_rotates_books orders l Hpos Hmax) as (_ & _ & _ & _ & ->).
  reflexivity.
Defined.

End booking_listener.

Lemma QueryProduct_id (cusip : string) (product : Bond) :
  QueryProduct cusip = Ok product → GetProductId product = cusip.
Proof.
  unfold QueryProduct.
  destruct (list_to_map productConstructors !! cusip) as [ctor|] eqn:Hctor; [|done].
  intros [= <-]. apply elem_of_list_to_map_2 in Hctor. unfold productConstructors in Hctor.
  repeat (apply elem_of_cons in Hctor as [[= -> ->]|Hctor]; [done|]).
  by apply elem_of_nil in Hctor.
Qed.

Section prices.

Import Pricing.

Lemma Pricing_OnMessage_spec (data : Price) (s : PricingService) :
  OnMessage data s
  = (mkService (<[GetProductId (GetProduct data) := data]> (priceData s)) (listeners s)
       (notified s ++ ((λ l, (l, data)) <$> listeners s)), Ok tt).
Proof.
  unfold OnMessage. do 2 f_equal. unfold map_insert. case_bool_decide as Hin.
  - rewrite lookup_delete_eq. apply insert_delete_eq.
  - apply eq_None_not_Some in Hin. by rewrite Hin.
Qed.

Lemma Pricing_fold_store (prices : list Price) (s : PricingService) :
  priceData (foldl (λ s p, (OnMessage p s).1) s prices)
  = foldl (λ m p, <[GetProductId (GetProduct p) := p]> m) (priceData s) prices.
Proof.
  revert s. induction prices as [|p prices IH]; intros s; [done|].
  cbn [foldl]. rewrite IH. by rewrite Pricing_OnMessage_spec.
Qed.

Lemma fold_insert_absent (prices : list Price) (m : gmap string Price) (key : string) :
  Forall (λ q, GetProductId (GetProduct q) ≠ key) prices →
  foldl (λ m p, <[GetProductId (GetProduct p) := p]> m) m prices !! key = m !! key.
Proof.
  intros Hall. revert m. induction Hall as [|q prices Hq _ IH]; intros m; [done|].
  cbn [foldl]. rewrite IH. by rewrite lookup_insert_ne.
Qed.

(** X14.  The last price of a product wins.  When every record of a price
    file converts, [Subscribe] returns normally; afterwards [GetData] of a
    product returns the price built from the last record of the file for that
    product, and a product that the file does not mention has what it had
    before.  Every listener has been called once per record, in file order. *)
Theorem Subscribe_last_price_wins (header : string) (lines : list string)
    (prices : list Price) (s : PricingService) :
  Forall2 (λ line p, read_record line = Ok p) lines prices →
  ∃ s',
    Subscribe (header :: lines) s = (s', Ok tt) ∧
    (∀ before p after,
       prices = before ++ p :: after →
       Forall (λ q, GetProductId (GetProduct q) ≠ GetProductId (GetProduct p)) after →
       GetData (GetProductId (GetProduct p)) s' = (s', Ok p)) ∧
    (∀ key, Forall (λ q, GetProductId (GetProduct q) ≠ key) prices →
            priceData s' !! key = priceData s !! key) ∧
    notified s' = notified s ++ (prices ≫= λ p, (λ l, (l, p)) <$> listeners s).
Proof.
  intros Hall. eexists. split.
  { unfold Subscribe. simpl tail.
    apply (read_loop_ok read_record (λ p s, (OnMessage p s).1)). exact Hall. }
  split; [|split].
  - intros before p after -> Hafter. unfold GetData.
    rewrite Pricing_fold_store, foldl_app. cbn [foldl].
    rewrite fold_insert_absent by done. by rewrite lookup_insert_eq.
  - intros key Hkey. rewrite Pricing_fold_store. by apply fold_insert_absent.
  - apply price_fold_notified.
Qed.

Lemma Subscribe_last_price_wins_witness :
  ∃ p1 p2 p3 s',
    Forall2 (λ line p, read_record line = Ok p)
      [Samples.price_record1; Samples.price_record2; Samples.price_record3] [p1; p2; p3] ∧
    Subscribe [Samples.price_header; Samples.price_record1; Samples.price_record2;
               Samples.price_record3] new = (s', Ok tt) ∧
    GetData "9128283H1" s' = (s', Ok p3) ∧
    GetMid p3 = Q2Qc (6373 # 64) ∧ GetBidOfferSpread p3 = Q2Qc (1 # 32).
Proof.
  destruct (read_record Samples.price_record1) as [p1| |] eqn:H1;
    [|vm_compute in H1; discriminate..].
  destruct (read_record Samples.price_record2) as [p2| |] eqn:H2;
    [|vm_compute in H2; discriminate..].
  destruct (read_record Samples.price_record3) as [p3| |] eqn:H3;
    [|vm_compute in H3; discriminate..].
  assert (Forall2 (λ line p, read_record line = Ok p)
            [Samples.price_record1; Samples.price_record2; Samples.price_record3]
            [p1; p2; p3]) as Hall by (repeat constructor; done).
  assert (GetProductId (GetProduct p3) = "9128283H1") as Hid.
  { vm_compute in H3. by injection H3 as <-. }
  destruct (Subscribe_last_price_wins Samples.price_header _ _ new Hall)
    as (s' & Hrun & Hlast & _ & _).
  exists p1, p2, p3, s'. split; [exact Hall|]. split; [exact Hrun|]. split.
  - rewrite <- Hid. apply (Hlast [p1; p2] p3 []); [reflexivity|constructor].
  - vm_compute in H3. injection H3 as <-. split; apply Qc_is_canon; reflexivity.
Defined.

Lemma Frac2Price_canonical (field : string) :
  Spec.canonical_encoded field →
  ∃ k, 0 ≤ k < 2 ^ 39 ∧ Frac2Price field = Ok (Q2Qc (k # 256)).
Proof.
  intros (I & d1 & d2 & c & x1 & x2 & -> & [HI Hmax] & Hd1 & Hd2 & Hxy & Hc).
  destruct (to_string_digits I HI) as (Hne & Hall & Hval).
  pose proof (digit_val_range _ _ Hd1). pose proof (digit_val_range _ _ Hd2).
  unfold INT_MAX in Hmax.
  destruct Hc as [->|(z & Hz & Hz7 & _)].
  - exists (256 * I + 8 * (10 * x1 + x2) + 4). split; [lia|].
    rewrite (Frac2Price_encoded _ _ _ _ x1 x2 4); [by rewrite Hval|done..|by left].
  - pose proof (digit_val_range _ _ Hz).
    exists (256 * I + 8 * (10 * x1 + x2) + z). split; [lia|].
    rewrite (Frac2Price_encoded _ _ _ _ x1 x2 z); [by rewrite Hval|done..|by right].
Qed.

(** X15.  The bid and the offer of a price record can be read back from the
    price object built from it.  When a record converts to a price and its
    third and fourth fields are canonical encoded prices, as [Price2Frac]
    writes them, these fields decode to a bid and an offer that are multiples
    of 1/256 below 2^31, the mid is their mean, the spread their difference,
    so that bid = mid - spread / 2 and offer = mid + spread / 2 (all of them
    multiples of 1/512 that binary64 holds exactly), and the product is the
    one the second field names. *)
Theorem read_record_bid_offer (line bidField askField : string) (p : Price) :
  read_record line = Ok p →
  split "," line !! 2%nat = Some bidField →
  split "," line !! 3%nat = Some askField →
  Spec.canonical_encoded bidField → Spec.canonical_encoded askField →
  ∃ productID kb ka,
    split "," line !! 1%nat = Some productID ∧
    QueryProduct productID = Ok (GetProduct p) ∧
    GetProductId (GetProduct p) = productID ∧
    0 ≤ kb < 2 ^ 39 ∧ 0 ≤ ka < 2 ^ 39 ∧
    Frac2Price bidField = Ok (Q2Qc (kb # 256)) ∧
    Frac2Price askField = Ok (Q2Qc (ka # 256)) ∧
    GetMid p = Q2Qc ((kb + ka) # 512) ∧
    GetBidOfferSpread p = Q2Qc ((ka - kb) # 256) ∧
    (GetMid p - GetBidOfferSpread p / Qc_of_Z 2 = Q2Qc (kb # 256))%Qc ∧
    (GetMid p + GetBidOfferSpread p / Qc_of_Z 2 = Q2Qc (ka # 256))%Qc.
Proof.
  intros Hread Hb Ha Hcb Hca.
  destruct (Frac2Price_canonical _ Hcb) as (kb & Hkb & Hbid).
  destruct (Frac2Price_canonical _ Hca) as (ka & Hka & Hask).
  revert Hread. unfold read_record, at_index. rewrite Hb, Ha.
  destruct (split "," line !! 0%nat) as [timestamp|]; [|done].
  destruct (split "," line !! 1%nat) as [productID|]; [|done]. simpl.
  rewrite Hbid, Hask. simpl.
  destruct (QueryProduct productID) as [product| |] eqn:Hproduct; [|done..]. simpl.
  intros [= <-]. simpl.
  exists productID, kb, ka.
  split; [done|]. split; [done|]. split; [by apply QueryProduct_id|].
  split; [done|]. split; [done|]. split; [done|]. split; [done|].
  assert (Q2Qc (kb # 256) + Q2Qc (ka # 256) = Q2Qc ((kb + ka) # 256))%Qc as Hsum.
  { apply Qc_is_canon. unfold Qcplus, Q2Qc. simpl.
    rewrite !Qred_correct. unfold Qeq, Qplus. simpl. lia. }
  assert (Q2Qc (ka # 256) - Q2Qc (kb # 256) = Q2Qc ((ka - kb) # 256))%Qc as Hdiff.
  { apply Qc_is_canon. unfold Qcminus, Qcplus, Qcopp, Q2Qc. simpl.
    rewrite !Qred_correct. unfold Qeq, Qplus, Qopp. simpl. lia. }
  assert (Q2Qc ((kb + ka) # 256) / Qc_of_Z 2 = Q2Qc ((kb + ka) # 512))%Qc as Hhalf.
  { apply Qc_is_canon. unfold Qcdiv, Qcmult, Qcinv, Qc_of_Z, Q2Qc. simpl.
    rewrite !Qred_correct. unfold Qeq, Qmult, Qinv, inject_Z. simpl. lia. }
  split; [by rewrite Hsum, Hhalf|]. split; [done|].
  assert (Qc_of_Z 2 = 1 + 1)%Qc as -> by (apply Qc_is_canon; reflexivity).
  split; field; done.
Qed.

Lemma read_record_bid_offer_witness :
  split "," Samples.price_record1 !! 2%nat = Some "99-160" ∧
  split "," Samples.price_record1 !! 3%nat = Some "99-200" ∧
  Spec.canonical_encoded "99-160" ∧ Spec.canonical_encoded "99-200" ∧
  ∃ p, read_record Samples.price_record1 = Ok p ∧
       (GetMid p - GetBidOfferSpread p / Qc_of_Z 2 = Q2Qc (199 # 2))%Qc ∧
       (GetMid p + GetBidOfferSpread p / Qc_of_Z 2 = Q2Qc (797 # 8))%Qc.
Proof.
  assert (Spec.canonical_encoded "99-160") as Hcb.
  { exists 99, "1"%char, "6"%char, "0"%char, 1, 6.
    split; [reflexivity|]. split; [split; discriminate|].
    split; [reflexivity|]. split; [reflexivity|]. split; [reflexivity|].
    right. exists 0. split; [reflexivity|]. split; [discriminate|discriminate]. }
  assert (Spec.canonical_encoded "99-200") as Hca.
  { exists 99, "2"%char, "0"%char, "0"%char, 2, 0.
    split; [reflexivity|]. split; [split; discriminate|].
    split; [reflexivity|]. split; [reflexivity|]. split; [reflexivity|].
    right. exists 0. split; [reflexivity|]. split; [discriminate|discriminate]. }
  split; [reflexivity|]. split; [reflexivity|]. split; [exact Hcb|]. split; [exact Hca|].
  destruct (read_record Samples.price_record1) as [p| |] eqn:Hp;
    [|vm_compute in Hp; discriminate..].
  exists p. split; [reflexivity|].
  destruct (read_record_bid_offer Samples.price_record1 "99-160" "99-200" p Hp
              eq_refl eq_refl Hcb Hca)
    as (productID & kb & ka & _ & _ & _ & _ & _ & Hbid & Hask & _ & _ & -> & ->).
  destruct (Frac2Price "99-160") as [bid| |] eqn:Hb; [|discriminate..].
  destruct (Frac2Price "99-200") as [ask| |] eqn:Ha; [|discriminate..].
  injection Hbid as <-. injection Hask as <-.
  vm_compute in Hb, Ha. injection Hb as <-. injection Ha as <-.
  split; apply Qc_is_canon; reflexivity.
Defined.

End prices.

Section order_books.

Import MarketData Spec.

Lemma aggregate_stack_nonempty (side : PricingSide) (stack : list Order) :
  stack ≠ [] → aggregate_stack side stack ≠ [].
Proof.
  destruct stack as [|order stack]; [done|]. intros _ Hnil.
  assert (is_Some (aggregate (order :: stack) !! GetPrice order)) as [q Hq].
  { apply aggregate_dom. simpl. left. }
  assert (mkOrder (GetPrice order) q side ∈ aggregate_stack side (order :: stack)) as Hin.
  { by apply elem_of_aggregate_stack. }
  rewrite Hnil in Hin. by apply elem_of_nil in Hin.
Qed.

Lemma aggregation_covers (side : PricingSide) (stack aggregated : list Order)
    (order : Order) :
  is_aggregation_of side stack aggregated → order ∈ stack →
  mkOrder (GetPrice order) (total_at (GetPrice order) stack) side ∈ aggregated.
Proof.
  intros [_ Hiff] Hin. apply Hiff. simpl. split; [|done].
  by apply list_elem_of_fmap_2.
Qed.

Lemma aggregation_same_price (side : PricingSide) (stack aggregated : list Order)
    (a b : Order) :
  is_aggregation_of side stack aggregated →
  a ∈ aggregated → b ∈ aggregated → GetPrice a = GetPrice b → a = b.
Proof.
  intros [_ Hiff] (_ & Hqa & Hsa)%Hiff (_ & Hqb & Hsb)%Hiff Hprice.
  destruct a, b. simpl in *. subst. done.
Qed.

(** X16.  Best bid and offer of an aggregated book.  When the stored book of
    a product has orders on both sides, [AggregateDepth] followed by
    [BestBidOffer] returns normally; the best bid has the highest price of
    the bid stack as it was before the aggregation and the total quantity
    that stack had at that price, and every other bid of the aggregated book
    is strictly below it; the same holds for the offer with the lowest
    price. *)
Theorem best_of_aggregated_book (s : MarketDataService) (productId : string)
    (orderBook : OrderBook) :
  orderBookMap s !! productId = Some orderBook →
  GetBidStack orderBook ≠ [] → GetOfferStack orderBook ≠ [] →
  sums_fit (GetBidStack orderBook) → sums_fit (GetOfferStack orderBook) →
  ∃ s1 aggregated bid offer,
    AggregateDepth productId s = (s1, Ok aggregated) ∧
    BestBidOffer aggregated = Ok (mkBidOffer bid offer) ∧
    GetSide bid = BID ∧ GetSide offer = OFFER ∧
    GetPrice bid ∈ GetPrice <$> GetBidStack orderBook ∧
    GetPrice offer ∈ GetPrice <$> GetOfferStack orderBook ∧
    (∀ order, order ∈ GetBidStack orderBook → (GetPrice order ≤ GetPrice bid)%Qc) ∧
    (∀ order, order ∈ GetOfferStack orderBook → (GetPrice offer ≤ GetPrice order)%Qc) ∧
    GetQuantity bid = total_at (GetPrice bid) (GetBidStack orderBook) ∧
    GetQuantity offer = total_at (GetPrice offer) (GetOfferStack orderBook) ∧
    (∀ order, order ∈ GetBidStack aggregated → order ≠ bid →
              (GetPrice order < GetPrice bid)%Qc) ∧
    (∀ order, order ∈ GetOfferStack aggregated → order ≠ offer →
              (GetPrice offer < GetPrice order)%Qc).
Proof.
  intros Hbook Hbids Hoffers Hfb Hfo. unfold AggregateDepth. rewrite Hbook.
  pose proof (aggregate_stack_sums BID _ Hfb) as Haggb.
  pose proof (aggregate_stack_sums OFFER _ Hfo) as Haggo.
  pose proof (aggregate_stack_nonempty BID _ Hbids) as Hnb.
  pose proof (aggregate_stack_nonempty OFFER _ Hoffers) as Hno.
  destruct (max_element price_less (aggregate_stack BID (GetBidStack orderBook)))
    as [bid|] eqn:Hmax;
    [|by destruct (aggregate_stack BID (GetBidStack orderBook))].
  destruct (min_element price_less (aggregate_stack OFFER (GetOfferStack orderBook)))
    as [offer|] eqn:Hmin;
    [|by destruct (aggregate_stack OFFER (GetOfferStack orderBook))].
  destruct (max_element_spec _ _ Hmax) as [Hbin Hble].
  destruct (min_element_spec _ _ Hmin) as [Hoin Hole].
  pose proof (proj1 (proj2 Haggb bid) Hbin) as (Hbp & Hbq & Hbs).
  pose proof (proj1 (proj2 Haggo offer) Hoin) as (Hop & Hoq & Hos).
  eexists _, _, bid, offer. split; [reflexivity|].
  split; [unfold BestBidOffer; cbn [GetBidStack GetOfferStack]; by rewrite Hmax, Hmin|].
  cbn [GetBidStack GetOfferStack].
  repeat split; try done.
  - intros order Hin. apply (Hble _ (aggregation_covers BID _ _ order Haggb Hin)).
  - intros order Hin. apply (Hole _ (aggregation_covers OFFER _ _ order Haggo Hin)).
  - intros order Hin Hne. destruct (Qcle_lt_or_eq _ _ (Hble order Hin)) as [Hlt|Heq]; [done|].
    destruct Hne. by apply (aggregation_same_price BID _ _ order bid Haggb).
  - intros order Hin Hne. destruct (Qcle_lt_or_eq _ _ (Hole order Hin)) as [Hlt|Heq]; [done|].
    destruct Hne. symmetry. by apply (aggregation_same_price OFFER _ _ offer order Haggo).
Qed.

Lemma best_of_aggregated_book_witness :
  let book := mkOrderBook Samples.US2Y
                [ mkOrder (Q2Qc (99 # 1)) 100 BID; mkOrder (Q2Qc (395 # 4)) 200 BID;
                  mkOrder (Q2Qc (99 # 1)) 300 BID ]
                [ mkOrder (Q2Qc (100 # 1)) 500 OFFER ] in
  let s := set_orderBookMap (insert "9128283H1" book) new in
  orderBookMap s !! "9128283H1" = Some book ∧
  GetBidStack book ≠ [] ∧ GetOfferStack book ≠ [] ∧
  sums_fit (GetBidStack book) ∧ sums_fit (GetOfferStack book) ∧
  ∃ s1 aggregated bid offer,
    AggregateDepth "9128283H1" s = (s1, Ok aggregated) ∧
    BestBidOffer aggregated = Ok (mkBidOffer bid offer) ∧
    bid = mkOrder (Q2Qc (99 # 1)) 400 BID ∧ offer = mkOrder (Q2Qc (100 # 1)) 500 OFFER.
Proof.
  intros book s.
  assert (orderBookMap s !! "9128283H1" = Some book) as Hbook by apply lookup_insert_eq.
  assert (sums_fit (GetBidStack book)) as Hfb.
  { split.
    - repeat constructor; vm_compute; intuition discriminate.
    - intros price. simpl. unfold in_long, LONG_MIN, LONG_MAX.
      repeat case_bool_decide; lia. }
  assert (sums_fit (GetOfferStack book)) as Hfo.
  { split.
    - repeat constructor; vm_compute; intuition discriminate.
    - intros price. simpl. unfold in_long, LONG_MIN, LONG_MAX.
      repeat case_bool_decide; lia. }
  split; [exact Hbook|]. split; [done|]. split; [done|].
  split; [exact Hfb|]. split; [exact Hfo|].
  destruct (best_of_aggregated_book s "9128283H1" book Hbook) as
    (s1 & aggregated & bid & offer & Hrun & Hbest & Hbs & Hos & Hbp & Hop & Hbmax & _
     & Hbq & Hoq & _); [done..|].
  exists s1, aggregated, bid, offer. split; [exact Hrun|]. split; [exact Hbest|].
  assert (GetPrice bid = Q2Qc (99 # 1)) as Hprice.
  { apply Qcle_antisym.
    - simpl in Hbp. rewrite !elem_of_cons in Hbp.
      destruct Hbp as [->|[->|[->|[]%elem_of_nil]]];
        apply (bool_decide_unpack _); vm_compute; exact I.
    - apply (Hbmax (mkOrder (Q2Qc (99 # 1)) 100 BID)). left. }
  assert (GetPrice offer = Q2Qc (100 # 1)) as Hoprice.
  { simpl in Hop. by apply list_elem_of_singleton in Hop. }
  split.
  - destruct bid as [p q sd]. simpl in *. subst p sd. rewrite Hbq. f_equal.
  - destruct offer as [p q sd]. simpl in *. subst p sd. rewrite Hoq. f_equal.
Defined.

End order_books.

Section order_book_feed.

Import MarketData.

Lemma GetData_ok (key : string) (s s0 : MarketDataService) (book : OrderBook) :
  GetData key s = (s0, Ok book) →
  s0 = set_orderBookMap (insert key book) s ∧
  (orderBookMap s !! key = Some book ∨
   orderBookMap s !! key = None ∧ QueryProduct key = Ok (GetProduct book) ∧
   GetBidStack book = [] ∧ GetOfferStack book = []).
Proof.
  unfold GetData. destruct (orderBookMap s !! key) as [old|] eqn:Hold.
  - intros [= <- <-]. split; [|by left].
    unfold set_orderBookMap. rewrite insert_id by done. by destruct s.
  - destruct (QueryProduct key) as [prod| |]; [|done..].
    intros [= <- <-]. split; [|by right].
    unfold set_orderBookMap, map_insert. by rewrite Hold.
Qed.

Lemma insert_alter_same (f : OrderBook → OrderBook) (key : string) (book : OrderBook)
    (m : gmap string OrderBook) :
  <[key := book]> (alter f key m) = <[key := book]> m.
Proof.
  apply map_eq. intros k. destruct (decide (k = key)) as [->|Hne].
  - by rewrite !lookup_insert_eq.
  - by rewrite !lookup_insert_ne, lookup_alter_ne.
Qed.

(** The loop over the levels of a record: every level pushes one bid and one
    offer onto the stored book. *)
Lemma read_levels (productID : string) (splitdata : list string)
    (levels : list (Qc * Z * Qc * Z)) (start : nat) (s : MarketDataService)
    (book : OrderBook) :
  orderBookMap s !! productID = Some book →
  (∀ k bp bq ap aq, levels !! k = Some (bp, bq, ap, aq) →
     at_index splitdata (4 * (start + k) + 2) ≫= Frac2Price = Ok bp ∧
     at_index splitdata (4 * (start + k) + 3) ≫= stol = Ok bq ∧
     at_index splitdata (4 * (start + k) + 4) ≫= Frac2Price = Ok ap ∧
     at_index splitdata (4 * (start + k) + 5) ≫= stol = Ok aq) →
  for_each (read_level productID splitdata) (seq start (length levels)) s
  = (set_orderBookMap
       (insert productID
          (mkOrderBook (GetProduct book)
             (GetBidStack book ++ ((λ l, mkOrder l.1.1.1 l.1.1.2 BID) <$> levels))
             (GetOfferStack book ++ ((λ l, mkOrder l.1.2 l.2 OFFER) <$> levels)))) s,
     Ok tt).
Proof.
  revert start s book. induction levels as [|[[[bp bq] ap] aq] levels IH];
    intros start s book Hbook Hparse.
  - simpl. rewrite !app_nil_r. unfold Cxx.ret, set_orderBookMap.
    rewrite insert_id; [by destruct s|]. rewrite Hbook. by destruct book.
  - cbn [length seq for_each].
    destruct (Hparse 0%nat bp bq ap aq eq_refl) as (H1 & H2 & H3 & H4).
    rewrite Nat.add_0_r in H1, H2, H3, H4.
    unfold Cxx.bind at 1. unfold read_level at 1.
    unfold Cxx.bind, lift. rewrite H1, H2, H3, H4.
    unfold push_bid, push_offer, modify.
    match goal with |- for_each _ _ ?s1 = _ => set (s1' := s1) end.
    rewrite (IH (S start) s1'
               (mkOrderBook (GetProduct book) (GetBidStack book ++ [mkOrder bp bq BID])
                  (GetOfferStack book ++ [mkOrder ap aq OFFER]))).
    + subst s1'. unfold set_orderBookMap. cbn [orderBookMap listeners bookDepth notified
        GetProduct GetBidStack GetOfferStack].
      rewrite !insert_alter_same, <- !app_assoc. reflexivity.
    + subst s1'. unfold set_orderBookMap. cbn [orderBookMap].
      rewrite !lookup_alter_eq, Hbook. reflexivity.
    + intros k bp' bq' ap' aq' Hk.
      replace (S start + k)%nat with (start + S k)%nat by lia.
      by apply Hparse.
Qed.

Lemma MarketData_OnMessage_spec (data : OrderBook) (s : MarketDataService) :
  OnMessage data s
  = (mkService (<[GetProductId (GetProduct data) := data]> (orderBookMap s)) (listeners s)
       (bookDepth s) (notified s ++ ((λ l, (l, data)) <$> listeners s)), Ok tt).
Proof.
  unfold OnMessage, notify, set_orderBookMap. cbn [orderBookMap listeners bookDepth notified].
  do 2 f_equal. unfold map_insert. case_bool_decide as Hin.
  - rewrite lookup_delete_eq. apply insert_delete_eq.
  - apply eq_None_not_Some in Hin. by rewrite Hin.
Qed.

Lemma read_record_stored (line productID : string) (s s0 : MarketDataService)
    (book : OrderBook) (levels : list (Qc * Z * Qc * Z)) :
  let splitdata := split "," line in
  is_Some (splitdata !! 0%nat) →
  splitdata !! 1%nat = Some productID →
  GetData productID s = (s0, Ok book) →
  GetProductId (GetProduct book) = productID →
  length levels = Z.to_nat (bookDepth s) →
  (∀ k bp bq ap aq, levels !! k = Some (bp, bq, ap, aq) →
     at_index splitdata (4 * k + 2) ≫= Frac2Price = Ok bp ∧
     at_index splitdata (4 * k + 3) ≫= stol = Ok bq ∧
     at_index splitdata (4 * k + 4) ≫= Frac2Price = Ok ap ∧
     at_index splitdata (4 * k + 5) ≫= stol = Ok aq) →
  let stored :=
    mkOrderBook (GetProduct book)
      (aggregate_stack BID
         (GetBidStack book ++ ((λ l, mkOrder l.1.1.1 l.1.1.2 BID) <$> levels)))
      (aggregate_stack OFFER
         (GetOfferStack book ++ ((λ l, mkOrder l.1.2 l.2 OFFER) <$> levels))) in
  read_record line s
  = (mkService (<[productID := stored]> (orderBookMap s)) (listeners s) (bookDepth s)
       (notified s ++ ((λ l, (l, stored)) <$> listeners s)), Ok tt).
Proof.
  intros splitdata [timestamp Htime] Hid Hget Hkey Hlen Hparse. cbn zeta.
  unfold read_record. fold splitdata.
  unfold Cxx.bind at 1. unfold lift at 1, at_index at 1. rewrite Htime.
  unfold Cxx.bind at 1. unfold lift at 1, at_index at 1. rewrite Hid.
  unfold Cxx.bind at 1. rewrite Hget.
  destruct (GetData_ok _ _ _ _ Hget) as [-> _].
  unfold Cxx.bind at 1. unfold gets at 1.
  cbn [set_orderBookMap bookDepth]. rewrite <- Hlen.
  unfold Cxx.bind at 1.
  rewrite (read_levels productID splitdata levels 0
             (set_orderBookMap (insert productID book) s) book).
  - unfold Cxx.bind at 1. unfold AggregateDepth at 1.
    unfold set_orderBookMap. cbn [orderBookMap listeners bookDepth notified].
    rewrite lookup_insert_eq. cbn [GetProduct GetBidStack GetOfferStack].
    rewrite MarketData_OnMessage_spec.
    cbn [orderBookMap listeners bookDepth notified GetProduct]. rewrite Hkey.
    by rewrite !insert_insert_eq.
  - apply lookup_insert_eq.
  - intros k bp bq ap aq Hk. by apply Hparse.
Qed.

Lemma aggregate_stack_keeps_prices (side : PricingSide) (stack : list Order)
    (order : Order) :
  order ∈ stack → GetPrice order ∈ GetPrice <$> aggregate_stack side stack.
Proof.
  intros Hin.
  assert (is_Some (aggregate stack !! GetPrice order)) as [q Hq].
  { apply aggregate_dom. by apply list_elem_of_fmap_2. }
  change (GetPrice order) with (GetPrice (mkOrder (GetPrice order) q side)) at 1.
  apply list_elem_of_fmap_2. by apply elem_of_aggregate_stack.
Qed.

(** X17.  What one record of the order book feed does.  [book] is what
    [GetData] returns for the product of the record: the stored book, or a new
    book without orders when the product has none.  When the fields of the
    record convert, the record is processed without failure and the book
    stored and sent to the listeners afterwards is the aggregation of the
    orders that [book] already had followed by the orders of the record: every
    price of an earlier record is still in the book, and each price has one
    order whose quantity is the sum over the old and the new orders at that
    price. *)
Theorem read_record_accumulates (line productID : string) (s s0 : MarketDataService)
    (book : OrderBook) (levels : list (Qc * Z * Qc * Z)) :
  let splitdata := split "," line in
  is_Some (splitdata !! 0%nat) →
  splitdata !! 1%nat = Some productID →
  GetData productID s = (s0, Ok book) →
  GetProductId (GetProduct book) = productID →
  length levels = Z.to_nat (bookDepth s) →
  (∀ k bp bq ap aq, levels !! k = Some (bp, bq, ap, aq) →
     at_index splitdata (4 * k + 2) ≫= Frac2Price = Ok bp ∧
     at_index splitdata (4 * k + 3) ≫= stol = Ok bq ∧
     at_index splitdata (4 * k + 4) ≫= Frac2Price = Ok ap ∧
     at_index splitdata (4 * k + 5) ≫= stol = Ok aq) →
  let bids := GetBidStack book ++ ((λ l, mkOrder l.1.1.1 l.1.1.2 BID) <$> levels) in
  let offers := GetOfferStack book ++ ((λ l, mkOrder l.1.2 l.2 OFFER) <$> levels) in
  ∃ stored,
    read_record line s
    = (mkService (<[productID := stored]> (orderBookMap s)) (listeners s) (bookDepth s)
         (notified s ++ ((λ l, (l, stored)) <$> listeners s)), Ok tt) ∧
    GetProduct stored = GetProduct book ∧
    GetBidStack stored = aggregate_stack BID bids ∧
    GetOfferStack stored = aggregate_stack OFFER offers ∧
    (∀ order, order ∈ GetBidStack book → GetPrice order ∈ GetPrice <$> GetBidStack stored) ∧
    (∀ order, order ∈ GetOfferStack book →
              GetPrice order ∈ GetPrice <$> GetOfferStack stored) ∧
    (Spec.sums_fit bids → Spec.is_aggregation_of BID bids (GetBidStack stored)) ∧
    (Spec.sums_fit offers → Spec.is_aggregation_of OFFER offers (GetOfferStack stored)).
Proof.
  intros splitdata Htime Hid Hget Hkey Hlen Hparse bids offers.
  eexists. split.
  { by apply (read_record_stored line productID s s0 book levels). }
  cbn [GetProduct GetBidStack GetOfferStack].
  split; [done|]. split; [done|]. split; [done|].
  split; [|split; [|split]].
  - intros order Hin. apply aggregate_stack_keeps_prices, elem_of_app. by left.
  - intros order Hin. apply aggregate_stack_keeps_prices, elem_of_app. by left.
  - apply aggregate_stack_sums.
  - apply aggregate_stack_sums.
Qed.

Lemma outcome_Qc_eq (o : outcome Qc) (q : Qc) :
  match o with Ok p => Qeq_bool p q | _ => false end = true → o = Ok q.
Proof.
  destruct o as [p| |]; [|done..]. intros Heq. f_equal.
  apply Qc_is_canon. by apply Qeq_bool_iff.
Qed.

Lemma read_record_accumulates_witness :
  let s := AddListener 7%nat new in
  let book := mkOrderBook Samples.US2Y [] [] in
  let levels :=
    [ (Q2Qc (99 # 1), 100, Q2Qc (3169 # 32), 100);
      (Q2Qc (3167 # 32), 200, Q2Qc (3170 # 32), 200);
      (Q2Qc (3166 # 32), 300, Q2Qc (3171 # 32), 300);
      (Q2Qc (3165 # 32), 400, Q2Qc (3172 # 32), 400);
      (Q2Qc (3164 # 32), 500, Q2Qc (3173 # 32), 500) ] in
  GetData "9128283H1" s = (set_orderBookMap (insert "9128283H1" book) s, Ok book) ∧
  length levels = Z.to_nat (bookDepth s) ∧
  ∃ stored,
    read_record Samples.book_record1 s
    = (mkService (<["9128283H1" := stored]> ∅) [7%nat] 5 [(7%nat, stored)], Ok tt) ∧
    GetBidStack stored
    = aggregate_stack BID ((λ l, mkOrder l.1.1.1 l.1.1.2 BID) <$> levels) ∧
    length (GetBidStack stored) = 5%nat.
Proof.
  intros s book levels.
  assert (GetData "9128283H1" s = (set_orderBookMap (insert "9128283H1" book) s, Ok book))
    as Hget by reflexivity.
  split; [exact Hget|]. split; [reflexivity|].
  destruct (read_record_accumulates Samples.book_record1 "9128283H1" s
              (set_orderBookMap (insert "9128283H1" book) s) book levels)
    as (stored & Hrun & _ & Hbids & _).
  - by eexists.
  - reflexivity.
  - exact Hget.
  - reflexivity.
  - reflexivity.
  - intros k bp bq ap aq Hk.
    do 5 (destruct k as [|k];
          [injection Hk as <- <- <- <-;
           repeat split; try (apply outcome_Qc_eq); vm_compute; reflexivity|]).
    done.
  - exists stored. split; [exact Hrun|]. split; [exact Hbids|].
    rewrite Hbids. vm_compute. reflexivity.
Defined.

Lemma bind_invariant {S A B : Type} (P : S → Prop) (m : M S A) (f : A → M S B) :
  (∀ s s' r, m s = (s', r) → P s → P s') →
  (∀ a s s' r, f a s = (s', r) → P s → P s') →
  ∀ s s' r, Cxx.bind m f s = (s', r) → P s → P s'.
Proof.
  intros Hm Hf s s' r. unfold Cxx.bind.
  destruct (m s) as [s1 [a|e|]] eqn:Hrun.
  - intros Hrest Hs. eapply Hf; [done|]. by eapply Hm.
  - intros [= <- <-] Hs. by eapply Hm.
  - intros [= <- <-] Hs. by eapply Hm.
Qed.

Lemma for_each_invariant {S A : Type} (P : S → Prop) (body : A → M S unit) (l : list A) :
  (∀ x s s' r, body x s = (s', r) → P s → P s') →
  ∀ s s' r, for_each body l s = (s', r) → P s → P s'.
Proof.
  intros Hbody. induction l as [|x l IH]; intros s s' r.
  - by intros [= <- <-].
  - cbn [for_each]. apply bind_invariant; [apply Hbody|]. intros _. apply IH.
Qed.

Lemma lift_invariant {S A : Type} (P : S → Prop) (x : outcome A) (s s' : S)
    (r : outcome A) :
  lift x s = (s', r) → P s → P s'.
Proof. by intros [= <- <-]. Qed.

(** X18.  Every order book is stored under the identifier of its own product,
    and [Subscribe] keeps it so whatever the feed contains: the property holds
    for the service as the call leaves it, whether the call returns, throws
    at some record or runs into undefined behaviour.  The same holds for
    [GetData], [AggregateDepth] and [OnMessage] on their own. *)
Theorem books_keyed_by_product (s s' : MarketDataService) :
  let keyed (s : MarketDataService) :=
    ∀ key book, orderBookMap s !! key = Some book → GetProductId (GetProduct book) = key in
  keyed s →
  (∀ _data r, Subscribe _data s = (s', r) → keyed s') ∧
  (∀ key r, GetData key s = (s', r) → keyed s') ∧
  (∀ productId r, AggregateDepth productId s = (s', r) → keyed s') ∧
  (∀ data r, OnMessage data s = (s', r) → keyed s').
Proof.
  intros keyed.
  assert (∀ key s s' r, GetData key s = (s', r) → keyed s → keyed s') as Hget.
  { clear s s'. intros key s s' r. unfold GetData.
    destruct (orderBookMap s !! key) as [old|] eqn:Hold; [by intros [= <- <-]|].
    destruct (QueryProduct key) as [prod| |] eqn:Hprod; [|by intros [= <- <-]..].
    intros [= <- <-] Hs k b. unfold set_orderBookMap, map_insert. simpl. rewrite Hold.
    rewrite lookup_insert. case_decide as Hk; [|by apply Hs].
    intros [= <-]. simpl. subst k. by apply QueryProduct_id. }
  assert (∀ productId s s' r, AggregateDepth productId s = (s', r) → keyed s → keyed s')
    as Hagg.
  { clear s s'. intros productId s s' r. unfold AggregateDepth.
    destruct (orderBookMap s !! productId) as [old|] eqn:Hold; [|by intros [= <- <-]].
    intros [= <- <-] Hs k b. simpl. rewrite lookup_insert.
    case_decide as Hk; [|by apply Hs].
    intros [= <-]. simpl. subst k. by apply Hs. }
  assert (∀ data s s' r, OnMessage data s = (s', r) → keyed s → keyed s') as Hon.
  { clear s s'. intros data s s' r. rewrite MarketData_OnMessage_spec.
    intros [= <- <-] Hs k b. simpl. rewrite lookup_insert.
    case_decide as Hk; [|by apply Hs]. by intros [= <-]. }
  assert (∀ f productID s s' (r : outcome unit),
            (∀ book, GetProduct (f book) = GetProduct book) →
            modify (set_orderBookMap (alter f productID)) s = (s', r) →
            keyed s → keyed s') as Hpush.
  { clear s s'. intros f productID s s' r Hf [= <- <-] Hs k b. simpl.
    destruct (decide (k = productID)) as [->|Hne].
    - rewrite lookup_alter_eq. destruct (orderBookMap s !! productID) as [old|] eqn:Hold;
        [|done].
      intros [= <-]. rewrite Hf. by apply Hs.
    - rewrite lookup_alter_ne by done. apply Hs. }
  assert (∀ line s s' r, read_record line s = (s', r) → keyed s → keyed s') as Hrecord.
  { clear s s'. intros line. unfold read_record.
    apply bind_invariant; [intros s s' r; apply lift_invariant|]. intros timestamp.
    apply bind_invariant; [intros s s' r; apply lift_invariant|]. intros productID.
    apply bind_invariant; [apply Hget|]. intros orderBook.
    apply bind_invariant; [by intros s s' r [= <- <-]|]. intros depth.
    apply bind_invariant.
    - apply for_each_invariant. intros i. unfold read_level.
      apply bind_invariant; [intros s s' r; apply lift_invariant|]. intros bidPrice.
      apply bind_invariant; [intros s s' r; apply lift_invariant|]. intros bidQuantity.
      apply bind_invariant; [intros s s' r; apply lift_invariant|]. intros askPrice.
      apply bind_invariant; [intros s s' r; apply lift_invariant|]. intros askQuantity.
      apply bind_invariant.
      + intros s s' r. by apply Hpush.
      + intros _ s s' r. by apply Hpush.
    - intros _. apply bind_invariant; [apply Hagg|]. intros aggregated. apply Hon. }
  intros Hs. split; [|split; [|split]].
  - intros _data r Hrun. unfold Subscribe in Hrun.
    by apply (for_each_invariant keyed read_record (tail _data) Hrecord s s' r).
  - intros key r Hrun. by apply (Hget key s s' r).
  - intros productId r Hrun. by apply (Hagg productId s s' r).
  - intros data r Hrun. by apply (Hon data s s' r).
Qed.

Lemma books_keyed_by_product_witness :
  ∃ s',
    Subscribe [Samples.book_header; Samples.book_record1; Samples.book_record2] new
    = (s', Ok tt) ∧
    ∀ key book, orderBookMap s' !! key = Some book → GetProductId (GetProduct book) = key.
Proof.
  destruct (Subscribe [Samples.book_header; Samples.book_record1; Samples.book_record2] new)
    as [s' r] eqn:Hrun.
  exists s'. split.
  - vm_compute in Hrun. injection Hrun as _ <-. reflexivity.
  - apply (proj1 (books_keyed_by_product new s'
                    (λ key book Hbook, match lookup_empty_Some _ _ Hbook with end))
             _ r Hrun).
Defined.



End order_book_feed.

Section generated_files.

Lemma rev_app_rev_app (a b c : string) :
  String.rev_app (String.rev_app a b) c = String.rev_app b (a +:+ c).
Proof.
  revert b. induction a as [|x a IH]; intros b; [done|].
  simpl. by rewrite IH.
Qed.

Lemma string_app_empty_r (s : string) : s +:+ "" = s.
Proof.
  induction s as [|x s IH]; [done|].
  change (String x (s +:+ "") = String x s). by rewrite IH.
Qed.

Lemma split_go_field (f rest cur : string) :
  find "," f = None →
  split_go "," cur (f +:+ String "," rest)
  = String.rev (String.rev_app f cur) :: split_go "," "" rest.
Proof.
  revert cur. induction f as [|x f IH]; intros cur.
  - intros _. reflexivity.
  - simpl find. destruct (Ascii.eqb x ",") eqn:Hx; [done|].
    destruct (find "," f) eqn:Hf; [done|]. intros _.
    change (String x f +:+ String "," rest) with (String x (f +:+ String "," rest)).
    cbn [split_go]. rewrite Hx. by rewrite IH.
Qed.

Lemma split_go_last (f cur : string) :
  find "," f = None → String.rev_app f cur ≠ "" →
  split_go "," cur f = [String.rev (String.rev_app f cur)].
Proof.
  revert cur. induction f as [|x f IH]; intros cur.
  - intros _ Hne. simpl in *. by destruct cur.
  - simpl find. destruct (Ascii.eqb x ",") eqn:Hx; [done|].
    destruct (find "," f) eqn:Hf; [done|]. intros _ Hne.
    cbn [split_go]. rewrite Hx. by rewrite IH.
Qed.

Lemma rev_rev_app (f : string) : String.rev (String.rev_app f "") = f.
Proof. unfold String.rev. by rewrite rev_app_rev_app, string_app_empty_r. Qed.

(** The tokens of a line of six fields without commas, the last one not
    empty. *)
Lemma split_six_fields (f0 f1 f2 f3 f4 f5 : string) :
  find "," f0 = None → find "," f1 = None → find "," f2 = None →
  find "," f3 = None → find "," f4 = None → find "," f5 = None → f5 ≠ "" →
  split "," (f0 +:+ "," +:+ f1 +:+ "," +:+ f2 +:+ "," +:+ f3 +:+ "," +:+ f4 +:+ "," +:+ f5)
  = [f0; f1; f2; f3; f4; f5].
Proof.
  intros H0 H1 H2 H3 H4 H5 Hne. unfold split.
  repeat match goal with
         | |- context [ "," +:+ ?t ] => change ("," +:+ t) with (String "," t)
         end.
  rewrite !split_go_field, !rev_rev_app by done.
  rewrite split_go_last, rev_rev_app; [done..|].
  destruct f5; [done|]. simpl. intros Hrev.
  assert (String.rev (String.rev_app f5 (String a "")) = String.rev "") as Hrr
    by (by rewrite Hrev).
  unfold String.rev in Hrr. rewrite rev_app_rev_app in Hrr. by destruct f5.
Qed.

Lemma find_comma_app (a b : string) :
  find "," a = None → find "," b = None → find "," (a +:+ b) = None.
Proof.
  intros Ha Hb. induction a as [|x a IH]; [done|].
  simpl in Ha. change (String x a +:+ b) with (String x (a +:+ b)). simpl.
  destruct (Ascii.eqb x ","); [done|].
  destruct (find "," a); [done|]. by rewrite IH.
Qed.

Lemma digit_not_comma (c : ascii) (d : Z) : digit_val c = Some d → Ascii.eqb c "," = false.
Proof. intros Hc. by destruct (Ascii.eqb_spec c ",") as [->|]. Qed.

Lemma find_comma_digits (s : string) : all_digits s = true → find "," s = None.
Proof.
  induction s as [|c s IH]; [done|]. simpl.
  intros [Hc Hs]%andb_true_iff. apply bool_decide_eq_true in Hc as [d Hc].
  by rewrite (digit_not_comma _ _ Hc), IH.
Qed.

Lemma find_comma_encoded (s : string) : Spec.canonical_encoded s → find "," s = None.
Proof.
  intros (I & d1 & d2 & c & x1 & x2 & -> & [HI _] & Hd1 & Hd2 & _ & Hc).
  destruct (to_string_digits I HI) as (_ & Hall & _).
  apply find_comma_app; [by apply find_comma_digits|].
  simpl. rewrite (digit_not_comma _ _ Hd1), (digit_not_comma _ _ Hd2).
  destruct Hc as [->|(z & Hz & _)]; [done|]. by rewrite (digit_not_comma _ _ Hz).
Qed.

Lemma find_comma_product (product : string) (bond : Bond) :
  QueryProduct product = Ok bond → find "," product = None.
Proof.
  unfold QueryProduct.
  destruct (list_to_map productConstructors !! product) as [ctor|] eqn:Hctor; [|done].
  intros _. apply elem_of_list_to_map_2 in Hctor. unfold productConstructors in Hctor.
  repeat (apply elem_of_cons in Hctor as [[= -> ->]|Hctor]; [done|]).
  by apply elem_of_nil in Hctor.
Qed.

Lemma stol_to_string (quantity : Z) :
  0 ≤ quantity ≤ LONG_MAX → stol (to_string quantity) = Ok quantity.
Proof.
  intros [Hq Hmax]. destruct (to_string_digits quantity Hq) as (Hne & Hall & Hval).
  destruct (read_digits_all (to_string quantity) 0 0%nat Hall) as [v Hv].
  rewrite Hv in Hval. simpl in Hval. subst v.
  destruct (to_string quantity) as [|c s] eqn:Hs; [done|].
  simpl in Hall. apply andb_true_iff in Hall as [Hc Hall].
  apply bool_decide_eq_true in Hc as [d Hc].
  unfold stol. simpl skip_space. rewrite (digit_not_space _ _ Hc).
  assert (read_sign (String c s) = (false, String c s)) as ->.
  { unfold read_sign. destruct (decide (c = "-"%char)) as [->|]; [done|].
    destruct (decide (c = "+"%char)) as [->|]; [done|].
    repeat (destruct c as [[] [] [] [] [] [] [] []]; try done). }
  rewrite Hv. simpl.
  rewrite bool_decide_eq_true_2; [done|]. unfold in_long, LONG_MIN. lia.
Qed.

(** X20.  What [genTrades] writes, the trade booking connector reads back.
    For a known product, a trade identifier and a book without comma, a price
    that is not negative, a quantity that is not negative and one of the two
    sides, the record that [genTrades] writes is converted without failure by
    the loop body of [TradeBookingConnector::Subscribe] to the trade with the
    same product, identifier, book, quantity and side, and with the price
    rounded down to a multiple of 1/256. *)
Theorem generated_trade_is_read_back (product tradeId book side : string) (price : Qc)
    (quantity : Z) (bond : Bond) :
  QueryProduct product = Ok bond →
  find "," tradeId = None → find "," book = None →
  (0 ≤ price)%Qc → floor price ≤ INT_MAX →
  0 ≤ quantity ≤ LONG_MAX →
  side = "BUY" ∨ side = "SELL" →
  ∃ line,
    genTrades_line product tradeId price book quantity side = Ok line ∧
    TradeBooking.read_record line
    = Ok (TradeBooking.mkTrade bond tradeId (Q2Qc (floor (price * Qc_of_Z 256) # 256)) book
            quantity (if bool_decide (side = "BUY") then TradeBooking.BUY
                      else TradeBooking.SELL)).
Proof.
  intros Hproduct Hid Hbook Hprice Hmax Hquantity Hside.
  destruct (Price2Frac_floor_ticks price Hprice Hmax) as (frac & Hfrac & Hcanon & Hback).
  destruct (to_string_digits quantity (proj1 Hquantity)) as (_ & Hall & _).
  unfold genTrades_line. rewrite Hfrac. eexists. split; [reflexivity|].
  unfold TradeBooking.read_record.
  rewrite split_six_fields;
    [|first [ done | by eapply find_comma_product | by apply find_comma_encoded
            | by apply find_comma_digits | by destruct Hside as [-> | ->] ]..].
  unfold at_index. simpl lookup. cbv beta iota.
  repeat (rewrite outcome_bind_ok; cbv beta). rewrite Hproduct.
  repeat (rewrite outcome_bind_ok; cbv beta). rewrite Hback.
  repeat (rewrite outcome_bind_ok; cbv beta). rewrite (stol_to_string quantity Hquantity).
  by repeat (rewrite outcome_bind_ok; cbv beta).
Qed.

Lemma generated_trade_is_read_back_witness :
  QueryProduct "9128283H1" = Ok Samples.US2Y ∧
  (0 ≤ Q2Qc (50689 # 512))%Qc ∧ floor (Q2Qc (50689 # 512)) ≤ INT_MAX ∧
  0 ≤ 1000000 ≤ LONG_MAX ∧
  genTrades_line "9128283H1" "T0000000001A" (Q2Qc (50689 # 512)) "TRSY1" 1000000 "BUY"
  = Ok "9128283H1,T0000000001A,99-000,TRSY1,1000000,BUY" ∧
  TradeBooking.read_record "9128283H1,T0000000001A,99-000,TRSY1,1000000,BUY"
  = Ok (TradeBooking.mkTrade Samples.US2Y "T0000000001A"
          (Q2Qc (floor (Q2Qc (50689 # 512) * Qc_of_Z 256) # 256)) "TRSY1" 1000000
          TradeBooking.BUY).
Proof.
  assert (QueryProduct "9128283H1" = Ok Samples.US2Y) as Hproduct by reflexivity.
  assert (0 ≤ Q2Qc (50689 # 512))%Qc as Hprice by discriminate.
  assert (floor (Q2Qc (50689 # 512)) ≤ INT_MAX) as Hmax by discriminate.
  assert (0 ≤ 1000000 ≤ LONG_MAX) as Hquantity by (split; discriminate).
  split; [exact Hproduct|]. split; [exact Hprice|]. split; [exact Hmax|].
  split; [exact Hquantity|].
  assert (genTrades_line "9128283H1" "T0000000001A" (Q2Qc (50689 # 512)) "TRSY1" 1000000
            "BUY" = Ok "9128283H1,T0000000001A,99-000,TRSY1,1000000,BUY") as Hline
    by (vm_compute; reflexivity).
  split; [exact Hline|].
  destruct (generated_trade_is_read_back "9128283H1" "T0000000001A" "TRSY1" "BUY"
              (Q2Qc (50689 # 512)) 1000000 Samples.US2Y Hproduct eq_refl eq_refl Hprice Hmax
              Hquantity (or_introl eq_refl)) as (line & Hgen & Hread).
  rewrite Hline in Hgen. injection Hgen as <-. exact Hread.
Defined.

(** X21.  What [genInquiries] writes, the inquiry connector reads back and
    the inquiry service completes.  For a known product, an inquiry
    identifier without comma, one of the two sides, a quantity and a price
    that are not negative and the status RECEIVED, the record that
    [genInquiries] writes is converted without failure to a RECEIVED inquiry
    with the same identifier, product, side and quantity and with the price
    rounded down to a multiple of 1/256; [Subscribe] on the file made of this
    record returns normally, with three calls of every listener. *)
Theorem generated_inquiry_is_read_back (inquiryId product side : string) (price : Qc)
    (quantity : Z) (bond : Bond) (s : Inquiry.InquiryService) :
  QueryProduct product = Ok bond →
  find "," inquiryId = None →
  side = "BUY" ∨ side = "SELL" →
  0 ≤ quantity ≤ LONG_MAX →
  (0 ≤ price)%Qc → floor price ≤ INT_MAX →
  let inquiry :=
    Inquiry.mkInquiry inquiryId bond
      (if bool_decide (side = "BUY") then TradeBooking.BUY else TradeBooking.SELL)
      quantity (Q2Qc (floor (price * Qc_of_Z 256) # 256)) Inquiry.RECEIVED in
  ∃ line s',
    genInquiries_line inquiryId product side quantity price "RECEIVED" = Ok line ∧
    Inquiry.read_record line = Ok inquiry ∧
    Inquiry.Subscribe 2 [line] s = Some (s', Ok tt) ∧
    Inquiry.inquiryData s' !! inquiryId = None ∧
    length (Inquiry.notified s')
    = (length (Inquiry.notified s) + 3 * length (Inquiry.listeners s))%nat.
Proof.
  intros Hproduct Hid Hside Hquantity Hprice Hmax inquiry.
  destruct (Price2Frac_floor_ticks price Hprice Hmax) as (frac & Hfrac & Hcanon & Hback).
  destruct (to_string_digits quantity (proj1 Hquantity)) as (_ & Hall & _).
  assert (Inquiry.read_record
            (inquiryId +:+ "," +:+ product +:+ "," +:+ side +:+ "," +:+ to_string quantity
             +:+ "," +:+ frac +:+ "," +:+ "RECEIVED") = Ok inquiry) as Hread.
  { unfold Inquiry.read_record.
    rewrite split_six_fields;
      [|first [ done | by eapply find_comma_product | by apply find_comma_encoded
              | by apply find_comma_digits | by destruct Hside as [-> | ->] ]..].
    unfold at_index. simpl lookup. cbv beta iota.
    repeat (rewrite outcome_bind_ok; cbv beta). rewrite Hproduct.
    repeat (rewrite outcome_bind_ok; cbv beta). rewrite (stol_to_string quantity Hquantity).
    repeat (rewrite outcome_bind_ok; cbv beta). rewrite Hback.
    by repeat (rewrite outcome_bind_ok; cbv beta). }
  unfold genInquiries_line. rewrite Hfrac. eexists _, _.
  split; [reflexivity|]. split; [exact Hread|].
  split.
  - apply (Subscribe_received 0 [_] [inquiry] s).
    repeat constructor. exact Hread.
  - simpl. split; [apply lookup_delete_eq|].
    rewrite app_nil_r, !length_app, !length_fmap. lia.
Qed.

Lemma generated_inquiry_is_read_back_witness :
  let s := Inquiry.AddListener 9%nat Inquiry.new in
  let line := "I0000000001A,9128283H1,BUY,1000000,99-000,RECEIVED" in
  QueryProduct "9128283H1" = Ok Samples.US2Y ∧
  0 ≤ 1000000 ≤ LONG_MAX ∧
  (0 ≤ Q2Qc (50689 # 512))%Qc ∧ floor (Q2Qc (50689 # 512)) ≤ INT_MAX ∧
  genInquiries_line "I0000000001A" "9128283H1" "BUY" 1000000 (Q2Qc (50689 # 512)) "RECEIVED"
  = Ok line ∧
  ∃ s', Inquiry.Subscribe 2 [line] s = Some (s', Ok tt) ∧
        length (Inquiry.notified s') = 3%nat.
Proof.
  intros s line.
  assert (QueryProduct "9128283H1" = Ok Samples.US2Y) as Hproduct by reflexivity.
  assert (0 ≤ Q2Qc (50689 # 512))%Qc as Hprice by discriminate.
  assert (floor (Q2Qc (50689 # 512)) ≤ INT_MAX) as Hmax by discriminate.
  assert (0 ≤ 1000000 ≤ LONG_MAX) as Hquantity by (split; discriminate).
  assert (genInquiries_line "I0000000001A" "9128283H1" "BUY" 1000000 (Q2Qc (50689 # 512))
            "RECEIVED" = Ok line) as Hline by (vm_compute; reflexivity).
  split; [exact Hproduct|]. split; [exact Hquantity|]. split; [exact Hprice|].
  split; [exact Hmax|]. split; [exact Hline|].
  destruct (generated_inquiry_is_read_back "I0000000001A" "9128283H1" "BUY"
              (Q2Qc (50689 # 512)) 1000000 Samples.US2Y s Hproduct eq_refl
              (or_introl eq_refl) Hquantity Hprice Hmax)
    as (line' & s' & Hgen & _ & Hrun & _ & Hlen).
  rewrite Hline in Hgen. injection Hgen as <-.
  exists s'. split; [exact Hrun|]. rewrite Hlen. reflexivity.
Defined.

End generated_files.
